(** * plist: decoding Apple property lists into Go values

    A shallow embedding of [plist.go] (package [plist]): the tag scanner
    [next], the skipper [skipValue], the recursive decoder [unmarshalValue]
    and the entry point [Unmarshal], followed by the properties of the
    decoder that the specification states.

    Conventions of the embedding.
    - A Go [[]byte] and a Go [string] are both a [string] (a sequence of
      8-bit characters).  The nil slice is the empty string: the source
      tests a token with [tag == nil] once and with [len(tag) == 0]
      everywhere else, and [next] never returns a non-nil empty token
      ([next_tag_length]).
    - Go's [int] indices are [Z]; [bytes.IndexByte] answers [-1] when the
      byte is absent.
    - Loops and recursion carry a fuel argument; the entry points supply
      enough of it ([skipValue_terminates], [Unmarshal_terminates]). *)

From Stdlib Require Import String Ascii List ZArith Lia Bool.
Import ListNotations.

Set Warnings "-register-all".

Local Open Scope string_scope.
Local Open Scope Z_scope.

(** ** Byte slices *)

(** The nil slice. *)
Definition nil : string := EmptyString.

Definition len (b : string) : Z := Z.of_nat (String.length b).

(** [bytes.IndexByte]. *)
Fixpoint IndexByte (b : string) (c : ascii) : Z :=
  match b with
  | EmptyString => -1
  | String a b' =>
      if Ascii.eqb a c then 0
      else let i := IndexByte b' c in if i <? 0 then -1 else i + 1
  end.

Fixpoint drop (n : nat) (b : string) : string :=
  match n, b with
  | O, _ => b
  | S _, EmptyString => EmptyString
  | S n', String _ b' => drop n' b'
  end.

Fixpoint take (n : nat) (b : string) : string :=
  match n, b with
  | O, _ => EmptyString
  | S _, EmptyString => EmptyString
  | S n', String a b' => String a (take n' b')
  end.

(** [b[i:]], [b[:j]] and [b[i:j]] for indices within bounds. *)
Definition slice_from (b : string) (i : Z) : string := drop (Z.to_nat i) b.
Definition slice_to (b : string) (j : Z) : string := take (Z.to_nat j) b.
Definition slice (b : string) (i j : Z) : string :=
  take (Z.to_nat (j - i)) (drop (Z.to_nat i) b).

(** [b[i]], the zero byte standing for an index out of range (the source
    only indexes a token at 1, and a token has at least two bytes). *)
Definition byte_at (b : string) (i : nat) : ascii :=
  match String.get i b with Some c => c | None => Ascii.zero end.

(** [bytes.HasPrefix]. *)
Definition HasPrefix (b p : string) : bool := String.prefix p b.

(** Whether byte [c] occurs in [b]. *)
Fixpoint occurs (c : ascii) (b : string) : bool :=
  match b with
  | EmptyString => false
  | String a b' => Ascii.eqb a c || occurs c b'
  end.

(** ** The tag scanner *)

(** [next]: the text before the next [<...>] token, the token, and what
    follows it; a nil token when there is no complete token left. *)
Definition next (data : string) : string * string * string :=
  let i := IndexByte data "<" in
  if i <? 0 then (data, nil, nil)
  else
    let j := IndexByte (slice_from data i) ">" in
    if j <? 0 then (data, nil, nil)
    else
      let j := j + i + 1 in
      (slice_to data i, slice data i j, slice_from data j).
Arguments next : simpl never.

(** ** Outcomes *)

(** What a call of the decoder ends in: its result, the [error] it returns
    (the text of [fmt.Errorf]), a run-time panic raised by package
    [reflect], or the model's fuel running out. *)
Inductive panic : Type :=
| PanicZeroValue          (* a method called on the zero reflect.Value *)
| PanicUnaddressable      (* Set on a value that is not addressable *)
| PanicUnexported         (* Set on a value reached through an unexported field *)
| PanicNotAssignable (have want : string)  (* Set of a value of another type *)
| PanicBadValue.          (* a value that does not have the shape of its type *)

Inductive outcome (A : Type) : Type :=
| Ok (a : A)
| Err (msg : string)
| Panics (p : panic)
| OutOfFuel.
Arguments Ok {A} a.
Arguments Err {A} msg.
Arguments Panics {A} p.
Arguments OutOfFuel {A}.

(** ** Skipping a value *)

(** The loop of [skipValue]; [n] is the nesting counter.  It counts tokens
    already scanned, so it cannot reach the limit of a Go [int]. *)
Fixpoint skipLoop (fuel : nat) (n : nat) (data : string) : outcome string :=
  match fuel with
  | O => OutOfFuel
  | S fuel' =>
      let '(_, tag, data) := next data in
      if len tag =? 0 then Err "unexpected eof"
      else if Ascii.eqb (byte_at tag 1) "/" then
        match n with
        | O => Err "unexpected closing tag"
        | S n' =>
            match n' with
            | O => Ok data
            | S _ => skipLoop fuel' n' data
            end
        end
      else skipLoop fuel' (S n) data
  end.

Definition skipValue (data : string) : outcome string :=
  skipLoop (S (String.length data)) 0 data.

(** ** Package reflect: types *)

(** The kinds of the types the decoder never looks inside: every kind but
    interface, pointer, slice and struct.  A type of such a kind is known
    to the decoder by its kind and its name alone. *)
Inductive basic : Type :=
| Bool | Int | Int8 | Int16 | Int32 | Int64
| Uint | Uint8 | Uint16 | Uint32 | Uint64 | Uintptr
| Float32 | Float64 | Complex64 | Complex128
| Array | Chan | Func | Map | String_ | UnsafePointer.

(** [reflect.Kind]. *)
Inductive Kind : Type :=
| Invalid
| Basic (b : basic)
| Interface | Ptr | Slice | Struct.

(** [reflect.StructTag], as the list of its [key:"value"] pairs. *)
Definition StructTag : Type := list (string * string).

(** [StructTag.Get]: the value of [key], the empty string when the tag has
    no such key. *)
Fixpoint Get (tag : StructTag) (key : string) : string :=
  match tag with
  | [] => EmptyString
  | (k, v) :: tag' => if String.eqb k key then v else Get tag' key
  end.

(** [reflect.Type] and [reflect.StructField].  A defined type carries its
    name as [Type.String] prints it; [PkgPath] is empty for an exported
    field.  Types are finite trees: recursive type declarations are outside
    the model. *)
Inductive rtype : Type :=
| TBasic (b : basic) (name : string)
| TInterface
| TSlice (elem : rtype)
| TPtr (elem : rtype)
| TStruct (name : string) (fields : list StructField)
with StructField : Type :=
| mkStructField (Name PkgPath : string) (Type_ : rtype) (Tag : StructTag)
                (Anonymous : bool).

Definition Name (f : StructField) : string :=
  let 'mkStructField n _ _ _ _ := f in n.
Definition PkgPath (f : StructField) : string :=
  let 'mkStructField _ p _ _ _ := f in p.
Definition Type_ (f : StructField) : rtype :=
  let 'mkStructField _ _ t _ _ := f in t.
Definition Tag (f : StructField) : StructTag :=
  let 'mkStructField _ _ _ t _ := f in t.
Definition Anonymous (f : StructField) : bool :=
  let 'mkStructField _ _ _ _ a := f in a.

(** The predeclared types the decoder produces values of. *)
Definition t_bool : rtype := TBasic Bool "bool".
Definition t_int : rtype := TBasic Int "int".
Definition t_float32 : rtype := TBasic Float32 "float32".
Definition t_float64 : rtype := TBasic Float64 "float64".
Definition t_string : rtype := TBasic String_ "string".
Definition t_uint8 : rtype := TBasic Uint8 "uint8".
Definition t_bytes : rtype := TSlice t_uint8.

(** [Type.Kind]. *)
Definition Type_Kind (t : rtype) : Kind :=
  match t with
  | TBasic b _ => Basic b
  | TInterface => Interface
  | TSlice _ => Slice
  | TPtr _ => Ptr
  | TStruct _ _ => Struct
  end.

(** [Type.String]. *)
Fixpoint Type_String (t : rtype) : string :=
  match t with
  | TBasic _ name => name
  | TInterface => "interface {}"
  | TSlice e => "[]" ++ Type_String e
  | TPtr e => "*" ++ Type_String e
  | TStruct name _ => name
  end.

(** [Type.Elem] of a slice or pointer type. *)
Definition Type_Elem (t : rtype) : rtype :=
  match t with
  | TSlice e | TPtr e => e
  | _ => t
  end.

(** The fields [Type.Field(0)], ..., [Type.Field(NumField()-1)]. *)
Definition Type_Fields (t : rtype) : list StructField :=
  match t with
  | TStruct _ fs => fs
  | _ => []
  end.

Definition basic_eqb (a b : basic) : bool :=
  match a, b with
  | Bool, Bool | Int, Int | Int8, Int8 | Int16, Int16 | Int32, Int32
  | Int64, Int64 | Uint, Uint | Uint8, Uint8 | Uint16, Uint16
  | Uint32, Uint32 | Uint64, Uint64 | Uintptr, Uintptr
  | Float32, Float32 | Float64, Float64 | Complex64, Complex64
  | Complex128, Complex128 | Array, Array | Chan, Chan | Func, Func
  | Map, Map | String_, String_ | UnsafePointer, UnsafePointer => true
  | _, _ => false
  end.

Definition Kind_eqb (a b : Kind) : bool :=
  match a, b with
  | Invalid, Invalid | Interface, Interface | Ptr, Ptr | Slice, Slice
  | Struct, Struct => true
  | Basic x, Basic y => basic_eqb x y
  | _, _ => false
  end.

(** Type identity.  A defined type is identified by its name. *)
Fixpoint rtype_eqb (a b : rtype) : bool :=
  match a, b with
  | TBasic x n, TBasic y m => basic_eqb x y && String.eqb n m
  | TInterface, TInterface => true
  | TSlice x, TSlice y => rtype_eqb x y
  | TPtr x, TPtr y => rtype_eqb x y
  | TStruct n _, TStruct m _ => String.eqb n m
  | _, _ => false
  end.

(** ** Package reflect: values *)

(** The contents of a variable.  A slice is the list of its elements (a nil
    slice and an empty one are both [[]]: the decoder only appends); a
    pointer owns what it points to (no two pointers of a destination share
    a target); an interface holds nothing or a value with its dynamic
    type; a float is its IEEE 754 bit pattern. *)
Inductive value : Type :=
| VBool (b : bool)
| VInt (i : Z)
| VFloat (bits : Z)
| VString (s : string)
| VOpaque
| VInterface (dyn : option (rtype * value))
| VSlice (elems : list value)
| VPtr (target : option value)
| VStruct (fields : list value).

(** [reflect.Zero]: the zero value of a type. *)
Fixpoint Zero (t : rtype) : value :=
  match t with
  | TBasic Bool _ => VBool false
  | TBasic (Int | Int8 | Int16 | Int32 | Int64) _ => VInt 0
  | TBasic (Uint | Uint8 | Uint16 | Uint32 | Uint64 | Uintptr) _ => VInt 0
  | TBasic (Float32 | Float64) _ => VFloat 0
  | TBasic String_ _ => VString EmptyString
  | TBasic _ _ => VOpaque
  | TInterface => VInterface None
  | TSlice _ => VSlice []
  | TPtr _ => VPtr None
  | TStruct _ fs =>
      VStruct ((fix zeros (fs : list StructField) : list value :=
                  match fs with
                  | [] => []
                  | mkStructField _ _ t _ _ :: fs' => Zero t :: zeros fs'
                  end) fs)
  end.

(** The flags of a [reflect.Value] that decide whether it can be set. *)
Record flag : Type := mkFlag
  { flagAddr : bool; flagStickyRO : bool; flagEmbedRO : bool }.

Definition flagRO (fl : flag) : bool := flagStickyRO fl || flagEmbedRO fl.

(** [reflect.Value]: the zero Value, or a type, flags and contents. *)
Inductive Value : Type :=
| ZeroValue
| MkValue (typ : rtype) (fl : flag) (val : value).

(** [reflect.ValueOf(i)] of an interface value [i]. *)
Definition ValueOf (i : option (rtype * value)) : Value :=
  match i with
  | None => ZeroValue
  | Some (t, x) => MkValue t (mkFlag false false false) x
  end.

(** [Value.Kind]. *)
Definition Value_Kind (v : Value) : Kind :=
  match v with
  | ZeroValue => Invalid
  | MkValue t _ _ => Type_Kind t
  end.

(** [Value.CanSet]. *)
Definition CanSet (v : Value) : bool :=
  match v with
  | ZeroValue => false
  | MkValue _ fl _ => flagAddr fl && negb (flagRO fl)
  end.

(** [Value.assignTo]: a value of type [xt] as one of type [t], when [xt] is
    assignable to [t] (the same type, or [t] is the empty interface). *)
Definition assignTo (xt : rtype) (x : value) (t : rtype) : option value :=
  if rtype_eqb xt t then Some x
  else match t with
       | TInterface => Some (VInterface (Some (xt, x)))
       | _ => None
       end.

(** [v.Set(x)] for [x] of type [xt]. *)
Definition Value_Set (v : Value) (xt : rtype) (x : value) : panic + Value :=
  match v with
  | ZeroValue => inl PanicZeroValue
  | MkValue t fl _ =>
      if flagRO fl then inl PanicUnexported
      else if negb (flagAddr fl) then inl PanicUnaddressable
      else match assignTo xt x t with
           | Some y => inr (MkValue t fl y)
           | None => inl (PanicNotAssignable (Type_String xt) (Type_String t))
           end
  end.

(** [v.IsNil()] of a pointer. *)
Definition IsNil (v : Value) : bool :=
  match v with
  | MkValue _ _ (VPtr (Some _)) => false
  | _ => true
  end.

(** [v.Elem()] of a non-nil pointer: addressable, read-only as [v] is. *)
Definition Value_Elem (v : Value) : panic + Value :=
  match v with
  | MkValue (TPtr e) fl (VPtr (Some x)) =>
      inr (MkValue e (mkFlag true (flagStickyRO fl) (flagEmbedRO fl)) x)
  | _ => inl PanicBadValue
  end.

(** The pointer [v] after its target became [e]. *)
Definition store_elem (v e : Value) : Value :=
  match v, e with
  | MkValue t fl (VPtr _), MkValue _ _ x => MkValue t fl (VPtr (Some x))
  | _, _ => v
  end.

(** [v.Field(i)] of a struct: read-only when the field is unexported. *)
Definition Value_Field (v : Value) (i : nat) : panic + Value :=
  match v with
  | MkValue (TStruct _ fs) fl (VStruct xs) =>
      match nth_error fs i, nth_error xs i with
      | Some f, Some x =>
          let ro := negb (String.eqb (PkgPath f) EmptyString) in
          inr (MkValue (Type_ f)
                 (mkFlag (flagAddr fl)
                    (flagStickyRO fl || (ro && negb (Anonymous f)))
                    (ro && Anonymous f))
                 x)
      | _, _ => inl PanicBadValue
      end
  | _ => inl PanicBadValue
  end.

Fixpoint list_set {A : Type} (l : list A) (i : nat) (a : A) : list A :=
  match l, i with
  | [], _ => []
  | _ :: l', O => a :: l'
  | b :: l', S i' => b :: list_set l' i' a
  end.

(** The struct [v] after its field [i] became [f]. *)
Definition store_field (v : Value) (i : nat) (f : Value) : Value :=
  match v, f with
  | MkValue t fl (VStruct xs), MkValue _ _ x =>
      MkValue t fl (VStruct (list_set xs i x))
  | _, _ => v
  end.

(** [reflect.New(t).Elem()]: a fresh settable variable of type [t]. *)
Definition New_Elem (t : rtype) : Value :=
  MkValue t (mkFlag true false false) (Zero t).

(** [v.Set(reflect.Append(v, elem))] of a slice [v]. *)
Definition Set_Append (v elem : Value) : panic + Value :=
  match v, elem with
  | MkValue t fl (VSlice xs), MkValue _ _ x =>
      if flagRO fl then inl PanicUnexported
      else if negb (flagAddr fl) then inl PanicUnaddressable
      else inr (MkValue t fl (VSlice (xs ++ [x])%list))
  | _, _ => inl PanicBadValue
  end.

(** ** The library functions the decoder calls *)

(** The Go standard library is not part of the package.  Its parsers are
    parameters of the decoder: each answers [None] where the Go function
    returns an error.  [time_Time] is the type [time.Time] (a struct with
    unexported fields). *)
Record Library : Type := mkLibrary
  { strconv_Atoi : string -> option Z;
    (* strconv.ParseFloat(s, bitSize): always a float64 *)
    strconv_ParseFloat : string -> Z -> option Z;
    time_Time : rtype;
    (* time.Parse(time.RFC3339, s) *)
    time_Parse : string -> option value;
    (* base64.StdEncoding.DecodeString(s) *)
    base64_DecodeString : string -> option string }.

(** A [[]byte] as a value of type [[]uint8]. *)
Definition bytes_value (d : string) : value :=
  VSlice (map (fun c => VInt (Z.of_N (N_of_ascii c))) (list_ascii_of_string d)).

(** ** The decoder *)

Definition result : Type := outcome string * Value.

(** The test of the [<dict>] case on a field:
    [f.Name == name || f.Tag.Get("plist") == name]. *)
Definition selects (f : StructField) (name : string) : bool :=
  String.eqb (Name f) name || String.eqb (Get (Tag f) "plist") name.

(** The index of the first field of [fs] (numbered from [i]) that the key
    [name] selects: the loop over [t.Field(i)] in the [<dict>] case. *)
Fixpoint fieldIndex (fs : list StructField) (name : string) (i : nat)
  : option nat :=
  match fs with
  | [] => None
  | f :: fs' =>
      if selects f name then Some i else fieldIndex fs' name (S i)
  end.

(** A scalar element: scan its body and closing tag, convert the body and
    set the destination. *)
Definition scalar (name : string) (what : string) (xt : rtype)
    (conv : string -> option value) (data : string) (v : Value) : result :=
  let '(body, etag, data) := next data in
  if len etag =? 0 then (Err ("eof inside <" ++ name ++ ">"), v)
  else if negb (String.eqb etag ("</" ++ name ++ ">"))
  then (Err ("expected </" ++ name ++ "> but got " ++ etag), v)
  else
    match conv body with
    | None => (Err (what ++ " in <" ++ name ++ "> tag: " ++ body), v)
    | Some x =>
        match Value_Set v xt x with
        | inl p => (Panics p, v)
        | inr v' => (Ok data, v')
        end
    end.

(** [v.Set(reflect.ValueOf(b))] of the two boolean tokens. *)
Definition boolean (b : bool) (data : string) (v : Value) : result :=
  match Value_Set v t_bool (VBool b) with
  | inl p => (Panics p, v)
  | inr v' => (Ok data, v')
  end.

Section Decoder.

Variable lib : Library.

(** The [switch] of [unmarshalValue] on the token [tag], with the loops of
    the [<dict>] and [<array>] cases as [dict] and [array]. *)
Definition dispatch (dict array : string -> Value -> result)
    (tag data : string) (v : Value) : result :=
  if String.eqb tag "<dict>" then
    match v with
    | ZeroValue => (Panics PanicZeroValue, v)
    | MkValue t _ _ =>
        if negb (Kind_eqb (Value_Kind v) Struct)
        then (Err ("cannot unmarshal <dict> into non-struct " ++ Type_String t), v)
        else dict data v
    end
  else if String.eqb tag "<array>" then
    match v with
    | ZeroValue => (Panics PanicZeroValue, v)
    | MkValue t _ _ =>
        if negb (Kind_eqb (Value_Kind v) Slice)
        then (Err ("cannot unmarshal <array> into non-slice " ++ Type_String t), v)
        else array data v
    end
  else if String.eqb tag "<string>" then
    scalar "string" EmptyString t_string (fun body => Some (VString body)) data v
  else if String.eqb tag "<integer>" then
    scalar "integer" "non-integer" t_int
      (fun body => option_map VInt (strconv_Atoi lib body)) data v
  else if String.eqb tag "<real>" then
    let bits := if Kind_eqb (Value_Kind v) (Basic Float32) then 32 else 64 in
    scalar "real" "non-float" t_float64
      (fun body => option_map VFloat (strconv_ParseFloat lib body bits)) data v
  else if String.eqb tag "<date>" then
    scalar "date" "non-date" (time_Time lib) (time_Parse lib) data v
  else if String.eqb tag "<data>" then
    scalar "data" "non-base64" t_bytes
      (fun body => option_map bytes_value (base64_DecodeString lib body)) data v
  else if String.eqb tag "<true/>" then boolean true data v
  else if String.eqb tag "<false/>" then boolean false data v
  else (Err ("unexpected tag " ++ tag), v).

(** The pointer step of [unmarshalValue]: a nil pointer is set to a new
    variable, and the decoder goes on with what the pointer points to.
    [None] for a destination that is no pointer, else the pointer (after
    it was set) and its target. *)
Definition indirect (v : Value) : panic + option (Value * Value) :=
  match v with
  | MkValue (TPtr e) _ _ =>
      match (if IsNil v
             then Value_Set v (TPtr e) (VPtr (Some (Zero e)))
             else inr v) with
      | inl p => inl p
      | inr v1 =>
          match Value_Elem v1 with
          | inl p => inl p
          | inr e1 => inr (Some (v1, e1))
          end
      end
  | _ => inr None
  end.

(** [unmarshalValue], with the loop of its [<dict>] case ([dictLoop]) and
    of its [<array>] case ([arrayLoop]).  Each returns the outcome and the
    destination as the call leaves it. *)
Fixpoint unmarshalValue (fuel : nat) (data : string) (v : Value)
  {struct fuel} : result :=
  match fuel with
  | O => (OutOfFuel, v)
  | S fuel' =>
      let '(_, tag, data) := next data in
      if String.eqb tag nil then (Err "unexpected end of data", v)
      else
        match indirect v with
        | inl p => (Panics p, v)
        | inr None => dispatch (dictLoop fuel') (arrayLoop fuel') tag data v
        | inr (Some (v1, e1)) =>
            let '(o, e2) :=
              dispatch (dictLoop fuel') (arrayLoop fuel') tag data e1 in
            (o, store_elem v1 e2)
        end
  end
with dictLoop (fuel : nat) (data : string) (v : Value)
  {struct fuel} : result :=
  match fuel with
  | O => (OutOfFuel, v)
  | S fuel' =>
      let '(_, tag, data) := next data in
      if len tag =? 0 then (Err "eof inside <dict>", v)
      else if String.eqb tag "</dict>" then (Ok data, v)
      else if negb (String.eqb tag "<key>")
      then (Err ("unexpected tag " ++ tag ++ " inside <dict>"), v)
      else
        let '(body, tag, data) := next data in
        if len tag =? 0 then (Err "eof inside <dict>", v)
        else if negb (String.eqb tag "</key>")
        then (Err ("unexpected tag " ++ tag ++ " inside <dict>"), v)
        else
          let name := body in
          match v with
          | ZeroValue => (Panics PanicZeroValue, v)
          | MkValue t _ _ =>
              match fieldIndex (Type_Fields t) name 0 with
              | Some i =>
                  match Value_Field v i with
                  | inl p => (Panics p, v)
                  | inr f =>
                      let '(o, f') := unmarshalValue fuel' data f in
                      let v' := store_field v i f' in
                      match o with
                      | Ok data => dictLoop fuel' data v'
                      | _ => (o, v')
                      end
                  end
              | None =>
                  match skipValue data with
                  | Ok data => dictLoop fuel' data v
                  | Err msg => (Err msg, v)
                  | Panics p => (Panics p, v)
                  | OutOfFuel => (OutOfFuel, v)
                  end
              end
          end
  end
with arrayLoop (fuel : nat) (data : string) (v : Value)
  {struct fuel} : result :=
  match fuel with
  | O => (OutOfFuel, v)
  | S fuel' =>
      let '(_, tag, rest) := next data in
      if len tag =? 0 then (Err "eof inside <array>", v)
      else if String.eqb tag "</array>" then (Ok rest, v)
      else
        match v with
        | ZeroValue => (Panics PanicZeroValue, v)
        | MkValue t _ _ =>
            let elem := New_Elem (Type_Elem t) in
            let '(o, elem') := unmarshalValue fuel' data elem in
            match o with
            | Ok data =>
                match Set_Append v elem' with
                | inl p => (Panics p, v)
                | inr v' => arrayLoop fuel' data v'
                end
            | _ => (o, v)
            end
        end
  end.

(** The loop of [Unmarshal] that skips the declarations before the root
    tag; its result is what follows the root tag. *)
Fixpoint rootLoop (fuel : nat) (data : string) : outcome string :=
  match fuel with
  | O => OutOfFuel
  | S fuel' =>
      let '(_, tag, data) := next data in
      if HasPrefix tag "<?xml" || HasPrefix tag "<!DOCTYPE"
      then rootLoop fuel' data
      else if negb (HasPrefix tag "<plist") then Err "not a plist"
      else Ok data
  end.

(** Fuel that suffices for [unmarshalValue] on [data]. *)
Definition enough (data : string) : nat := 2 * String.length data + 2.

(** [Unmarshal(data, v)]: the returned error ([Ok tt] for [nil]) and the
    destination [reflect.ValueOf(v)] as the call leaves it. *)
Definition Unmarshal (data : string) (v : option (rtype * value))
  : outcome unit * Value :=
  match rootLoop (S (String.length data)) data with
  | Ok data =>
      let '(o, v') := unmarshalValue (enough data) data (ValueOf v) in
      match o with
      | Ok data =>
          let '(_, tag, _) := next data in
          if negb (String.eqb tag "</plist>")
          then (Err "junk on end of plist", v')
          else (Ok tt, v')
      | Err msg => (Err msg, v')
      | Panics p => (Panics p, v')
      | OutOfFuel => (OutOfFuel, v')
      end
  | Err msg => (Err msg, ValueOf v)
  | Panics p => (Panics p, ValueOf v)
  | OutOfFuel => (OutOfFuel, ValueOf v)
  end.

End Decoder.

(** ** A library instance for the closed examples *)

(** [strconv.Atoi] on a 64-bit platform: an optional sign and decimal
    digits, within the range of [int]. *)
Fixpoint digits (s : string) (acc : Z) : option Z :=
  match s with
  | EmptyString => Some acc
  | String c s' =>
      let n := Z.of_N (N_of_ascii c) in
      if (48 <=? n) && (n <=? 57) then digits s' (10 * acc + (n - 48))
      else None
  end.

Definition example_Atoi (s : string) : option Z :=
  let unsigned (s : string) :=
    match s with EmptyString => None | _ => digits s 0 end in
  let r :=
    match s with
    | String "+" s' => unsigned s'
    | String "-" s' => option_map Z.opp (unsigned s')
    | _ => unsigned s
    end in
  match r with
  | Some i => if (- 2 ^ 63 <=? i) && (i <? 2 ^ 63) then Some i else None
  | None => None
  end.

(** [time.Time] with its three unexported fields. *)
Definition example_Time : rtype :=
  TStruct "time.Time"
    [mkStructField "wall" "time" (TBasic Uint64 "uint64") [] false;
     mkStructField "ext" "time" (TBasic Int64 "int64") [] false;
     mkStructField "loc" "time"
       (TPtr (TStruct "time.Location" [])) [] false].

(** The other parsers are tables over the texts of the package's test
    documents: the two reals (and [1.5]) with their float64 bit patterns,
    the two dates as seconds since year 1 in UTC, one base64 text. *)
Definition example_ParseFloat (s : string) (bitSize : Z) : option Z :=
  if String.eqb s "4.9000000953674316" then Some 0x40139999A0000000
  else if String.eqb s "4.5999999046325684" then Some 0x4012666660000000
  else if String.eqb s "1.5" then Some 0x3FF8000000000000
  else None.

Definition example_Parse (s : string) : option value :=
  if String.eqb s "1809-02-12T09:18:00Z"
  then Some (VStruct [VInt 0; VInt 57058593480; VPtr None])
  else if String.eqb s "1732-02-17T01:32:00Z"
  then Some (VStruct [VInt 0; VInt 54629083920; VPtr None])
  else None.

Definition example_DecodeString (s : string) : option string :=
  if String.eqb s "aGk=" then Some "hi" else None.

Definition example_lib : Library :=
  mkLibrary example_Atoi example_ParseFloat example_Time example_Parse
    example_DecodeString.

(** The fields of [struct { A string; B string `plist:"b"`; C string
    `plist:"b"` }] and a variable of that type, for the closed examples. *)
Definition example_fields : list StructField :=
  [mkStructField "A" EmptyString t_string [] false;
   mkStructField "B" EmptyString t_string [("plist", "b")] false;
   mkStructField "C" EmptyString t_string [("plist", "b")] false].

Definition example_struct : Value :=
  MkValue (TStruct "T" example_fields) (mkFlag true false false)
    (VStruct [VString EmptyString; VString EmptyString; VString EmptyString]).

(** ** The documents and types of the package's tests *)

(** The double quote. *)
Definition quote : string := String "034" EmptyString.

Definition thePlist : string :=
  "<plist version=" ++ quote ++ "1.0" ++ quote ++ ">
    <dict>
        <key>BucketUUID</key>
        <string>C218A47D-DAFB-4476-9C67-597E556D7D8A</string>
        <key>BucketName</key>
        <string>rsc</string>
        <key>ComputerUUID</key>
        <string>E7859547-BB9C-41C0-871E-858A0526BAE7</string>
        <key>LocalPath</key>
        <string>/Users/rsc</string>
        <key>LocalMountPoint</key>
        <string>/Users</string>
        <key>IgnoredRelativePaths</key>
        <array>
            <string>/.Trash</string>
            <string>/go/pkg</string>
            <string>/go1/pkg</string>
            <string>/Library/Caches</string>
        </array>
        <key>Excludes</key>
        <dict>
            <key>excludes</key>
            <array>
                <dict>
                    <key>type</key>
                    <integer>2</integer>
                    <key>text</key>
                    <string>.unison.</string>
                </dict>
            </array>
        </dict>
    </dict>
</plist>
".

Definition moreTypesPlist : string :=
  "<?xml version=" ++ quote ++ "1.0" ++ quote ++ " encoding=" ++ quote
  ++ "UTF-8" ++ quote ++ "?>
<!DOCTYPE plist SYSTEM " ++ quote
  ++ "file://localhost/System/Library/DTDs/PropertyList.dtd" ++ quote ++ ">
<plist version=" ++ quote ++ "1.0" ++ quote ++ ">
<dict>
    <key>Lincoln</key>
    <dict>
        <key>DOB</key>
        <date>1809-02-12T09:18:00Z</date>
        <key>Name</key>
        <string>Abraham Lincoln</string>
        <key>Scores</key>
        <array>
            <integer>8</integer>
            <real>4.9000000953674316</real>
            <integer>9</integer>
        </array>
        <key>Assassinated</key>
        <true/>
    </dict>
    <key>Washington</key>
    <dict>
        <key>DOB</key>
        <date>1732-02-17T01:32:00Z</date>
        <key>Name</key>
        <string>George Washington</string>
        <key>Scores</key>
        <array>
            <integer>6</integer>
            <real>4.5999999046325684</real>
            <integer>6</integer>
        </array>
        <key>Assassinated</key>
        <false/>
    </dict>
</dict>
</plist>
".

(** An exported field without a tag, and one with a [plist] tag. *)
Definition field (name : string) (t : rtype) : StructField :=
  mkStructField name EmptyString t [] false.
Definition tagged (name tag : string) (t : rtype) : StructField :=
  mkStructField name EmptyString t [("plist", tag)] false.

Definition Exclude2 : rtype :=
  TStruct "plist.Exclude2" [tagged "Type" "type" t_int;
                            tagged "Text" "text" t_string].
Definition Exclude1 : rtype :=
  TStruct "plist.Exclude1" [tagged "Excludes" "excludes" (TSlice Exclude2)].
Definition MyStruct : rtype :=
  TStruct "plist.MyStruct"
    [field "BucketUUID" t_string; field "BucketName" t_string;
     field "ComputerUUID" t_string; field "LocalPath" t_string;
     field "LocalMountPoint" t_string;
     field "IgnoredRelativePaths" (TSlice t_string);
     field "Excludes" Exclude1].
Definition President : rtype :=
  TStruct "plist.President"
    [field "DOB" example_Time; field "Name" t_string;
     field "Assassinated" t_bool; field "Scores" (TSlice TInterface)].
Definition PresTest : rtype :=
  TStruct "plist.PresTest" [field "Lincoln" President;
                            field "Washington" President].

(** [reflect.New(t).Interface()]: a pointer to a new variable of type
    [t], as [TestUnmarshal] passes to [Unmarshal]. *)
Definition New (t : rtype) : option (rtype * value) :=
  Some (TPtr t, VPtr (Some (Zero t))).

(** The destination after a call, as a pointer to [x]. *)
Definition pointer_to (t : rtype) (x : value) : Value :=
  MkValue (TPtr t) (mkFlag false false false) (VPtr (Some x)).

(** ** Notions the properties are stated with *)

(** A span that contains a ['<'] with no ['>'] after it. *)
Definition unclosed_open (data : string) : Prop :=
  exists pre post,
    data = pre ++ String "<" post /\ occurs ">" post = false.

(** A declaration or doctype token, as [Unmarshal] recognises them. *)
Definition is_declaration (tag : string) : bool :=
  HasPrefix tag "<?xml" || HasPrefix tag "<!DOCTYPE".

(** [first_significant data tag rest]: [tag] is the first token of [data]
    that is no declaration or doctype token, and [rest] follows it; [tag]
    is nil when [data] has no such token. *)
Inductive first_significant : string -> string -> string -> Prop :=
| fs_here (data skip tag rest : string) :
    next data = (skip, tag, rest) -> is_declaration tag = false ->
    first_significant data tag rest
| fs_skip (data skip decl data' tag rest : string) :
    next data = (skip, decl, data') -> is_declaration decl = true ->
    first_significant data' tag rest ->
    first_significant data tag rest.

(** What [unmarshalValue] makes of the outcome of its [switch] when the
    destination was a pointer: the pointer with its new target. *)
Definition finish (ov : option (Value * Value)) (r : result) : result :=
  match ov with
  | None => r
  | Some (v1, _) => (fst r, store_elem v1 (snd r))
  end.

(** The destination the [switch] of [unmarshalValue] works on. *)
Definition target (v : Value) (ov : option (Value * Value)) : Value :=
  match ov with
  | None => v
  | Some (_, e) => e
  end.

(** Field [i] is the first field, in declaration order, that [name]
    selects. *)
Definition first_match (fs : list StructField) (name : string) (i : nat)
  : Prop :=
  (exists f, nth_error fs i = Some f /\ selects f name = true)
  /\ forall j g, (j < i)%nat -> nth_error fs j = Some g ->
                 selects g name = false.


(** A scalar entry of an array: its kind and the text of its body. *)
Inductive entry : Type :=
| EString (body : string)
| EInteger (body : string)
| EReal (body : string)
| EDate (body : string)
| EData (body : string)
| ETrue
| EFalse.

Definition entry_text (e : entry) : string :=
  match e with
  | EString b => "<string>" ++ b ++ "</string>"
  | EInteger b => "<integer>" ++ b ++ "</integer>"
  | EReal b => "<real>" ++ b ++ "</real>"
  | EDate b => "<date>" ++ b ++ "</date>"
  | EData b => "<data>" ++ b ++ "</data>"
  | ETrue => "<true/>"
  | EFalse => "<false/>"
  end.

Definition entry_body (e : entry) : string :=
  match e with
  | EString b | EInteger b | EReal b | EDate b | EData b => b
  | ETrue | EFalse => EmptyString
  end.

(** The concrete type and value an entry stands for, when its body
    converts: an integer entry an [int], a real entry a [float64], ... *)
Definition entry_value (lib : Library) (e : entry) : option (rtype * value) :=
  match e with
  | EString b => Some (t_string, VString b)
  | EInteger b => option_map (fun i => (t_int, VInt i)) (strconv_Atoi lib b)
  | EReal b =>
      option_map (fun f => (t_float64, VFloat f)) (strconv_ParseFloat lib b 64)
  | EDate b => option_map (fun x => (time_Time lib, x)) (time_Parse lib b)
  | EData b =>
      option_map (fun d => (t_bytes, bytes_value d)) (base64_DecodeString lib b)
  | ETrue => Some (t_bool, VBool true)
  | EFalse => Some (t_bool, VBool false)
  end.

(** The text of the entries of an array, each after some text without
    ['<'] (white space). *)
Fixpoint entries_text (es : list (string * entry)) : string :=
  match es with
  | [] => EmptyString
  | (pad, e) :: es' => pad ++ entry_text e ++ entries_text es'
  end.

(** A well-formed entry: no ['<'] in the text before it nor in its body,
    and a body that converts. *)
Definition entry_ok (lib : Library) (pe : string * entry) : bool :=
  negb (occurs "<" (fst pe)) && negb (occurs "<" (entry_body (snd pe)))
  && match entry_value lib (snd pe) with Some _ => true | None => false end.

(** Tokens as [skipValue] tells them apart: a closing token has ['/'] as
    its second byte, any other token opens a level.  Each token comes with
    the text before it. *)
Inductive tok : Type :=
| Open (name : string)
| Close (name : string).

Definition tok_text (pt : string * tok) : string :=
  fst pt ++ match snd pt with
            | Open n => "<" ++ n ++ ">"
            | Close n => "</" ++ n ++ ">"
            end.

Fixpoint toks_text (ts : list (string * tok)) : string :=
  match ts with
  | [] => EmptyString
  | pt :: ts' => tok_text pt ++ toks_text ts'
  end.

(** The text before a token has no ['<'], its name has no ['>'], and the
    name of an opening token does not begin with ['/'] (so it is none of
    the self-closing tokens' business: those end in ['/']). *)
Definition tok_ok (pt : string * tok) : bool :=
  negb (occurs "<" (fst pt))
  && match snd pt with
     | Open n =>
         negb (occurs ">" n)
         && negb (Ascii.eqb (byte_at ("<" ++ n ++ ">") 1) "/")
     | Close n => negb (occurs ">" n)
     end.

(** Properly nested tokens: every opening token has its closing token. *)
Inductive nested : list (string * tok) -> Prop :=
| nested_nil : nested []
| nested_cons (p n : string) (ts : list (string * tok)) (p' n' : string)
    (ts' : list (string * tok)) :
    nested ts -> nested ts' ->
    nested ((p, Open n) :: ts ++ (p', Close n') :: ts')%list.

(** The entries of a mapping: for each, the text before the key, the key,
    and the tokens of the value. *)
Fixpoint dict_text (es : list (string * string * list (string * tok)))
  : string :=
  match es with
  | [] => EmptyString
  | (p, key, ts) :: es' =>
      p ++ "<key>" ++ key ++ "</key>" ++ toks_text ts ++ dict_text es'
  end.

(** A well-formed entry whose value has no self-closing token: one opening
    token, properly nested tokens, one closing token. *)
Definition dict_entry_ok (e : string * string * list (string * tok)) : Prop :=
  let '(p, key, ts) := e in
  occurs "<" p = false /\ occurs "<" key = false
  /\ forallb tok_ok ts = true
  /\ exists p1 n1 inner p2 n2,
       ts = ((p1, Open n1) :: inner ++ [(p2, Close n2)])%list /\ nested inner.

(** ** Notions of the further properties *)

(** Whether [b] holds the two bytes [/>], as the self-closing tokens
    [<true/>] and [<false/>] do. *)
Fixpoint has_self_closing (b : string) : bool :=
  match b with
  | EmptyString => false
  | String a b' =>
      (Ascii.eqb a "/"
       && match b' with
          | String c _ => Ascii.eqb c ">"
          | EmptyString => false
          end)
      || has_self_closing b'
  end.

(** [reaches data rest c c']: started at [data] with the nesting counter at
    [c], the loop of [skipValue] gets to [rest] with the counter at [c']
    without returning. *)
Definition reaches (data rest : string) (c c' : nat) : Prop :=
  exists k, forall fuel,
    skipLoop (k + fuel) c data = skipLoop fuel c' rest.

(** [ends data rest c]: started at [data] with the counter at [c], the
    loop of [skipValue] returns [rest]. *)
Definition ends (data rest : string) (c : nat) : Prop :=
  exists k, forall fuel, skipLoop (k + fuel) c data = Ok rest.



(** [entry_value] with the bit size that [unmarshalValue] picks for the
    destination of a real. *)
Definition entry_value_at (lib : Library) (bits : Z) (e : entry)
  : option (rtype * value) :=
  match e with
  | EReal b =>
      option_map (fun f => (t_float64, VFloat f))
        (strconv_ParseFloat lib b bits)
  | _ => entry_value lib e
  end.

(** The bit size [unmarshalValue] asks [strconv.ParseFloat] for. *)
Definition bitSize (v : Value) : Z :=
  if Kind_eqb (Value_Kind v) (Basic Float32) then 32 else 64.

(** The error of an entry whose body does not convert. *)
Definition entry_error (e : entry) : string :=
  match e with
  | EInteger b => "non-integer in <integer> tag: " ++ b
  | EReal b => "non-float in <real> tag: " ++ b
  | EDate b => "non-date in <date> tag: " ++ b
  | EData b => "non-base64 in <data> tag: " ++ b
  | EString _ | ETrue | EFalse => EmptyString
  end.

(** What [reflect.Set] leaves in a variable of type [t] for the entry [e]:
    the value of the entry when it has the type [t], the value with its
    concrete type when [t] is the empty interface. *)
Definition entry_stored (lib : Library) (t : rtype) (e : entry)
  : option value :=
  match entry_value lib e with
  | Some (xt, y) => assignTo xt y t
  | None => None
  end.

(** An entry and the text before it, written without a stray ['<']. *)
Definition entry_wf (pe : string * entry) : bool :=
  negb (occurs "<" (fst pe)) && negb (occurs "<" (entry_body (snd pe))).

(** The entries of a mapping of scalars: for each, the text before the
    key, the key, and the value with the text before it. *)
Fixpoint pairs_text (kes : list (string * string * (string * entry)))
  : string :=
  match kes with
  | [] => EmptyString
  | (p, key, (q, e)) :: kes' =>
      p ++ "<key>" ++ key ++ "</key>" ++ q ++ entry_text e ++ pairs_text kes'
  end.

(** The field values [xs] of a struct with the fields [fs] after one
    well-formed entry of a mapping: the value goes to the first field the
    key selects, which must be exported, no pointer, and of the type of
    the value or an empty interface; an entry with a body whose key
    selects no field changes nothing.  [None] for any other entry. *)
Definition bind (lib : Library) (fs : list StructField) (xs : list value)
    (ke : string * string * (string * entry)) : option (list value) :=
  let '(p, key, (q, e)) := ke in
  if negb (negb (occurs "<" p) && negb (occurs "<" key) && entry_wf (q, e))
  then None
  else
    match fieldIndex fs key 0 with
    | Some i =>
        match nth_error fs i with
        | Some f =>
            if String.eqb (PkgPath f) EmptyString
               && negb (Kind_eqb (Type_Kind (Type_ f)) Ptr)
            then option_map (list_set xs i) (entry_stored lib (Type_ f) e)
            else None
        | None => None
        end
    | None =>
        match e with
        | ETrue | EFalse => None
        | _ => Some xs
        end
    end.

Fixpoint binds (lib : Library) (fs : list StructField) (xs : list value)
    (kes : list (string * string * (string * entry))) : option (list value) :=
  match kes with
  | [] => Some xs
  | ke :: kes' =>
      match bind lib fs xs ke with
      | Some xs' => binds lib fs xs' kes'
      | None => None
      end
  end.

(** [rest] is what is left of [data] after some bytes at its front. *)
Definition suffix (rest data : string) : Prop :=
  exists consumed, data = consumed ++ rest.

(** The three ways a span can look to the scanner. *)
Inductive shape (data : string) : Type :=
| NoOpen : occurs "<" data = false -> shape data
| Unclosed (pre post : string) :
    data = pre ++ String "<" post ->
    occurs "<" pre = false -> occurs ">" post = false -> shape data
| Token (pre mid rest : string) :
    data = pre ++ String "<" (mid ++ String ">" rest) ->
    occurs "<" pre = false -> occurs ">" mid = false -> shape data.

(** [scan H] rewrites with the scanner fact [H : next d = r] at a call
    [next d'] of the goal whose span [d'] is [d] up to computation. *)
Ltac scan H :=
  lazymatch type of H with
  | next ?d = _ =>
      match goal with
      | |- context [next ?d'] => change (next d') with (next d); rewrite H
      end
  end.

(** * Properties *)

(** ** Byte slices and the scanner *)

Lemma append_assoc (a b c : string) : (a ++ b) ++ c = a ++ b ++ c.
Proof. induction a as [|x a IH]; simpl; [reflexivity | now rewrite IH]. Qed.

Lemma length_append (a b : string) :
  String.length (a ++ b) = (String.length a + String.length b)%nat.
Proof. induction a as [|x a IH]; simpl; [reflexivity | now rewrite IH]. Qed.

Lemma take_append (a b : string) : take (String.length a) (a ++ b) = a.
Proof. induction a as [|x a IH]; simpl; [now destruct b | now rewrite IH]. Qed.

Lemma drop_append (a b : string) : drop (String.length a) (a ++ b) = b.
Proof. induction a as [|x a IH]; simpl; auto. Qed.

(** [IndexByte] answers [-1] exactly when the byte does not occur. *)
Lemma IndexByte_absent (b : string) (c : ascii) :
  occurs c b = false -> IndexByte b c = -1.
Proof.
  induction b as [|a b IH]; simpl; [reflexivity|].
  destruct (Ascii.eqb a c); simpl; [discriminate|].
  intros H. now rewrite (IH H).
Qed.

(** [IndexByte] answers the length of the text before the first occurrence. *)
Lemma IndexByte_first (pre post : string) (c : ascii) :
  occurs c pre = false ->
  IndexByte (pre ++ String c post) c = len pre.
Proof.
  unfold len. induction pre as [|a pre IH]; simpl.
  - now rewrite Ascii.eqb_refl.
  - destruct (Ascii.eqb a c); simpl; [discriminate|].
    intros H. rewrite (IH H).
    destruct (Z.of_nat (String.length pre) <? 0) eqn:E.
    + apply Z.ltb_lt in E. lia.
    + lia.
Qed.

(** Every string splits at the first occurrence of a byte, if there is one. *)
Lemma occurs_split (c : ascii) (b : string) :
  occurs c b = true ->
  exists pre post, b = pre ++ String c post /\ occurs c pre = false.
Proof.
  induction b as [|a b IH]; simpl; [discriminate|].
  destruct (Ascii.eqb a c) eqn:E; simpl.
  - apply Ascii.eqb_eq in E. subst a. intros _.
    now exists EmptyString, b.
  - intros H. destruct (IH H) as (pre & post & -> & Hpre).
    exists (String a pre), post. simpl. now rewrite E.
Qed.

Lemma shape_of (data : string) : inhabited (shape data).
Proof.
  destruct (occurs "<" data) eqn:E.
  - destruct (occurs_split _ _ E) as (pre & post & -> & Hpre).
    destruct (occurs ">" post) eqn:F.
    + destruct (occurs_split _ _ F) as (mid & rest & -> & Hmid).
      constructor. now apply (Token _ pre mid rest).
    + constructor. now apply (Unclosed _ pre post).
  - constructor. now apply NoOpen.
Qed.

(** A span with no ['<'] holds no token. *)
Lemma next_no_open (data : string) :
  occurs "<" data = false -> next data = (data, nil, nil).
Proof.
  intros H. unfold next. now rewrite (IndexByte_absent _ _ H).
Qed.

Lemma len_ltb_0 (b : string) : (len b <? 0) = false.
Proof. unfold len. apply Z.ltb_ge. lia. Qed.

Lemma slice_from_len (pre b : string) : slice_from (pre ++ b) (len pre) = b.
Proof. unfold slice_from, len. rewrite Nat2Z.id. apply drop_append. Qed.

(** A span whose first ['<'] is followed by no ['>'] holds no token. *)
Lemma next_unclosed (pre post : string) :
  occurs "<" pre = false -> occurs ">" post = false ->
  next (pre ++ String "<" post) = (pre ++ String "<" post, nil, nil).
Proof.
  intros Hpre Hpost. unfold next.
  rewrite (IndexByte_first _ _ _ Hpre), len_ltb_0, slice_from_len.
  simpl. now rewrite (IndexByte_absent _ _ Hpost).
Qed.

(** The scanner finds the first token. *)
Lemma next_token (pre mid rest : string) :
  occurs "<" pre = false -> occurs ">" mid = false ->
  next (pre ++ String "<" (mid ++ String ">" rest))
  = (pre, String "<" (mid ++ String ">" EmptyString), rest).
Proof.
  intros Hpre Hmid. unfold next.
  rewrite (IndexByte_first _ _ _ Hpre), len_ltb_0, slice_from_len.
  change (IndexByte (String "<" (mid ++ String ">" rest)) ">")
    with (let i := IndexByte (mid ++ String ">" rest) ">" in
          if i <? 0 then -1 else i + 1).
  rewrite (IndexByte_first _ _ _ Hmid). cbv zeta. rewrite len_ltb_0.
  destruct (len mid + 1 <? 0) eqn:E;
    [apply Z.ltb_lt in E; unfold len in E; lia|].
  unfold slice_to, slice, slice_from, len.
  replace (Z.to_nat (Z.of_nat (String.length mid) + 1
                     + Z.of_nat (String.length pre) + 1
                     - Z.of_nat (String.length pre)))
    with (String.length (String "<" (mid ++ String ">" EmptyString))).
  2:{ simpl. rewrite length_append. simpl. lia. }
  replace (Z.to_nat (Z.of_nat (String.length mid) + 1
                     + Z.of_nat (String.length pre) + 1))
    with (String.length (pre ++ String "<" (mid ++ String ">" EmptyString))).
  2:{ rewrite length_append. simpl. rewrite length_append. simpl. lia. }
  rewrite Nat2Z.id, take_append, drop_append.
  replace (String "<" (mid ++ String ">" rest))
    with (String "<" (mid ++ String ">" EmptyString) ++ rest).
  2:{ simpl. now rewrite append_assoc. }
  rewrite take_append.
  replace (pre ++ String "<" (mid ++ String ">" EmptyString) ++ rest)
    with ((pre ++ String "<" (mid ++ String ">" EmptyString)) ++ rest).
  2:{ now rewrite append_assoc. }
  now rewrite drop_append.
Qed.

(** What [next] answers, by cases: no token, or the first token with the
    text before it and the bytes after it. *)
Lemma next_cases (data : string) :
  next data = (data, nil, nil)
  \/ exists pre mid rest,
       data = pre ++ String "<" (mid ++ String ">" rest)
       /\ occurs "<" pre = false /\ occurs ">" mid = false
       /\ next data = (pre, String "<" (mid ++ String ">" EmptyString), rest).
Proof.
  destruct (shape_of data) as [[H | pre post -> Hpre Hpost
                                  | pre mid rest -> Hpre Hmid]].
  - left. now apply next_no_open.
  - left. now apply next_unclosed.
  - right. exists pre, mid, rest. repeat split; trivial.
    now apply next_token.
Qed.

(** A token has at least two bytes, and scanning one consumes them. *)
Lemma next_tag_length (data skip tag rest : string) :
  next data = (skip, tag, rest) ->
  tag = nil
  \/ (2 <= String.length tag
      /\ String.length skip + String.length tag + String.length rest
         = String.length data)%nat.
Proof.
  intros H. destruct (next_cases data) as [E | (pre & mid & r & -> & _ & _ & E)];
    rewrite E in H; inversion H; subst; [now left | right].
  simpl. rewrite !length_append. simpl. rewrite !length_append. simpl. lia.
Qed.

Lemma len_eqb_0 (b : string) : (len b =? 0) = String.eqb b nil.
Proof. now destruct b. Qed.

(** Scanning a token leaves a strictly shorter span. *)
Lemma next_shorter (data skip tag rest : string) :
  next data = (skip, tag, rest) -> String.eqb tag nil = false ->
  (String.length rest + 2 <= String.length data)%nat.
Proof.
  intros H E. destruct (next_tag_length _ _ _ _ H) as [-> | [? ?]];
    [discriminate | lia].
Qed.

(** Bytes appended to a span do not change the token found in it. *)
Lemma next_append (data skip tag rest extra : string) :
  next data = (skip, tag, rest) -> String.eqb tag nil = false ->
  next (data ++ extra) = (skip, tag, rest ++ extra).
Proof.
  intros H E.
  destruct (next_cases data) as [F | (pre & mid & r & -> & Hpre & Hmid & F)];
    rewrite F in H; inversion H; subst; [discriminate|].
  rewrite append_assoc. simpl. rewrite append_assoc. simpl.
  now apply next_token.
Qed.

(** ** The tests of the package *)

(** [TestUnmarshal], first case: [thePlist] into a [MyStruct]. *)
Example TestUnmarshal_MyStruct :
  Unmarshal example_lib thePlist (New MyStruct)
  = (Ok tt,
     pointer_to MyStruct
       (VStruct
          [VString "C218A47D-DAFB-4476-9C67-597E556D7D8A";
           VString "rsc";
           VString "E7859547-BB9C-41C0-871E-858A0526BAE7";
           VString "/Users/rsc";
           VString "/Users";
           VSlice [VString "/.Trash"; VString "/go/pkg"; VString "/go1/pkg";
                   VString "/Library/Caches"];
           VStruct [VSlice [VStruct [VInt 2; VString ".unison."]]]])).
Proof. reflexivity. Qed.

(** Second case: [thePlist] into a [struct {}]. *)
Example TestUnmarshal_empty_struct :
  Unmarshal example_lib thePlist (New (TStruct "struct {}" []))
  = (Ok tt, pointer_to (TStruct "struct {}" []) (VStruct [])).
Proof. reflexivity. Qed.

(** Third case: [moreTypesPlist] into a [PresTest]. *)
Example TestUnmarshal_PresTest :
  Unmarshal example_lib moreTypesPlist (New PresTest)
  = (Ok tt,
     pointer_to PresTest
       (VStruct
          [VStruct
             [VStruct [VInt 0; VInt 57058593480; VPtr None];
              VString "Abraham Lincoln";
              VBool true;
              VSlice [VInterface (Some (t_int, VInt 8));
                      VInterface (Some (t_float64, VFloat 0x40139999A0000000));
                      VInterface (Some (t_int, VInt 9))]];
           VStruct
             [VStruct [VInt 0; VInt 54629083920; VPtr None];
              VString "George Washington";
              VBool false;
              VSlice [VInterface (Some (t_int, VInt 6));
                      VInterface (Some (t_float64, VFloat 0x4012666660000000));
                      VInterface (Some (t_int, VInt 6))]]])).
Proof. reflexivity. Qed.

(** ** The decoder, unfolded *)

(** One call of [unmarshalValue]: scan a token, take the pointer step, run
    the [switch] on the target, and leave the pointer with its target. *)
Lemma unmarshalValue_step (lib : Library) (fuel : nat)
    (data skip tag rest : string) (v : Value) (ov : option (Value * Value)) :
  next data = (skip, tag, rest) -> String.eqb tag nil = false ->
  indirect v = inr ov ->
  unmarshalValue lib (S fuel) data v
  = finish ov (dispatch lib (dictLoop lib fuel) (arrayLoop lib fuel)
                 tag rest (target v ov)).
Proof.
  intros Hn Ht Hi. simpl. rewrite Hn, Ht, Hi.
  destruct ov as [[v1 e1]|]; simpl; [|reflexivity].
  now destruct (dispatch _ _ _ _ _ _).
Qed.

Lemma unmarshalValue_eof (lib : Library) (fuel : nat) (data : string)
    (v : Value) :
  next data = (data, nil, nil) ->
  unmarshalValue lib (S fuel) data v = (Err "unexpected end of data", v).
Proof. intros Hn. simpl. now rewrite Hn. Qed.

(** ** C10: a truncated tag *)

(** C10, as stated, fails: the span [<a><b] contains a ['<'] with no ['>']
    after it (its second one), and the scanner still finds the token
    [<a>] in it. *)
Lemma C10_counterexample :
  unclosed_open "<a><b"
  /\ next "<a><b" = (EmptyString, "<a>", "<b").
Proof.
  split; [|reflexivity].
  exists "<a>", "b". split; reflexivity.
Qed.

(** C10, amended: a span whose FIRST ['<'] has no ['>'] after it is
    reported exhausted exactly like a span [other] with no ['<'] at all:
    the whole span as content, and a nil token.  The callers then report
    their own end-of-input error: [unmarshalValue], [skipValue] and the
    loops of the [<dict>] and [<array>] cases. *)
Theorem C10_truncated_tag_is_exhaustion (pre post other : string)
    (lib : Library) (fuel : nat) (v : Value) :
  occurs "<" pre = false -> occurs ">" post = false ->
  occurs "<" other = false ->
  next (pre ++ String "<" post) = (pre ++ String "<" post, nil, nil)
  /\ next other = (other, nil, nil)
  /\ unmarshalValue lib (S fuel) (pre ++ String "<" post) v
     = (Err "unexpected end of data", v)
  /\ skipValue (pre ++ String "<" post) = Err "unexpected eof"
  /\ dictLoop lib (S fuel) (pre ++ String "<" post) v
     = (Err "eof inside <dict>", v)
  /\ arrayLoop lib (S fuel) (pre ++ String "<" post) v
     = (Err "eof inside <array>", v).
Proof.
  intros Hpre Hpost Hother.
  pose proof (next_unclosed _ _ Hpre Hpost) as Hn.
  repeat split.
  - exact Hn.
  - now apply next_no_open.
  - now apply unmarshalValue_eof.
  - unfold skipValue. simpl. now rewrite Hn.
  - simpl. now rewrite Hn.
  - simpl. now rewrite Hn.
Qed.

Lemma C10_truncated_tag_witness :
  next ("ab" ++ String "<" "key") = ("ab" ++ String "<" "key", nil, nil)
  /\ next "cd" = ("cd", nil, nil)
  /\ unmarshalValue example_lib 1 ("ab" ++ String "<" "key") ZeroValue
     = (Err "unexpected end of data", ZeroValue)
  /\ skipValue ("ab" ++ String "<" "key") = Err "unexpected eof"
  /\ dictLoop example_lib 1 ("ab" ++ String "<" "key") ZeroValue
     = (Err "eof inside <dict>", ZeroValue)
  /\ arrayLoop example_lib 1 ("ab" ++ String "<" "key") ZeroValue
     = (Err "eof inside <array>", ZeroValue).
Proof.
  apply (C10_truncated_tag_is_exhaustion "ab" "key" "cd" example_lib 0
           ZeroValue); reflexivity.
Defined.

(** ** C9: input without the root tag *)

Lemma is_declaration_not_nil (tag : string) :
  is_declaration tag = true -> String.eqb tag nil = false.
Proof. now destruct tag. Qed.

(** The loop of [Unmarshal] stops at the first token that is no
    declaration, whatever fuel it has beyond the length of the input. *)
Lemma rootLoop_first_significant (data tag rest : string) :
  first_significant data tag rest ->
  forall fuel, (String.length data < fuel)%nat ->
  rootLoop fuel data
  = if HasPrefix tag "<plist" then Ok rest else Err "not a plist".
Proof.
  induction 1 as [data skip tag rest Hn Hd
                 | data skip decl data' tag rest Hn Hd Hfs IH];
    intros [|fuel] Hlt; try lia; simpl; rewrite Hn;
    unfold is_declaration in Hd; rewrite Hd.
  - now destruct (HasPrefix tag "<plist").
  - apply IH.
    pose proof (next_shorter _ _ _ _ Hn (is_declaration_not_nil _ Hd)). lia.
Qed.

(** C9: when the first token that is no declaration or doctype token does
    not begin with [<plist] (or there is no such token), [Unmarshal]
    returns the error "not a plist" and leaves the destination as it
    was. *)
Theorem C9_missing_root_is_rejected (lib : Library) (data tag rest : string)
    (v : option (rtype * value)) :
  first_significant data tag rest ->
  HasPrefix tag "<plist" = false ->
  Unmarshal lib data v = (Err "not a plist", ValueOf v).
Proof.
  intros Hfs Hp. unfold Unmarshal.
  rewrite (rootLoop_first_significant _ _ _ Hfs) by lia.
  now rewrite Hp.
Qed.

Lemma C9_missing_root_witness :
  Unmarshal example_lib "<?xml version=1.0?><dict></dict>"
    (Some (TPtr (TStruct "struct {}" []), VPtr (Some (VStruct []))))
  = (Err "not a plist",
     ValueOf (Some (TPtr (TStruct "struct {}" []), VPtr (Some (VStruct []))))).
Proof.
  apply (C9_missing_root_is_rejected example_lib
           "<?xml version=1.0?><dict></dict>" "<dict>" "</dict>").
  - apply (fs_skip _ EmptyString "<?xml version=1.0?>" "<dict></dict>");
      [reflexivity | reflexivity |].
    apply (fs_here _ EmptyString); reflexivity.
  - reflexivity.
Defined.

(** ** C3 and C4: the destination of a mapping and of a sequence *)

(** C3, as stated, fails for a Dynamic destination: a [<dict>] decoded into
    a settable variable of type [interface {}] (what the [<array>] case
    makes for each element of a [[]interface {}]) is refused with the
    type-mismatch error. *)
Lemma C3_counterexample :
  Value_Kind (New_Elem TInterface) = Interface
  /\ unmarshalValue example_lib (enough "<dict></dict>") "<dict></dict>"
       (New_Elem TInterface)
     = (Err "cannot unmarshal <dict> into non-struct interface {}",
        New_Elem TInterface).
Proof. split; reflexivity. Qed.

(** C3, amended: after the pointer step of [unmarshalValue], a [<dict>]
    goes on to the loop over its entries exactly when the destination is a
    struct (Composite); for a destination of any other kind, Dynamic
    included, the call fails with "cannot unmarshal <dict> into non-struct
    T", [T] being the type of the destination, which it leaves as it is. *)
Theorem C3_dict_needs_struct (lib : Library) (fuel : nat)
    (data skip rest : string) (v : Value) (ov : option (Value * Value))
    (t : rtype) (fl : flag) (x : value) :
  next data = (skip, "<dict>", rest) ->
  indirect v = inr ov ->
  target v ov = MkValue t fl x ->
  (Type_Kind t = Struct ->
   unmarshalValue lib (S fuel) data v
   = finish ov (dictLoop lib fuel rest (MkValue t fl x)))
  /\ (Type_Kind t <> Struct ->
      unmarshalValue lib (S fuel) data v
      = finish ov (Err ("cannot unmarshal <dict> into non-struct "
                        ++ Type_String t),
                   MkValue t fl x)).
Proof.
  intros Hn Hi Ht.
  rewrite (unmarshalValue_step lib fuel _ _ _ _ _ _ Hn eq_refl Hi), Ht.
  unfold dispatch. simpl String.eqb. cbv iota. unfold Value_Kind.
  split; intros Hk.
  - now rewrite Hk.
  - destruct t; simpl; try reflexivity. now elim Hk.
Qed.

Lemma C3_dict_needs_struct_witness :
  (Type_Kind TInterface = Struct ->
   unmarshalValue example_lib 3 "<dict></dict>"
     (MkValue (TPtr TInterface) (mkFlag true false false) (VPtr None))
   = finish
       (Some (MkValue (TPtr TInterface) (mkFlag true false false)
                (VPtr (Some (VInterface None))),
              New_Elem TInterface))
       (dictLoop example_lib 2 "</dict>" (New_Elem TInterface)))
  /\ (Type_Kind TInterface <> Struct ->
      unmarshalValue example_lib 3 "<dict></dict>"
        (MkValue (TPtr TInterface) (mkFlag true false false) (VPtr None))
      = finish
          (Some (MkValue (TPtr TInterface) (mkFlag true false false)
                   (VPtr (Some (VInterface None))),
                 New_Elem TInterface))
          (Err ("cannot unmarshal <dict> into non-struct "
                ++ Type_String TInterface),
           New_Elem TInterface)).
Proof.
  apply (C3_dict_needs_struct example_lib 2 "<dict></dict>" EmptyString
           "</dict>"); reflexivity.
Defined.

(** C4, as stated, fails for a Dynamic destination: an [<array>] decoded
    into a settable variable of type [interface {}] is refused with the
    type-mismatch error. *)
Lemma C4_counterexample :
  Value_Kind (New_Elem TInterface) = Interface
  /\ unmarshalValue example_lib (enough "<array></array>") "<array></array>"
       (New_Elem TInterface)
     = (Err "cannot unmarshal <array> into non-slice interface {}",
        New_Elem TInterface).
Proof. split; reflexivity. Qed.

(** C4, amended: after the pointer step of [unmarshalValue], an [<array>]
    goes on to the loop over its elements exactly when the destination is
    a slice (Sequence); for a destination of any other kind, Dynamic
    included, the call fails with "cannot unmarshal <array> into non-slice
    T", and leaves the destination as it is. *)
Theorem C4_array_needs_slice (lib : Library) (fuel : nat)
    (data skip rest : string) (v : Value) (ov : option (Value * Value))
    (t : rtype) (fl : flag) (x : value) :
  next data = (skip, "<array>", rest) ->
  indirect v = inr ov ->
  target v ov = MkValue t fl x ->
  (Type_Kind t = Slice ->
   unmarshalValue lib (S fuel) data v
   = finish ov (arrayLoop lib fuel rest (MkValue t fl x)))
  /\ (Type_Kind t <> Slice ->
      unmarshalValue lib (S fuel) data v
      = finish ov (Err ("cannot unmarshal <array> into non-slice "
                        ++ Type_String t),
                   MkValue t fl x)).
Proof.
  intros Hn Hi Ht.
  rewrite (unmarshalValue_step lib fuel _ _ _ _ _ _ Hn eq_refl Hi), Ht.
  unfold dispatch. simpl String.eqb. cbv iota. unfold Value_Kind.
  split; intros Hk.
  - now rewrite Hk.
  - destruct t; simpl; try reflexivity. now elim Hk.
Qed.

Lemma C4_array_needs_slice_witness :
  (Type_Kind t_string = Slice ->
   unmarshalValue example_lib 3 " <array></array>" (New_Elem t_string)
   = finish None (arrayLoop example_lib 2 "</array>" (New_Elem t_string)))
  /\ (Type_Kind t_string <> Slice ->
      unmarshalValue example_lib 3 " <array></array>" (New_Elem t_string)
      = finish None
          (Err ("cannot unmarshal <array> into non-slice "
                ++ Type_String t_string),
           New_Elem t_string)).
Proof.
  apply (C4_array_needs_slice example_lib 2 " <array></array>" " "
           "</array>"); reflexivity.
Defined.

(** ** C1 and C2: skipping a boolean *)

(** A token opens a new level for [skipValue] unless its second byte is
    ['/']: the boolean tokens [<true/>] and [<false/>] raise the nesting
    counter like any opening tag. *)
Lemma skipLoop_boolean (fuel n : nat) (rest : string) :
  skipLoop (S fuel) n ("<true/>" ++ rest) = skipLoop fuel (S n) rest
  /\ skipLoop (S fuel) n ("<false/>" ++ rest) = skipLoop fuel (S n) rest.
Proof.
  split.
  - pose proof (next_token EmptyString "true/" rest eq_refl eq_refl) as Hn.
    change (next ("<true/>" ++ rest) = (EmptyString, "<true/>", rest)) in Hn.
    cbn [skipLoop]. now rewrite Hn.
  - pose proof (next_token EmptyString "false/" rest eq_refl eq_refl) as Hn.
    change (next ("<false/>" ++ rest) = (EmptyString, "<false/>", rest)) in Hn.
    cbn [skipLoop]. now rewrite Hn.
Qed.

(** A skip that returns a rest has consumed at least one token. *)
Lemma skipLoop_shorter (fuel n : nat) (data rest : string) :
  skipLoop fuel n data = Ok rest ->
  (String.length rest + 2 <= String.length data)%nat.
Proof.
  revert n data. induction fuel as [|fuel IH]; intros n data H;
    [discriminate|].
  cbn [skipLoop] in H. destruct (next data) as [[skip tag] r] eqn:Hn.
  destruct (len tag =? 0) eqn:Hl; [discriminate|].
  rewrite len_eqb_0 in Hl. pose proof (next_shorter _ _ _ _ Hn Hl) as Hs.
  destruct (Ascii.eqb (byte_at tag 1) "/").
  - destruct n as [|[|n]]; [discriminate | inversion H; subst; lia |].
    apply IH in H. lia.
  - apply IH in H. lia.
Qed.

(** C1 (the code departs from it): on no input does [skipValue] stop right
    after a boolean token; the rest it returns, if any, lies at least one
    more token further on.  So in the entry [<key>a</key><true/>] of a
    mapping decoded into [struct { B string `plist:"b"` }], where the key
    [a] selects no field and its value is skipped, the skip runs on with
    the counter at 1 through the next entry and the [</dict>] that closes
    the mapping: the entry [b] is never decoded and the document is
    refused. *)
Theorem C1_skip_of_boolean_overruns :
  (forall rest, skipValue ("<true/>" ++ rest) <> Ok rest
                /\ skipValue ("<false/>" ++ rest) <> Ok rest)
  /\ skipValue "<true/><key>b</key><string>x</string></dict></plist>"
     = Ok "</plist>"
  /\ Unmarshal example_lib
       "<plist><dict><key>a</key><true/><key>b</key><string>x</string></dict></plist>"
       (New (TStruct "T" [tagged "B" "b" t_string]))
     = (Err "unexpected tag </plist> inside <dict>",
        pointer_to (TStruct "T" [tagged "B" "b" t_string])
          (VStruct [VString EmptyString])).
Proof.
  split; [|split; reflexivity].
  intros rest. split; intros H; unfold skipValue in H.
  - rewrite (proj1 (skipLoop_boolean _ 0 rest)) in H.
    apply skipLoop_shorter in H. lia.
  - rewrite (proj2 (skipLoop_boolean _ 0 rest)) in H.
    apply skipLoop_shorter in H. lia.
Qed.

(** C2 (the code departs from it): the well-formed mapping document
    [<plist><dict><key>a</key><true/></dict></plist>] decoded into a
    pointer to [struct {}] is refused: skipping [<true/>] also consumes the
    [</dict>] that closes the mapping.  So is [moreTypesPlist], the second
    document of the package's tests, whose mappings hold [<true/>] and
    [<false/>]: skipping its first entry consumes the whole document. *)
Theorem C2_empty_struct_rejects_boolean :
  Unmarshal example_lib "<plist><dict><key>a</key><true/></dict></plist>"
    (New (TStruct "struct {}" []))
  = (Err "unexpected tag </plist> inside <dict>",
     pointer_to (TStruct "struct {}" []) (VStruct []))
  /\ Unmarshal example_lib moreTypesPlist (New (TStruct "struct {}" []))
     = (Err "eof inside <dict>",
        pointer_to (TStruct "struct {}" []) (VStruct [])).
Proof. split; reflexivity. Qed.

(** ** C8: reals *)

(** The two tokens of a scalar element around a body without ['<']. *)
Lemma next_body (body name rest : string) :
  occurs "<" body = false -> occurs ">" name = false ->
  next (body ++ "</" ++ name ++ ">" ++ rest)
  = (body, "</" ++ name ++ ">", rest).
Proof.
  intros Hb Hn.
  pose proof (next_token body (String "/" name) rest Hb) as H.
  simpl in H |- *. apply H. exact Hn.
Qed.

(** A [<real>] whose body parses, decoded into a settable destination of
    kind [Float32]: the body is parsed at 32 bits, and setting the
    destination to the [float64] that [strconv.ParseFloat] returns
    panics. *)
Lemma real_into_float32 (lib : Library) (fuel : nat) (body rest name : string)
    (fl : flag) (x : value) (f : Z) :
  occurs "<" body = false ->
  strconv_ParseFloat lib body 32 = Some f ->
  flagAddr fl = true -> flagRO fl = false ->
  unmarshalValue lib (S fuel) ("<real>" ++ body ++ "</real>" ++ rest)
    (MkValue (TBasic Float32 name) fl x)
  = (Panics (PanicNotAssignable "float64" name),
     MkValue (TBasic Float32 name) fl x).
Proof.
  intros Hb Hp Ha Hro.
  assert (Hn : next ("<real>" ++ body ++ "</real>" ++ rest)
               = (EmptyString, "<real>", body ++ "</real>" ++ rest))
    by exact (next_token EmptyString "real" _ eq_refl eq_refl).
  rewrite (unmarshalValue_step lib fuel _ _ _ _
             (MkValue (TBasic Float32 name) fl x) None Hn eq_refl eq_refl).
  unfold finish, target, dispatch, scalar. simpl String.eqb. cbv iota.
  scan (next_body body "real" rest Hb eq_refl).
  simpl. rewrite Hp. simpl. now rewrite Hro, Ha.
Qed.

Lemma real_into_float32_witness :
  unmarshalValue example_lib 2 ("<real>" ++ "1.5" ++ "</real>" ++ "</dict>")
    (MkValue (TBasic Float32 "plist.Ratio") (mkFlag true false false)
       (VFloat 0))
  = (Panics (PanicNotAssignable "float64" "plist.Ratio"),
     MkValue (TBasic Float32 "plist.Ratio") (mkFlag true false false)
       (VFloat 0)).
Proof.
  apply (real_into_float32 example_lib 1 "1.5" "</dict>" "plist.Ratio"
           (mkFlag true false false) (VFloat 0) 0x3FF8000000000000);
    reflexivity.
Defined.

(** A [<real>] whose body parses at 64 bits, decoded into a settable
    [float64]: the parsed number is stored. *)
Lemma real_into_float64 (lib : Library) (fuel : nat) (body rest : string)
    (fl : flag) (x : value) (f : Z) :
  occurs "<" body = false ->
  strconv_ParseFloat lib body 64 = Some f ->
  flagAddr fl = true -> flagRO fl = false ->
  unmarshalValue lib (S fuel) ("<real>" ++ body ++ "</real>" ++ rest)
    (MkValue t_float64 fl x)
  = (Ok rest, MkValue t_float64 fl (VFloat f)).
Proof.
  intros Hb Hp Ha Hro.
  assert (Hn : next ("<real>" ++ body ++ "</real>" ++ rest)
               = (EmptyString, "<real>", body ++ "</real>" ++ rest))
    by exact (next_token EmptyString "real" _ eq_refl eq_refl).
  rewrite (unmarshalValue_step lib fuel _ _ _ _
             (MkValue t_float64 fl x) None Hn eq_refl eq_refl).
  unfold finish, target, dispatch, scalar. simpl String.eqb. cbv iota.
  scan (next_body body "real" rest Hb eq_refl).
  simpl. rewrite Hp. simpl. now rewrite Hro, Ha.
Qed.

Lemma real_into_float64_witness :
  unmarshalValue example_lib 2
    ("<real>" ++ "4.9000000953674316" ++ "</real>" ++ "</dict>")
    (MkValue t_float64 (mkFlag true false false) (VFloat 0))
  = (Ok "</dict>",
     MkValue t_float64 (mkFlag true false false) (VFloat 0x40139999A0000000)).
Proof.
  apply (real_into_float64 example_lib 1 "4.9000000953674316" "</dict>"
           (mkFlag true false false) (VFloat 0) 0x40139999A0000000);
    reflexivity.
Defined.



(** C8 (the code departs from it): [<real>1.5</real>] decoded into a
    [float32].  The body is parsed at 32 bits and parses, but
    [v.Set(reflect.ValueOf(f))] is given a [float64], which is not
    assignable to a [float32]: the call panics and nothing is stored. *)
Theorem C8_real_into_float32_panics :
  strconv_ParseFloat example_lib "1.5" 32 = Some 0x3FF8000000000000
  /\ unmarshalValue example_lib (enough "<real>1.5</real>") "<real>1.5</real>"
       (New_Elem t_float32)
     = (Panics (PanicNotAssignable "float64" "float32"), New_Elem t_float32)
  /\ Unmarshal example_lib "<plist><real>1.5</real></plist>"
       (Some (TPtr t_float32, VPtr (Some (VFloat 0))))
     = (Panics (PanicNotAssignable "float64" "float32"),
        MkValue (TPtr t_float32) (mkFlag false false false)
          (VPtr (Some (VFloat 0)))).
Proof. repeat split. Qed.

(** ** C6: the field a key selects *)








(** One entry of a mapping, after its key was scanned. *)
Lemma dictLoop_key (lib : Library) (fuel : nat)
    (data skip name d1 d2 : string) (v : Value) :
  next data = (skip, "<key>", d1) ->
  next d1 = (name, "</key>", d2) ->
  dictLoop lib (S fuel) data v
  = match v with
    | ZeroValue => (Panics PanicZeroValue, v)
    | MkValue t _ _ =>
        match fieldIndex (Type_Fields t) name 0 with
        | Some i =>
            match Value_Field v i with
            | inl p => (Panics p, v)
            | inr f =>
                let '(o, f') := unmarshalValue lib fuel d2 f in
                match o with
                | Ok d3 => dictLoop lib fuel d3 (store_field v i f')
                | _ => (o, store_field v i f')
                end
            end
        | None =>
            match skipValue d2 with
            | Ok d3 => dictLoop lib fuel d3 v
            | Err msg => (Err msg, v)
            | Panics p => (Panics p, v)
            | OutOfFuel => (OutOfFuel, v)
            end
        end
    end.
Proof.
  intros H1 H2. cbn [dictLoop]. rewrite H1. cbn match. simpl String.eqb.
  cbn match. rewrite H2. reflexivity.
Qed.



(** The entry [b] of the example goes to field [B], the first of the two
    fields tagged [b], and to no other. *)
Example key_b_goes_to_B :
  first_match example_fields "b" 1
  /\ dictLoop example_lib 4 "<key>b</key><string>x</string></dict>"
       example_struct
     = (Ok EmptyString,
        MkValue (TStruct "T" example_fields) (mkFlag true false false)
          (VStruct [VString EmptyString; VString "x"; VString EmptyString])).
Proof.
  split; [|reflexivity]. split.
  - now exists (mkStructField "B" EmptyString t_string [("plist", "b")] false).
  - intros [|[|j]] g Hj; try lia. now intros [= <-].
Qed.

(** C6 (the code departs from it): the entry [<key></key>] has the empty
    key.  The field [A] of [struct { A string }] has another name and
    carries no [plist] tag, so no field has the key as its name or as its
    override name, and the value should be skipped.  But [f.Tag.Get]
    answers the empty string for a tag that is absent, the test
    [f.Tag.Get("plist") == name] holds, and the value is decoded into
    [A]; into a [struct { A int }] the same document panics. *)
Theorem C6_empty_key_selects_untagged_field :
  Name (field "A" t_string) <> EmptyString
  /\ Tag (field "A" t_string) = []
  /\ selects (field "A" t_string) EmptyString = true
  /\ Unmarshal example_lib
       "<plist><dict><key></key><string>x</string></dict></plist>"
       (New (TStruct "T" [field "A" t_string]))
     = (Ok tt, pointer_to (TStruct "T" [field "A" t_string])
                 (VStruct [VString "x"]))
  /\ Unmarshal example_lib
       "<plist><dict><key></key><string>x</string></dict></plist>"
       (New (TStruct "T" [field "A" t_int]))
     = (Panics (PanicNotAssignable "string" "int"),
        pointer_to (TStruct "T" [field "A" t_int]) (VStruct [VInt 0])).
Proof. repeat split; discriminate. Qed.

(** ** C7: a sequence of Dynamic elements *)

(** One well-formed scalar entry, as the loop of the [<array>] case sees
    it: the token it peeks at, and the decoding of the entry into a fresh
    element of type [interface {}]. *)
Lemma entry_step (lib : Library) (fuel : nat) (pad : string) (e : entry)
    (rest : string) :
  Type_Kind (time_Time lib) = Struct ->
  entry_ok lib (pad, e) = true ->
  exists tag after,
    next (pad ++ entry_text e ++ rest) = (pad, tag, after)
    /\ (len tag =? 0) = false
    /\ String.eqb tag "</array>" = false
    /\ unmarshalValue lib (S fuel) (pad ++ entry_text e ++ rest)
         (New_Elem TInterface)
       = (Ok rest,
          MkValue TInterface (mkFlag true false false)
            (VInterface (entry_value lib e))).
Proof.
  intros Htime Hok. unfold entry_ok in Hok. simpl fst in Hok. simpl snd in Hok.
  apply andb_prop in Hok. destruct Hok as [Hok Hval].
  apply andb_prop in Hok. destruct Hok as [Hpad Hbody].
  apply negb_true_iff in Hpad, Hbody.
  destruct e as [b | b | b | b | b | |]; simpl entry_text; cbn [append];
    rewrite ?append_assoc; simpl entry_body in Hbody.
  - assert (Hn : next (pad ++ "<string>" ++ b ++ "</string>" ++ rest)
                 = (pad, "<string>", b ++ "</string>" ++ rest))
      by exact (next_token pad "string" _ Hpad eq_refl).
    exists "<string>", (b ++ "</string>" ++ rest).
    split; [exact Hn|]. do 2 (split; [reflexivity|]).
    enough (Hdec : unmarshalValue lib (S fuel)
                     (pad ++ "<string>" ++ b ++ "</string>" ++ rest)
                     (New_Elem TInterface)
                   = (Ok rest,
                      MkValue TInterface (mkFlag true false false)
                        (VInterface (entry_value lib (EString b)))))
      by exact Hdec.
    rewrite (unmarshalValue_step lib fuel _ _ _ _ (New_Elem TInterface) None
               Hn eq_refl eq_refl).
    unfold finish, target, dispatch, scalar. simpl String.eqb. cbv iota.
    scan (next_body b "string" rest Hbody eq_refl). simpl.
    reflexivity.
  - assert (Hn : next (pad ++ "<integer>" ++ b ++ "</integer>" ++ rest)
                 = (pad, "<integer>", b ++ "</integer>" ++ rest))
      by exact (next_token pad "integer" _ Hpad eq_refl).
    exists "<integer>", (b ++ "</integer>" ++ rest).
    split; [exact Hn|]. do 2 (split; [reflexivity|]).
    enough (Hdec : unmarshalValue lib (S fuel)
                     (pad ++ "<integer>" ++ b ++ "</integer>" ++ rest)
                     (New_Elem TInterface)
                   = (Ok rest,
                      MkValue TInterface (mkFlag true false false)
                        (VInterface (entry_value lib (EInteger b)))))
      by exact Hdec.
    rewrite (unmarshalValue_step lib fuel _ _ _ _ (New_Elem TInterface) None
               Hn eq_refl eq_refl).
    unfold finish, target, dispatch, scalar. simpl String.eqb. cbv iota.
    scan (next_body b "integer" rest Hbody eq_refl). simpl.
    simpl entry_value in Hval.
    destruct (strconv_Atoi lib b); [reflexivity | discriminate].
  - assert (Hn : next (pad ++ "<real>" ++ b ++ "</real>" ++ rest)
                 = (pad, "<real>", b ++ "</real>" ++ rest))
      by exact (next_token pad "real" _ Hpad eq_refl).
    exists "<real>", (b ++ "</real>" ++ rest).
    split; [exact Hn|]. do 2 (split; [reflexivity|]).
    enough (Hdec : unmarshalValue lib (S fuel)
                     (pad ++ "<real>" ++ b ++ "</real>" ++ rest)
                     (New_Elem TInterface)
                   = (Ok rest,
                      MkValue TInterface (mkFlag true false false)
                        (VInterface (entry_value lib (EReal b)))))
      by exact Hdec.
    rewrite (unmarshalValue_step lib fuel _ _ _ _ (New_Elem TInterface) None
               Hn eq_refl eq_refl).
    unfold finish, target, dispatch, scalar. simpl String.eqb. cbv iota.
    scan (next_body b "real" rest Hbody eq_refl). simpl.
    simpl entry_value in Hval.
    destruct (strconv_ParseFloat lib b 64); [reflexivity | discriminate].
  - assert (Hn : next (pad ++ "<date>" ++ b ++ "</date>" ++ rest)
                 = (pad, "<date>", b ++ "</date>" ++ rest))
      by exact (next_token pad "date" _ Hpad eq_refl).
    exists "<date>", (b ++ "</date>" ++ rest).
    split; [exact Hn|]. do 2 (split; [reflexivity|]).
    enough (Hdec : unmarshalValue lib (S fuel)
                     (pad ++ "<date>" ++ b ++ "</date>" ++ rest)
                     (New_Elem TInterface)
                   = (Ok rest,
                      MkValue TInterface (mkFlag true false false)
                        (VInterface (entry_value lib (EDate b)))))
      by exact Hdec.
    rewrite (unmarshalValue_step lib fuel _ _ _ _ (New_Elem TInterface) None
               Hn eq_refl eq_refl).
    unfold finish, target, dispatch, scalar. simpl String.eqb. cbv iota.
    scan (next_body b "date" rest Hbody eq_refl). simpl.
    simpl entry_value in Hval.
    destruct (time_Parse lib b); [|discriminate].
    destruct (time_Time lib); try discriminate Htime. reflexivity.
  - assert (Hn : next (pad ++ "<data>" ++ b ++ "</data>" ++ rest)
                 = (pad, "<data>", b ++ "</data>" ++ rest))
      by exact (next_token pad "data" _ Hpad eq_refl).
    exists "<data>", (b ++ "</data>" ++ rest).
    split; [exact Hn|]. do 2 (split; [reflexivity|]).
    enough (Hdec : unmarshalValue lib (S fuel)
                     (pad ++ "<data>" ++ b ++ "</data>" ++ rest)
                     (New_Elem TInterface)
                   = (Ok rest,
                      MkValue TInterface (mkFlag true false false)
                        (VInterface (entry_value lib (EData b)))))
      by exact Hdec.
    rewrite (unmarshalValue_step lib fuel _ _ _ _ (New_Elem TInterface) None
               Hn eq_refl eq_refl).
    unfold finish, target, dispatch, scalar. simpl String.eqb. cbv iota.
    scan (next_body b "data" rest Hbody eq_refl). simpl.
    simpl entry_value in Hval.
    destruct (base64_DecodeString lib b); [reflexivity | discriminate].
  - assert (Hn : next (pad ++ "<true/>" ++ rest) = (pad, "<true/>", rest))
      by exact (next_token pad "true/" _ Hpad eq_refl).
    exists "<true/>", rest.
    split; [exact Hn|]. do 2 (split; [reflexivity|]).
    enough (Hdec : unmarshalValue lib (S fuel) (pad ++ "<true/>" ++ rest)
                     (New_Elem TInterface)
                   = (Ok rest,
                      MkValue TInterface (mkFlag true false false)
                        (VInterface (Some (t_bool, VBool true)))))
      by exact Hdec.
    now rewrite (unmarshalValue_step lib fuel _ _ _ _ (New_Elem TInterface)
                   None Hn eq_refl eq_refl).
  - assert (Hn : next (pad ++ "<false/>" ++ rest) = (pad, "<false/>", rest))
      by exact (next_token pad "false/" _ Hpad eq_refl).
    exists "<false/>", rest.
    split; [exact Hn|]. do 2 (split; [reflexivity|]).
    enough (Hdec : unmarshalValue lib (S fuel) (pad ++ "<false/>" ++ rest)
                     (New_Elem TInterface)
                   = (Ok rest,
                      MkValue TInterface (mkFlag true false false)
                        (VInterface (Some (t_bool, VBool false)))))
      by exact Hdec.
    now rewrite (unmarshalValue_step lib fuel _ _ _ _ (New_Elem TInterface)
                   None Hn eq_refl eq_refl).
Qed.

(** One turn of the loop of the [<array>] case on a slice. *)
Lemma arrayLoop_step (lib : Library) (fuel : nat) (data skip tag rest : string)
    (t : rtype) (fl : flag) (x : value) :
  next data = (skip, tag, rest) -> (len tag =? 0) = false ->
  arrayLoop lib (S fuel) data (MkValue t fl x)
  = if String.eqb tag "</array>" then (Ok rest, MkValue t fl x)
    else
      let '(o, elem') :=
        unmarshalValue lib fuel data (New_Elem (Type_Elem t)) in
      match o with
      | Ok data' =>
          match Set_Append (MkValue t fl x) elem' with
          | inl p => (Panics p, MkValue t fl x)
          | inr v' => arrayLoop lib fuel data' v'
          end
      | _ => (o, MkValue t fl x)
      end.
Proof.
  intros Hn Hlen. cbn [arrayLoop]. rewrite Hn. cbn match. rewrite Hlen.
  reflexivity.
Qed.

(** The loop of the [<array>] case over well-formed scalar entries appends
    one element per entry, in order. *)
Lemma arrayLoop_entries (lib : Library) (pad rest : string) (fl : flag)
    (es : list (string * entry)) :
  Type_Kind (time_Time lib) = Struct ->
  occurs "<" pad = false -> flagAddr fl = true -> flagRO fl = false ->
  forallb (entry_ok lib) es = true ->
  forall (fuel : nat) (xs : list value),
  (List.length es < fuel)%nat ->
  arrayLoop lib fuel (entries_text es ++ pad ++ "</array>" ++ rest)
    (MkValue (TSlice TInterface) fl (VSlice xs))
  = (Ok rest,
     MkValue (TSlice TInterface) fl
       (VSlice (xs ++ map (fun pe => VInterface (entry_value lib (snd pe))) es)
                %list)).
Proof.
  intros Htime Hpad Ha Hro.
  induction es as [|[p e] es IH]; intros Hok [|fuel] xs Hfuel;
    simpl List.length in Hfuel; try lia.
  - assert (Hn : next (entries_text [] ++ pad ++ "</array>" ++ rest)
                 = (pad, "</array>", rest))
      by exact (next_token pad "/array" _ Hpad eq_refl).
    rewrite (arrayLoop_step lib fuel _ _ _ _ _ _ _ Hn eq_refl).
    simpl. now rewrite app_nil_r.
  - simpl in Hok. apply andb_prop in Hok. destruct Hok as [Hpe Hes].
    cbn [entries_text]. rewrite !append_assoc.
    destruct fuel as [|fuel]; [lia|].
    destruct (entry_step lib fuel p e
                (entries_text es ++ pad ++ "</array>" ++ rest) Htime Hpe)
      as (tag & after & Hn & Hlen & Hclose & Hdec).
    rewrite (arrayLoop_step lib (S fuel) _ _ _ _ _ _ _ Hn Hlen), Hclose.
    cbn [Type_Elem]. rewrite Hdec. cbn [Set_Append]. rewrite Hro, Ha.
    cbn [negb]. rewrite IH by (trivial; lia).
    now rewrite <- app_assoc.
Qed.

(** C7, as stated, fails for an array with an entry that is itself a
    mapping or an array: decoded into a [[]interface {}], the well-formed
    array [<array><integer>8</integer><dict></dict></array>] yields an
    error after its first entry, and no element for its second. *)
Lemma C7_counterexample :
  unmarshalValue example_lib
    (enough "<array><integer>8</integer><dict></dict></array>")
    "<array><integer>8</integer><dict></dict></array>"
    (New_Elem (TSlice TInterface))
  = (Err "cannot unmarshal <dict> into non-struct interface {}",
     MkValue (TSlice TInterface) (mkFlag true false false)
       (VSlice [VInterface (Some (t_int, VInt 8))])).
Proof. reflexivity. Qed.

(** C7, amended: an array of well-formed scalar entries (string, integer,
    real, date, data, boolean) decoded into a settable [[]interface {}]
    appends one element per entry, in the order of the entries, and each
    element holds the value of its entry tagged with its concrete type
    ([entry_value]: an integer entry an [int], a real entry a
    [float64], ...). *)
Theorem C7_sequence_of_dynamic (lib : Library) (fuel : nat)
    (lead pad rest : string) (fl : flag) (es : list (string * entry))
    (xs : list value) :
  Type_Kind (time_Time lib) = Struct ->
  occurs "<" lead = false -> occurs "<" pad = false ->
  flagAddr fl = true -> flagRO fl = false ->
  forallb (entry_ok lib) es = true ->
  (List.length es + 1 < fuel)%nat ->
  unmarshalValue lib fuel
    (lead ++ "<array>" ++ entries_text es ++ pad ++ "</array>" ++ rest)
    (MkValue (TSlice TInterface) fl (VSlice xs))
  = (Ok rest,
     MkValue (TSlice TInterface) fl
       (VSlice (xs ++ map (fun pe => VInterface (entry_value lib (snd pe))) es)
                %list)).
Proof.
  intros Htime Hlead Hpad Ha Hro Hok Hfuel.
  destruct fuel as [|fuel]; [lia|].
  assert (Hn : next (lead ++ "<array>" ++ entries_text es ++ pad
                     ++ "</array>" ++ rest)
               = (lead, "<array>",
                  entries_text es ++ pad ++ "</array>" ++ rest))
    by exact (next_token lead "array" _ Hlead eq_refl).
  rewrite (unmarshalValue_step lib fuel _ _ _ _
             (MkValue (TSlice TInterface) fl (VSlice xs)) None
             Hn eq_refl eq_refl).
  unfold finish, target, dispatch. simpl String.eqb. cbv iota.
  cbn [Value_Kind Type_Kind Kind_eqb negb].
  apply arrayLoop_entries; trivial. lia.
Qed.

Lemma C7_sequence_of_dynamic_witness :
  unmarshalValue example_lib 5
    ("<array>"
     ++ entries_text [(EmptyString, EInteger "8");
                      (" ", EReal "4.9000000953674316");
                      (" ", EInteger "9")]
     ++ " " ++ "</array>" ++ "</dict>")
    (MkValue (TSlice TInterface) (mkFlag true false false) (VSlice []))
  = (Ok "</dict>",
     MkValue (TSlice TInterface) (mkFlag true false false)
       (VSlice [VInterface (Some (t_int, VInt 8));
                VInterface (Some (t_float64, VFloat 0x40139999A0000000));
                VInterface (Some (t_int, VInt 9))])).
Proof.
  apply (C7_sequence_of_dynamic example_lib 5 EmptyString " " "</dict>"
           (mkFlag true false false)
           [(EmptyString, EInteger "8");
            (" ", EReal "4.9000000953674316");
            (" ", EInteger "9")] []);
    try reflexivity.
  simpl. lia.
Defined.

(** ** Fuel *)

(** More fuel does not change a result that was reached. *)
Lemma skipLoop_mono (fuel fuel' n : nat) (data : string) :
  (fuel <= fuel')%nat -> skipLoop fuel n data <> OutOfFuel ->
  skipLoop fuel' n data = skipLoop fuel n data.
Proof.
  revert fuel' n data.
  induction fuel as [|fuel IH]; intros [|fuel'] n data Hle H;
    try lia; try (now elim H).
  cbn [skipLoop] in *. destruct (next data) as [[skip tag] rest].
  destruct (len tag =? 0); [reflexivity|].
  destruct (Ascii.eqb (byte_at tag 1) "/").
  - destruct n as [|[|n]]; try reflexivity. apply IH; [lia | exact H].
  - apply IH; [lia | exact H].
Qed.

Lemma rootLoop_mono (fuel fuel' : nat) (data : string) :
  (fuel <= fuel')%nat -> rootLoop fuel data <> OutOfFuel ->
  rootLoop fuel' data = rootLoop fuel data.
Proof.
  revert fuel' data.
  induction fuel as [|fuel IH]; intros [|fuel'] data Hle H;
    try lia; try (now elim H).
  cbn [rootLoop] in *. destruct (next data) as [[skip tag] rest].
  destruct (HasPrefix tag "<?xml" || HasPrefix tag "<!DOCTYPE");
    [apply IH; [lia | exact H] | reflexivity].
Qed.

Lemma dispatch_mono (lib : Library)
    (dict dict' array array' : string -> Value -> result)
    (tag data : string) (v : Value) :
  (forall d w, fst (dict d w) <> OutOfFuel -> dict' d w = dict d w) ->
  (forall d w, fst (array d w) <> OutOfFuel -> array' d w = array d w) ->
  fst (dispatch lib dict array tag data v) <> OutOfFuel ->
  dispatch lib dict' array' tag data v = dispatch lib dict array tag data v.
Proof.
  intros Hd Ha. unfold dispatch.
  destruct (String.eqb tag "<dict>").
  { destruct v; [reflexivity|]. destruct (negb _); [reflexivity | apply Hd]. }
  destruct (String.eqb tag "<array>").
  { destruct v; [reflexivity|]. destruct (negb _); [reflexivity | apply Ha]. }
  reflexivity.
Qed.

Lemma decoder_mono (lib : Library) (fuel : nat) :
  forall fuel', (fuel <= fuel')%nat ->
  (forall data v, fst (unmarshalValue lib fuel data v) <> OutOfFuel ->
     unmarshalValue lib fuel' data v = unmarshalValue lib fuel data v)
  /\ (forall data v, fst (dictLoop lib fuel data v) <> OutOfFuel ->
        dictLoop lib fuel' data v = dictLoop lib fuel data v)
  /\ (forall data v, fst (arrayLoop lib fuel data v) <> OutOfFuel ->
        arrayLoop lib fuel' data v = arrayLoop lib fuel data v).
Proof.
  induction fuel as [|fuel IH]; intros [|fuel'] Hle; try lia;
    try (repeat split; intros data v H; now elim H).
  destruct (IH fuel' ltac:(lia)) as (IHu & IHd & IHa).
  repeat split; intros data v H.
  - cbn [unmarshalValue] in *. destruct (next data) as [[skip tag] rest].
    destruct (String.eqb tag nil); [reflexivity|].
    destruct (indirect v) as [p | [[v1 e1]|]]; [reflexivity | |].
    + destruct (dispatch lib (dictLoop lib fuel) (arrayLoop lib fuel)
                  tag rest e1) as [o e2] eqn:E.
      rewrite (dispatch_mono lib _ _ _ _ _ _ _ IHd IHa), E; [reflexivity|].
      now rewrite E.
    + now apply dispatch_mono.
  - cbn [dictLoop] in *. destruct (next data) as [[skip tag] rest].
    destruct (len tag =? 0); [reflexivity|].
    destruct (String.eqb tag "</dict>"); [reflexivity|].
    destruct (negb (String.eqb tag "<key>")); [reflexivity|].
    destruct (next rest) as [[body tag'] rest'].
    destruct (len tag' =? 0); [reflexivity|].
    destruct (negb (String.eqb tag' "</key>")); [reflexivity|].
    destruct v as [|t fl x]; [reflexivity|].
    destruct (fieldIndex (Type_Fields t) body 0) as [i|].
    + destruct (Value_Field (MkValue t fl x) i) as [p|f]; [reflexivity|].
      destruct (unmarshalValue lib fuel rest' f) as [o f'] eqn:E.
      rewrite IHu, E by (rewrite E; destruct o; try discriminate; exact H).
      destruct o; try reflexivity. now apply IHd.
    + destruct (skipValue rest'); try reflexivity. now apply IHd.
  - cbn [arrayLoop] in *. destruct (next data) as [[skip tag] rest].
    destruct (len tag =? 0); [reflexivity|].
    destruct (String.eqb tag "</array>"); [reflexivity|].
    destruct v as [|t fl x]; [reflexivity|].
    destruct (unmarshalValue lib fuel data (New_Elem (Type_Elem t)))
      as [o e] eqn:E.
    rewrite IHu, E by (rewrite E; destruct o; try discriminate; exact H).
    destruct o; try reflexivity.
    destruct (Set_Append (MkValue t fl x) e); [reflexivity|]. now apply IHa.
Qed.

(** ** Bytes after a decoded value *)

(** What follows the part of the input that a call consumed is handed back
    untouched: with [extra] appended to the input, the call answers the
    same, with [extra] appended to the rest. *)
Lemma skipLoop_append (fuel n : nat) (data rest extra : string) :
  skipLoop fuel n data = Ok rest ->
  skipLoop fuel n (data ++ extra) = Ok (rest ++ extra).
Proof.
  revert n data. induction fuel as [|fuel IH]; intros n data H;
    [discriminate|].
  cbn [skipLoop] in *. destruct (next data) as [[skip tag] r] eqn:Hn.
  destruct (len tag =? 0) eqn:Hl; [discriminate|].
  rewrite (next_append _ _ _ _ extra Hn) by now rewrite <- len_eqb_0.
  rewrite Hl. destruct (Ascii.eqb (byte_at tag 1) "/").
  - destruct n as [|[|n]]; [discriminate | now inversion H | now apply IH].
  - now apply IH.
Qed.

Lemma skipValue_append (data rest extra : string) :
  skipValue data = Ok rest ->
  skipValue (data ++ extra) = Ok (rest ++ extra).
Proof.
  unfold skipValue. intros H. apply (skipLoop_append _ _ _ _ extra) in H.
  rewrite <- H. apply skipLoop_mono.
  - rewrite length_append. lia.
  - now rewrite H.
Qed.

Lemma rootLoop_append (fuel : nat) (data rest extra : string) :
  rootLoop fuel data = Ok rest ->
  rootLoop fuel (data ++ extra) = Ok (rest ++ extra).
Proof.
  revert data. induction fuel as [|fuel IH]; intros data H; [discriminate|].
  cbn [rootLoop] in *. destruct (next data) as [[skip tag] r] eqn:Hn.
  destruct (String.eqb tag nil) eqn:Ht.
  - apply String.eqb_eq in Ht. subst tag. discriminate.
  - rewrite (next_append _ _ _ _ extra Hn Ht).
    destruct (HasPrefix tag "<?xml" || HasPrefix tag "<!DOCTYPE");
      [now apply IH|].
    destruct (negb (HasPrefix tag "<plist")); [discriminate | now inversion H].
Qed.

Lemma scalar_append (name what : string) (xt : rtype)
    (conv : string -> option value) (data rest extra : string) (v v' : Value) :
  scalar name what xt conv data v = (Ok rest, v') ->
  scalar name what xt conv (data ++ extra) v = (Ok (rest ++ extra), v').
Proof.
  unfold scalar. destruct (next data) as [[body etag] r] eqn:Hn.
  destruct (len etag =? 0) eqn:Hl; [discriminate|].
  rewrite (next_append _ _ _ _ extra Hn) by now rewrite <- len_eqb_0.
  rewrite Hl. destruct (negb _); [discriminate|].
  destruct (conv body); [|discriminate].
  destruct (Value_Set v xt v0); [discriminate|]. now intros [= <- <-].
Qed.

Lemma boolean_append (b : bool) (data rest extra : string) (v v' : Value) :
  boolean b data v = (Ok rest, v') ->
  boolean b (data ++ extra) v = (Ok (rest ++ extra), v').
Proof.
  unfold boolean. destruct (Value_Set v t_bool (VBool b)); [discriminate|].
  now intros [= <- <-].
Qed.

Lemma dispatch_append (lib : Library) (dict array : string -> Value -> result)
    (tag data rest extra : string) (v v' : Value) :
  (forall d w r w', dict d w = (Ok r, w') ->
     dict (d ++ extra) w = (Ok (r ++ extra), w')) ->
  (forall d w r w', array d w = (Ok r, w') ->
     array (d ++ extra) w = (Ok (r ++ extra), w')) ->
  dispatch lib dict array tag data v = (Ok rest, v') ->
  dispatch lib dict array tag (data ++ extra) v = (Ok (rest ++ extra), v').
Proof.
  intros Hd Ha. unfold dispatch.
  destruct (String.eqb tag "<dict>").
  { destruct v; [discriminate|]. destruct (negb _); [discriminate | apply Hd]. }
  destruct (String.eqb tag "<array>").
  { destruct v; [discriminate|]. destruct (negb _); [discriminate | apply Ha]. }
  repeat match goal with
         | |- context [if ?c then _ else _] =>
             destruct c; [solve [apply scalar_append | apply boolean_append]|]
         end.
  discriminate.
Qed.

Lemma decoder_append (lib : Library) (extra : string) (fuel : nat) :
  (forall data v rest v', unmarshalValue lib fuel data v = (Ok rest, v') ->
     unmarshalValue lib fuel (data ++ extra) v = (Ok (rest ++ extra), v'))
  /\ (forall data v rest v', dictLoop lib fuel data v = (Ok rest, v') ->
        dictLoop lib fuel (data ++ extra) v = (Ok (rest ++ extra), v'))
  /\ (forall data v rest v', arrayLoop lib fuel data v = (Ok rest, v') ->
        arrayLoop lib fuel (data ++ extra) v = (Ok (rest ++ extra), v')).
Proof.
  induction fuel as [|fuel (IHu & IHd & IHa)];
    [repeat split; discriminate|].
  repeat split; intros data v rest v' H.
  - cbn [unmarshalValue] in *. destruct (next data) as [[skip tag] r] eqn:Hn.
    destruct (String.eqb tag nil) eqn:Ht; [discriminate|].
    rewrite (next_append _ _ _ _ extra Hn Ht), Ht.
    destruct (indirect v) as [p | [[v1 e1]|]]; [discriminate | |].
    + destruct (dispatch lib (dictLoop lib fuel) (arrayLoop lib fuel)
                  tag r e1) as [o e2] eqn:E.
      injection H as -> <-.
      now rewrite (dispatch_append lib _ _ _ _ _ extra _ _ IHd IHa E).
    + now apply dispatch_append.
  - cbn [dictLoop] in *. destruct (next data) as [[skip tag] r] eqn:Hn.
    destruct (len tag =? 0) eqn:Hl; [discriminate|].
    rewrite (next_append _ _ _ _ extra Hn) by now rewrite <- len_eqb_0.
    rewrite Hl. destruct (String.eqb tag "</dict>"); [now inversion H|].
    destruct (negb (String.eqb tag "<key>")); [discriminate|].
    destruct (next r) as [[body tag'] r'] eqn:Hn'.
    destruct (len tag' =? 0) eqn:Hl'; [discriminate|].
    rewrite (next_append _ _ _ _ extra Hn') by now rewrite <- len_eqb_0.
    rewrite Hl'. destruct (negb (String.eqb tag' "</key>")); [discriminate|].
    destruct v as [|t fl x]; [discriminate|].
    destruct (fieldIndex (Type_Fields t) body 0) as [i|].
    + destruct (Value_Field (MkValue t fl x) i) as [p|f]; [discriminate|].
      destruct (unmarshalValue lib fuel r' f) as [o f'] eqn:E.
      destruct o; try discriminate.
      rewrite (IHu _ _ _ _ E). now apply IHd.
    + destruct (skipValue r') eqn:E; try discriminate.
      rewrite (skipValue_append _ _ extra E). now apply IHd.
  - cbn [arrayLoop] in *. destruct (next data) as [[skip tag] r] eqn:Hn.
    destruct (len tag =? 0) eqn:Hl; [discriminate|].
    rewrite (next_append _ _ _ _ extra Hn) by now rewrite <- len_eqb_0.
    rewrite Hl. destruct (String.eqb tag "</array>"); [now inversion H|].
    destruct v as [|t fl x]; [discriminate|].
    destruct (unmarshalValue lib fuel data (New_Elem (Type_Elem t)))
      as [o e] eqn:E.
    destruct o; try discriminate.
    rewrite (IHu _ _ _ _ E).
    destruct (Set_Append (MkValue t fl x) e); [discriminate|]. now apply IHa.
Qed.

(** ** C5: what follows the value *)

(** When the loop of [Unmarshal] finds the root tag, it is the first token
    that is no declaration. *)
Lemma rootLoop_inv (fuel : nat) (data d1 : string) :
  rootLoop fuel data = Ok d1 ->
  exists root, first_significant data root d1 /\ HasPrefix root "<plist" = true.
Proof.
  revert data. induction fuel as [|fuel IH]; intros data H; [discriminate|].
  cbn [rootLoop] in H. destruct (next data) as [[skip tag] r] eqn:Hn.
  destruct (HasPrefix tag "<?xml" || HasPrefix tag "<!DOCTYPE") eqn:Hd.
  - destruct (IH _ H) as (root & Hfs & Hp). exists root. split; [|exact Hp].
    exact (fs_skip _ _ _ _ _ _ Hn Hd Hfs).
  - destruct (HasPrefix tag "<plist") eqn:Hp; [|discriminate].
    injection H as <-. exists tag. split; [|exact Hp].
    exact (fs_here _ _ _ _ Hn Hd).
Qed.

(** A successful [Unmarshal] found the root tag, decoded one value after
    it, and found [</plist>] as the next token. *)
Lemma Unmarshal_ok_inv (lib : Library) (data : string)
    (v : option (rtype * value)) (v' : Value) :
  Unmarshal lib data v = (Ok tt, v') ->
  exists root d1 d2 skip trail,
    first_significant data root d1 /\ HasPrefix root "<plist" = true
    /\ unmarshalValue lib (enough d1) d1 (ValueOf v) = (Ok d2, v')
    /\ next d2 = (skip, "</plist>", trail).
Proof.
  unfold Unmarshal.
  destruct (rootLoop (S (String.length data)) data) as [d1| | |] eqn:Hr;
    try discriminate.
  destruct (unmarshalValue lib (enough d1) d1 (ValueOf v)) as [o w] eqn:Hu.
  destruct o as [d2| | |]; try discriminate.
  destruct (next d2) as [[skip tag] trail] eqn:Hn.
  destruct (String.eqb tag "</plist>") eqn:Ht; [|discriminate].
  apply String.eqb_eq in Ht. subst tag. intros [= <-].
  destruct (rootLoop_inv _ _ _ Hr) as (root & Hfs & Hp).
  now exists root, d1, d2, skip, trail.
Qed.

Lemma Unmarshal_ok_inv_witness :
  exists root d1 d2 skip trail,
    first_significant "<plist><true/></plist> junk" root d1
    /\ HasPrefix root "<plist" = true
    /\ unmarshalValue example_lib (enough d1) d1 (ValueOf (New t_bool))
       = (Ok d2, pointer_to t_bool (VBool true))
    /\ next d2 = (skip, "</plist>", trail).
Proof.
  apply (Unmarshal_ok_inv example_lib "<plist><true/></plist> junk"
           (New t_bool) (pointer_to t_bool (VBool true))).
  reflexivity.
Defined.

(** C5, as stated, fails: with text and a further token after its
    [</plist>], the input below still decodes without error. *)
Lemma C5_counterexample :
  Unmarshal example_lib "<plist><true/></plist> junk <false/>"
    (Some (TPtr t_bool, VPtr (Some (VBool false))))
  = (Ok tt,
     MkValue (TPtr t_bool) (mkFlag false false false)
       (VPtr (Some (VBool true)))).
Proof. reflexivity. Qed.

(** C5, amended: once the root tag is found and the one value after it is
    decoded, [Unmarshal] looks at one more token.  If it is exactly
    [</plist>] the call succeeds, and succeeds with the same destination
    whatever bytes are appended to the input: nothing after the closing
    tag is examined.  If it is any other token, or there is none, the call
    fails with "junk on end of plist". *)
Theorem C5_only_the_closing_tag_is_checked (lib : Library)
    (data root d1 d2 skip tag trail : string)
    (v : option (rtype * value)) (v' : Value) :
  first_significant data root d1 ->
  HasPrefix root "<plist" = true ->
  unmarshalValue lib (enough d1) d1 (ValueOf v) = (Ok d2, v') ->
  next d2 = (skip, tag, trail) ->
  (tag = "</plist>" ->
   forall extra, Unmarshal lib (data ++ extra) v = (Ok tt, v'))
  /\ (tag <> "</plist>" ->
      Unmarshal lib data v = (Err "junk on end of plist", v')).
Proof.
  intros Hfs Hp Hu Hn.
  assert (Hr : rootLoop (S (String.length data)) data = Ok d1).
  { rewrite (rootLoop_first_significant _ _ _ Hfs) by lia. now rewrite Hp. }
  split.
  - intros -> extra. unfold Unmarshal.
    assert (Hr' : rootLoop (S (String.length (data ++ extra))) (data ++ extra)
                  = Ok (d1 ++ extra)).
    { rewrite <- (rootLoop_append _ _ _ extra Hr). apply rootLoop_mono.
      - rewrite length_append. lia.
      - now rewrite (rootLoop_append _ _ _ extra Hr). }
    rewrite Hr'.
    assert (Hu' : unmarshalValue lib (enough (d1 ++ extra)) (d1 ++ extra)
                    (ValueOf v)
                  = (Ok (d2 ++ extra), v')).
    { destruct (decoder_append lib extra (enough d1)) as (Ha & _ & _).
      rewrite <- (Ha _ _ _ _ Hu).
      destruct (decoder_mono lib (enough d1) (enough (d1 ++ extra)))
        as (Hm & _ & _).
      - unfold enough. rewrite length_append. lia.
      - apply Hm. now rewrite (Ha _ _ _ _ Hu). }
    rewrite Hu'. now rewrite (next_append _ _ _ _ extra Hn eq_refl).
  - intros Hne. unfold Unmarshal. rewrite Hr, Hu, Hn.
    apply String.eqb_neq in Hne. now rewrite Hne.
Qed.

Lemma C5_only_the_closing_tag_is_checked_witness :
  ("</plist>" = "</plist>" ->
   forall extra,
     Unmarshal example_lib ("<?xml?> <plist> <true/> </plist>" ++ extra)
       (Some (TPtr t_bool, VPtr (Some (VBool false))))
     = (Ok tt,
        MkValue (TPtr t_bool) (mkFlag false false false)
          (VPtr (Some (VBool true)))))
  /\ ("</plist>" <> "</plist>" ->
      Unmarshal example_lib "<?xml?> <plist> <true/> </plist>"
        (Some (TPtr t_bool, VPtr (Some (VBool false))))
      = (Err "junk on end of plist",
         MkValue (TPtr t_bool) (mkFlag false false false)
           (VPtr (Some (VBool true))))).
Proof.
  apply (C5_only_the_closing_tag_is_checked example_lib
           "<?xml?> <plist> <true/> </plist>" "<plist>" " <true/> </plist>"
           " </plist>" " " "</plist>" EmptyString).
  - apply (fs_skip _ EmptyString "<?xml?>" " <plist> <true/> </plist>");
      [reflexivity | reflexivity |].
    apply (fs_here _ " "); reflexivity.
  - reflexivity.
  - reflexivity.
  - reflexivity.
Defined.

(** ** Termination: the fuel of the entry points suffices *)

Lemma skipLoop_terminates (fuel n : nat) (data : string) :
  (String.length data < fuel)%nat -> skipLoop fuel n data <> OutOfFuel.
Proof.
  revert n data. induction fuel as [|fuel IH]; intros n data Hlt; [lia|].
  cbn [skipLoop]. destruct (next data) as [[skip tag] r] eqn:Hn.
  destruct (len tag =? 0) eqn:Hl; [discriminate|].
  rewrite len_eqb_0 in Hl. pose proof (next_shorter _ _ _ _ Hn Hl) as Hs.
  destruct (Ascii.eqb (byte_at tag 1) "/").
  - destruct n as [|[|n]]; try discriminate. apply IH. lia.
  - apply IH. lia.
Qed.

(** [skipValue] returns: a rest or an error. *)
Lemma skipValue_terminates (data : string) : skipValue data <> OutOfFuel.
Proof. apply skipLoop_terminates. lia. Qed.

Lemma skipValue_never_panics (data : string) (p : panic) :
  skipValue data <> Panics p.
Proof.
  unfold skipValue. generalize (S (String.length data)) 0%nat.
  intros fuel. revert data. induction fuel as [|fuel IH]; intros data n;
    [discriminate|].
  cbn [skipLoop]. destruct (next data) as [[skip tag] r].
  destruct (len tag =? 0); [discriminate|].
  destruct (Ascii.eqb (byte_at tag 1) "/"); [|apply IH].
  destruct n as [|[|n]]; try discriminate. apply IH.
Qed.

Lemma rootLoop_terminates (fuel : nat) (data : string) :
  (String.length data < fuel)%nat -> rootLoop fuel data <> OutOfFuel.
Proof.
  revert data. induction fuel as [|fuel IH]; intros data Hlt; [lia|].
  cbn [rootLoop]. destruct (next data) as [[skip tag] r] eqn:Hn.
  destruct (HasPrefix tag "<?xml" || HasPrefix tag "<!DOCTYPE") eqn:Hd.
  - apply IH.
    pose proof (next_shorter _ _ _ _ Hn (is_declaration_not_nil _ Hd)). lia.
  - now destruct (negb (HasPrefix tag "<plist")).
Qed.

Lemma scalar_shorter (name what : string) (xt : rtype)
    (conv : string -> option value) (data rest : string) (v v' : Value) :
  scalar name what xt conv data v = (Ok rest, v') ->
  (String.length rest <= String.length data)%nat.
Proof.
  unfold scalar. destruct (next data) as [[body etag] r] eqn:Hn.
  destruct (len etag =? 0) eqn:Hl; [discriminate|].
  rewrite len_eqb_0 in Hl. pose proof (next_shorter _ _ _ _ Hn Hl) as Hs.
  destruct (negb _); [discriminate|].
  destruct (conv body); [|discriminate].
  destruct (Value_Set v xt v0); [discriminate|]. intros [= <- <-]. lia.
Qed.

Lemma dispatch_shorter (lib : Library) (dict array : string -> Value -> result)
    (tag data rest : string) (v v' : Value) :
  (forall d w r w', dict d w = (Ok r, w') ->
     (String.length r <= String.length d)%nat) ->
  (forall d w r w', array d w = (Ok r, w') ->
     (String.length r <= String.length d)%nat) ->
  dispatch lib dict array tag data v = (Ok rest, v') ->
  (String.length rest <= String.length data)%nat.
Proof.
  intros Hd Ha. unfold dispatch.
  destruct (String.eqb tag "<dict>").
  { destruct v; [discriminate|]. destruct (negb _); [discriminate | apply Hd]. }
  destruct (String.eqb tag "<array>").
  { destruct v; [discriminate|]. destruct (negb _); [discriminate | apply Ha]. }
  repeat match goal with
         | |- context [if ?c then _ else _] =>
             destruct c; [solve [apply scalar_shorter] |]
         end;
    unfold boolean;
    repeat match goal with
           | |- context [if ?c then _ else _] => destruct c
           | |- context [Value_Set ?a ?b ?c] => destruct (Value_Set a b c)
           end;
    try discriminate; intros [= <- <-]; lia.
Qed.

(** A call that returns a rest has consumed at least one token. *)
Lemma decoder_shorter (lib : Library) (fuel : nat) :
  (forall data v rest v', unmarshalValue lib fuel data v = (Ok rest, v') ->
     (String.length rest + 2 <= String.length data)%nat)
  /\ (forall data v rest v', dictLoop lib fuel data v = (Ok rest, v') ->
        (String.length rest + 2 <= String.length data)%nat)
  /\ (forall data v rest v', arrayLoop lib fuel data v = (Ok rest, v') ->
        (String.length rest + 2 <= String.length data)%nat).
Proof.
  induction fuel as [|fuel (IHu & IHd & IHa)];
    [repeat split; discriminate|].
  assert (IHd' : forall d w r w', dictLoop lib fuel d w = (Ok r, w') ->
                   (String.length r <= String.length d)%nat)
    by (intros d w r w' H; apply IHd in H; lia).
  assert (IHa' : forall d w r w', arrayLoop lib fuel d w = (Ok r, w') ->
                   (String.length r <= String.length d)%nat)
    by (intros d w r w' H; apply IHa in H; lia).
  repeat split; intros data v rest v' H.
  - cbn [unmarshalValue] in H. destruct (next data) as [[skip tag] r] eqn:Hn.
    destruct (String.eqb tag nil) eqn:Ht; [discriminate|].
    pose proof (next_shorter _ _ _ _ Hn Ht) as Hs.
    destruct (indirect v) as [p | [[v1 e1]|]]; [discriminate | |].
    + destruct (dispatch lib (dictLoop lib fuel) (arrayLoop lib fuel)
                  tag r e1) as [o e2] eqn:E.
      injection H as -> <-.
      pose proof (dispatch_shorter lib _ _ _ _ _ _ _ IHd' IHa' E). lia.
    + pose proof (dispatch_shorter lib _ _ _ _ _ _ _ IHd' IHa' H). lia.
  - cbn [dictLoop] in H. destruct (next data) as [[skip tag] r] eqn:Hn.
    destruct (len tag =? 0) eqn:Hl; [discriminate|].
    rewrite len_eqb_0 in Hl. pose proof (next_shorter _ _ _ _ Hn Hl) as Hs.
    destruct (String.eqb tag "</dict>"); [inversion H; subst; lia|].
    destruct (negb (String.eqb tag "<key>")); [discriminate|].
    destruct (next r) as [[body tag'] r'] eqn:Hn'.
    destruct (len tag' =? 0) eqn:Hl'; [discriminate|].
    rewrite len_eqb_0 in Hl'. pose proof (next_shorter _ _ _ _ Hn' Hl') as Hs'.
    destruct (negb (String.eqb tag' "</key>")); [discriminate|].
    destruct v as [|t fl x]; [discriminate|].
    destruct (fieldIndex (Type_Fields t) body 0) as [i|].
    + destruct (Value_Field (MkValue t fl x) i) as [p|f]; [discriminate|].
      destruct (unmarshalValue lib fuel r' f) as [o f'] eqn:E.
      destruct o; try discriminate.
      apply IHu in E. apply IHd in H. lia.
    + destruct (skipValue r') eqn:E; try discriminate.
      apply skipLoop_shorter in E. apply IHd in H. lia.
  - cbn [arrayLoop] in H. destruct (next data) as [[skip tag] r] eqn:Hn.
    destruct (len tag =? 0) eqn:Hl; [discriminate|].
    rewrite len_eqb_0 in Hl. pose proof (next_shorter _ _ _ _ Hn Hl) as Hs.
    destruct (String.eqb tag "</array>"); [inversion H; subst; lia|].
    destruct v as [|t fl x]; [discriminate|].
    destruct (unmarshalValue lib fuel data (New_Elem (Type_Elem t)))
      as [o e] eqn:E.
    destruct o; try discriminate.
    destruct (Set_Append (MkValue t fl x) e); [discriminate|].
    apply IHu in E. apply IHa in H. lia.
Qed.

Lemma dispatch_terminates (lib : Library)
    (dict array : string -> Value -> result) (tag data : string) (v : Value) :
  (forall w, fst (dict data w) <> OutOfFuel) ->
  (forall w, fst (array data w) <> OutOfFuel) ->
  fst (dispatch lib dict array tag data v) <> OutOfFuel.
Proof.
  intros Hd Ha. unfold dispatch.
  destruct (String.eqb tag "<dict>").
  { destruct v; [discriminate|]. destruct (negb _); [discriminate | apply Hd]. }
  destruct (String.eqb tag "<array>").
  { destruct v; [discriminate|]. destruct (negb _); [discriminate | apply Ha]. }
  unfold scalar, boolean.
  repeat match goal with
         | |- context [if ?c then _ else _] => destruct c
         | |- context [let '(_, _) := ?c in _] => destruct c as [[? ?] ?]
         | |- context [match ?c with Some _ => _ | None => _ end] => destruct c
         | |- context [match ?c with inl _ => _ | inr _ => _ end] => destruct c
         end; discriminate.
Qed.

(** With fuel above twice the length of the input, the decoder returns. *)
Lemma decoder_terminates (lib : Library) (fuel : nat) :
  (forall data v, (2 * String.length data + 2 <= fuel)%nat ->
     fst (unmarshalValue lib fuel data v) <> OutOfFuel)
  /\ (forall data v, (2 * String.length data + 1 <= fuel)%nat ->
        fst (dictLoop lib fuel data v) <> OutOfFuel)
  /\ (forall data v, (2 * String.length data + 3 <= fuel)%nat ->
        fst (arrayLoop lib fuel data v) <> OutOfFuel).
Proof.
  induction fuel as [|fuel (IHu & IHd & IHa)];
    [repeat split; intros; lia|].
  destruct (decoder_shorter lib fuel) as (Su & Sd & Sa).
  repeat split; intros data v Hf.
  - cbn [unmarshalValue]. destruct (next data) as [[skip tag] r] eqn:Hn.
    destruct (String.eqb tag nil) eqn:Ht; [discriminate|].
    pose proof (next_shorter _ _ _ _ Hn Ht) as Hs.
    assert (Hd : forall w, fst (dictLoop lib fuel r w) <> OutOfFuel)
      by (intros w; apply IHd; lia).
    assert (Ha : forall w, fst (arrayLoop lib fuel r w) <> OutOfFuel)
      by (intros w; apply IHa; lia).
    destruct (indirect v) as [p | [[v1 e1]|]]; [discriminate | |].
    + pose proof (dispatch_terminates lib _ _ tag r e1 Hd Ha) as H.
      now destruct (dispatch lib _ _ tag r e1).
    + now apply dispatch_terminates.
  - cbn [dictLoop]. destruct (next data) as [[skip tag] r] eqn:Hn.
    destruct (len tag =? 0) eqn:Hl; [discriminate|].
    rewrite len_eqb_0 in Hl. pose proof (next_shorter _ _ _ _ Hn Hl) as Hs.
    destruct (String.eqb tag "</dict>"); [discriminate|].
    destruct (negb (String.eqb tag "<key>")); [discriminate|].
    destruct (next r) as [[body tag'] r'] eqn:Hn'.
    destruct (len tag' =? 0) eqn:Hl'; [discriminate|].
    rewrite len_eqb_0 in Hl'. pose proof (next_shorter _ _ _ _ Hn' Hl') as Hs'.
    destruct (negb (String.eqb tag' "</key>")); [discriminate|].
    destruct v as [|t fl x]; [discriminate|].
    destruct (fieldIndex (Type_Fields t) body 0) as [i|].
    + destruct (Value_Field (MkValue t fl x) i) as [p|f]; [discriminate|].
      pose proof (IHu r' f ltac:(lia)) as Hu.
      destruct (unmarshalValue lib fuel r' f) as [o f'] eqn:E.
      destruct o; try discriminate; [|now elim Hu].
      apply Su in E. apply IHd. lia.
    + pose proof (skipValue_terminates r') as Hk.
      destruct (skipValue r') eqn:E; try discriminate; [|now elim Hk].
      apply skipLoop_shorter in E. apply IHd. lia.
  - cbn [arrayLoop]. destruct (next data) as [[skip tag] r] eqn:Hn.
    destruct (len tag =? 0) eqn:Hl; [discriminate|].
    rewrite len_eqb_0 in Hl. pose proof (next_shorter _ _ _ _ Hn Hl) as Hs.
    destruct (String.eqb tag "</array>"); [discriminate|].
    destruct v as [|t fl x]; [discriminate|].
    pose proof (IHu data (New_Elem (Type_Elem t)) ltac:(lia)) as Hu.
    destruct (unmarshalValue lib fuel data (New_Elem (Type_Elem t)))
      as [o e] eqn:E.
    destruct o; try discriminate; [|now elim Hu].
    destruct (Set_Append (MkValue t fl x) e); [discriminate|].
    apply Su in E. apply IHa. lia.
Qed.

(** [Unmarshal] returns: [nil], an error, or a panic of package
    [reflect]; the model never runs out of fuel. *)
Theorem Unmarshal_terminates (lib : Library) (data : string)
    (v : option (rtype * value)) :
  fst (Unmarshal lib data v) = Ok tt
  \/ (exists msg, fst (Unmarshal lib data v) = Err msg)
  \/ (exists p, fst (Unmarshal lib data v) = Panics p).
Proof.
  unfold Unmarshal.
  pose proof (rootLoop_terminates (S (String.length data)) data ltac:(lia))
    as Hr.
  destruct (rootLoop (S (String.length data)) data) as [d1|msg|p|];
    [| right; left; now exists msg | right; right; now exists p | now elim Hr].
  destruct (decoder_terminates lib (enough d1)) as (Hu & _ & _).
  specialize (Hu d1 (ValueOf v) ltac:(unfold enough; lia)).
  destruct (unmarshalValue lib (enough d1) d1 (ValueOf v)) as [o w].
  destruct o as [d2|msg|p|];
    [| right; left; now exists msg | right; right; now exists p | now elim Hu].
  destruct (next d2) as [[skip tag] trail].
  destruct (negb (String.eqb tag "</plist>"));
    [right; left; now eexists | now left].
Qed.

(** ** Skipping values without self-closing tokens *)

Lemma toks_text_app (ts ts' : list (string * tok)) :
  toks_text (ts ++ ts') = toks_text ts ++ toks_text ts'.
Proof.
  induction ts as [|pt ts IH]; simpl; [reflexivity|].
  now rewrite IH, append_assoc.
Qed.

(** One opening token raises the counter of [skipValue]. *)
Lemma skipLoop_open (fuel n : nat) (p name rest : string) :
  tok_ok (p, Open name) = true ->
  skipLoop (S fuel) n (tok_text (p, Open name) ++ rest)
  = skipLoop fuel (S n) rest.
Proof.
  unfold tok_ok, tok_text. simpl fst. simpl snd. intros H.
  apply andb_prop in H. destruct H as [Hp H].
  apply andb_prop in H. destruct H as [Hn Hs].
  apply negb_true_iff in Hp, Hn, Hs.
  rewrite append_assoc.
  assert (E : next (p ++ ("<" ++ name ++ ">") ++ rest)
              = (p, "<" ++ name ++ ">", rest)).
  { simpl. rewrite append_assoc. now apply next_token. }
  cbn [skipLoop]. rewrite E. cbv iota beta. now rewrite Hs.
Qed.

(** One closing token lowers it, and ends the skip when it reaches 0. *)
Lemma skipLoop_close (fuel n : nat) (p name rest : string) :
  tok_ok (p, Close name) = true ->
  skipLoop (S fuel) (S n) (tok_text (p, Close name) ++ rest)
  = match n with
    | O => Ok rest
    | S _ => skipLoop fuel n rest
    end.
Proof.
  unfold tok_ok, tok_text. simpl fst. simpl snd. intros H.
  apply andb_prop in H. destruct H as [Hp Hn].
  apply negb_true_iff in Hp, Hn.
  rewrite append_assoc.
  assert (E : next (p ++ ("</" ++ name ++ ">") ++ rest)
              = (p, "</" ++ name ++ ">", rest)).
  { simpl. rewrite append_assoc.
    apply (next_token p (String "/" name) rest Hp). simpl. exact Hn. }
  cbn [skipLoop]. rewrite E. reflexivity.
Qed.

(** Properly nested tokens leave the counter of [skipValue] where it was,
    as long as it is not 0. *)
Lemma skipLoop_nested (ts : list (string * tok)) :
  nested ts -> forallb tok_ok ts = true ->
  forall fuel n rest,
  skipLoop (List.length ts + fuel) (S n) (toks_text ts ++ rest)
  = skipLoop fuel (S n) rest.
Proof.
  induction 1 as [|p name ts p' name' ts' Hts IH Hts' IH'];
    intros Hok fuel n rest; [reflexivity|].
  cbn [forallb] in Hok. apply andb_prop in Hok. destruct Hok as [Hopen Hok].
  rewrite forallb_app in Hok. apply andb_prop in Hok.
  destruct Hok as [Hin Hok]. cbn [forallb] in Hok.
  apply andb_prop in Hok. destruct Hok as [Hclose Hout].
  cbn [toks_text List.length]. rewrite toks_text_app. cbn [toks_text].
  rewrite !append_assoc. cbn [Nat.add].
  rewrite skipLoop_open by exact Hopen.
  rewrite length_app. cbn [List.length].
  replace (List.length ts + S (List.length ts') + fuel)%nat
    with (List.length ts + S (List.length ts' + fuel))%nat by lia.
  rewrite IH by exact Hin.
  rewrite skipLoop_close by exact Hclose.
  now apply IH'.
Qed.

Lemma tok_text_length (pt : string * tok) :
  (1 <= String.length (tok_text pt))%nat.
Proof.
  destruct pt as [p [n|n]]; unfold tok_text; simpl fst; simpl snd;
    rewrite length_append; simpl; lia.
Qed.

Lemma toks_text_length (ts : list (string * tok)) :
  (List.length ts <= String.length (toks_text ts))%nat.
Proof.
  induction ts as [|pt ts IH]; simpl; [lia|].
  rewrite length_append. pose proof (tok_text_length pt). lia.
Qed.

(** [skipValue] consumes exactly one value that has no self-closing
    token: an opening token, properly nested tokens, a closing token. *)
Lemma skipValue_nested (p1 n1 : string) (inner : list (string * tok))
    (p2 n2 rest : string) :
  nested inner ->
  forallb tok_ok ((p1, Open n1) :: inner ++ [(p2, Close n2)]) = true ->
  skipValue (toks_text ((p1, Open n1) :: inner ++ [(p2, Close n2)]) ++ rest)
  = Ok rest.
Proof.
  intros Hn Hok.
  assert (E : skipLoop (S (List.length inner + 1)) 0
                (toks_text ((p1, Open n1) :: inner ++ [(p2, Close n2)])
                 ++ rest)
              = Ok rest).
  { cbn [forallb] in Hok. apply andb_prop in Hok. destruct Hok as [Hopen Hok].
    rewrite forallb_app in Hok. apply andb_prop in Hok.
    destruct Hok as [Hin Hok]. cbn [forallb] in Hok.
    apply andb_prop in Hok. destruct Hok as [Hclose _].
    cbn [toks_text]. rewrite toks_text_app. cbn [toks_text].
    rewrite !append_assoc.
    rewrite skipLoop_open by exact Hopen.
    rewrite skipLoop_nested by trivial.
    replace 1%nat with (S 0) by reflexivity.
    now rewrite skipLoop_close by exact Hclose. }
  unfold skipValue. rewrite <- E. apply skipLoop_mono; [|now rewrite E].
  rewrite length_append.
  pose proof (toks_text_length ((p1, Open n1) :: inner ++ [(p2, Close n2)]))
    as Hl.
  cbn [List.length] in Hl. rewrite length_app in Hl. cbn [List.length] in Hl.
  lia.
Qed.

Example skipValue_nested_example :
  skipValue
    (toks_text ((" ", Open "array")
                :: [(EmptyString, Open "string"); ("x", Close "string")]
                ++ [(" ", Close "array")])
     ++ "<key>b</key>")
  = Ok "<key>b</key>".
Proof.
  apply (skipValue_nested " " "array"
           [(EmptyString, Open "string"); ("x", Close "string")]
           " " "array" "<key>b</key>").
  - apply (nested_cons EmptyString "string" [] "x" "string" []); constructor.
  - reflexivity.
Defined.

(** The loop of the [<dict>] case on a struct without fields skips every
    entry whose value has no self-closing token, and leaves the struct as
    it is. *)
Lemma dictLoop_no_fields (lib : Library) (pad rest sname : string) (fl : flag)
    (x : value) (es : list (string * string * list (string * tok))) :
  occurs "<" pad = false ->
  Forall dict_entry_ok es ->
  forall fuel, (List.length es < fuel)%nat ->
  dictLoop lib fuel (dict_text es ++ pad ++ "</dict>" ++ rest)
    (MkValue (TStruct sname []) fl x)
  = (Ok rest, MkValue (TStruct sname []) fl x).
Proof.
  intros Hpad Hes. induction Hes as [|[[p key] ts] es He Hes IH];
    intros [|fuel] Hfuel; simpl List.length in Hfuel; try lia.
  - assert (Hn : next (dict_text [] ++ pad ++ "</dict>" ++ rest)
                 = (pad, "</dict>", rest))
      by exact (next_token pad "/dict" _ Hpad eq_refl).
    cbn [dictLoop]. now rewrite Hn.
  - destruct He as (Hp & Hkey & Hok & p1 & n1 & inner & p2 & n2 & -> & Hnest).
    cbn [dict_text]. rewrite !append_assoc.
    assert (H1 : next (p ++ "<key>" ++ key ++ "</key>"
                       ++ toks_text ((p1, Open n1) :: inner ++ [(p2, Close n2)])
                       ++ dict_text es ++ pad ++ "</dict>" ++ rest)
                 = (p, "<key>",
                    key ++ "</key>"
                    ++ toks_text ((p1, Open n1) :: inner ++ [(p2, Close n2)])
                    ++ dict_text es ++ pad ++ "</dict>" ++ rest))
      by exact (next_token p "key" _ Hp eq_refl).
    rewrite (dictLoop_key lib fuel _ _ _ _ _ _ H1
               (next_body key "key" _ Hkey eq_refl)).
    cbn [Type_Fields fieldIndex].
    rewrite (skipValue_nested _ _ _ _ _ _ Hnest Hok).
    apply IH. lia.
Qed.

Lemma dict_text_length (es : list (string * string * list (string * tok))) :
  (List.length es <= String.length (dict_text es))%nat.
Proof.
  induction es as [|[[p key] ts] es IH]; simpl; [lia|].
  rewrite length_append. simpl. rewrite length_append. simpl.
  rewrite length_append. lia.
Qed.

(** A mapping document whose values have no self-closing token decodes
    into a pointer to a struct without fields: every entry is skipped,
    there is no error, and the destination is left as it was. *)
Theorem empty_struct_accepts_documents_without_booleans (lib : Library)
    (data root p0 pad p1 trail sname : string)
    (es : list (string * string * list (string * tok))) :
  first_significant data root
    (p0 ++ "<dict>" ++ dict_text es ++ pad ++ "</dict>"
     ++ p1 ++ "</plist>" ++ trail) ->
  HasPrefix root "<plist" = true ->
  occurs "<" p0 = false -> occurs "<" pad = false -> occurs "<" p1 = false ->
  Forall dict_entry_ok es ->
  Unmarshal lib data (Some (TPtr (TStruct sname []), VPtr (Some (VStruct []))))
  = (Ok tt,
     ValueOf (Some (TPtr (TStruct sname []), VPtr (Some (VStruct []))))).
Proof.
  intros Hfs Hroot Hp0 Hpad Hp1 Hes. unfold Unmarshal.
  rewrite (rootLoop_first_significant _ _ _ Hfs) by lia. rewrite Hroot.
  set (d1 := p0 ++ "<dict>" ++ dict_text es ++ pad ++ "</dict>"
             ++ p1 ++ "</plist>" ++ trail).
  set (v := ValueOf (Some (TPtr (TStruct sname []), VPtr (Some (VStruct []))))).
  assert (E : unmarshalValue lib (S (S (List.length es))) d1 v
              = (Ok (p1 ++ "</plist>" ++ trail), v)).
  { assert (Hn : next d1
                 = (p0, "<dict>",
                    dict_text es ++ pad ++ "</dict>"
                    ++ p1 ++ "</plist>" ++ trail))
      by exact (next_token p0 "dict" _ Hp0 eq_refl).
    rewrite (unmarshalValue_step lib _ _ _ _ _ v _ Hn eq_refl eq_refl).
    unfold finish, target, dispatch. simpl String.eqb. cbv iota.
    cbn [Value_Kind Type_Kind Kind_eqb negb].
    now rewrite (dictLoop_no_fields lib pad _ sname _ _ es Hpad Hes) by lia. }
  destruct (decoder_mono lib (S (S (List.length es))) (enough d1)) as (Hm & _).
  { pose proof (dict_text_length es) as Hl. unfold enough, d1.
    rewrite length_append. simpl. rewrite length_append. lia. }
  rewrite Hm, E by now rewrite E.
  assert (Hc : next (p1 ++ "</plist>" ++ trail) = (p1, "</plist>", trail))
    by exact (next_token p1 "/plist" _ Hp1 eq_refl).
  now rewrite Hc.
Qed.

Lemma empty_struct_accepts_witness :
  Unmarshal example_lib
    "<?xml?><plist> <dict> <key>a</key> <array><string>x</string></array></dict></plist>"
    (Some (TPtr (TStruct "struct {}" []), VPtr (Some (VStruct []))))
  = (Ok tt,
     ValueOf (Some (TPtr (TStruct "struct {}" []), VPtr (Some (VStruct []))))).
Proof.
  apply (empty_struct_accepts_documents_without_booleans example_lib
           _ "<plist>" " " EmptyString EmptyString EmptyString "struct {}"
           [(" ", "a",
             [(" ", Open "array"); (EmptyString, Open "string");
              ("x", Close "string"); (EmptyString, Close "array")])]).
  - apply (fs_skip _ EmptyString "<?xml?>"
             "<plist> <dict> <key>a</key> <array><string>x</string></array></dict></plist>");
      [reflexivity | reflexivity |].
    apply (fs_here _ EmptyString); reflexivity.
  - reflexivity.
  - reflexivity.
  - reflexivity.
  - reflexivity.
  - constructor; [|constructor].
    repeat split.
    exists " ", "array", [(EmptyString, Open "string"); ("x", Close "string")],
      EmptyString, "array".
    split; [reflexivity|].
    apply (nested_cons EmptyString "string" [] "x" "string" []); constructor.
Defined.

(** * Further properties of the code *)

(** ** The scanner *)

Lemma occurs_append (c : ascii) (a b : string) :
  occurs c (a ++ b) = occurs c a || occurs c b.
Proof.
  induction a as [|x a IH]; simpl; [reflexivity|].
  now rewrite IH, orb_assoc.
Qed.

Lemma next_concat (data skip tag rest : string) :
  next data = (skip, tag, rest) -> String.eqb tag nil = false ->
  data = skip ++ tag ++ rest.
Proof.
  intros H Ht.
  destruct (next_cases data) as [E | (pre & mid & r & -> & _ & _ & E)];
    rewrite E in H; inversion H; subst; [discriminate|].
  simpl. now rewrite append_assoc.
Qed.



Lemma occurs_here (c : ascii) (a b : string) :
  occurs c (a ++ String c b) = true.
Proof.
  rewrite occurs_append. simpl. rewrite Ascii.eqb_refl.
  apply orb_true_r.
Qed.

Lemma unclosed_is_no_token (p q pre mid rest : string) :
  occurs "<" p = false -> occurs ">" q = false ->
  p ++ String "<" q <> pre ++ String "<" (mid ++ String ">" rest).
Proof.
  revert pre. induction p as [|a p IH]; intros [|b pre] Hp Hq E;
    simpl in *.
  - injection E as ->. rewrite occurs_here in Hq. discriminate.
  - injection E as <- ->.
    change (pre ++ String "<" (mid ++ String ">" rest))
      with (pre ++ ("<" ++ mid) ++ String ">" rest) in Hq.
    rewrite <- append_assoc, occurs_here in Hq. discriminate.
  - injection E as -> _. rewrite Ascii.eqb_refl in Hp. discriminate.
  - injection E as <- E. apply orb_false_elim in Hp. destruct Hp as [_ Hp].
    exact (IH pre Hp Hq E).
Qed.

(** The scanner answers the nil token exactly when the span holds no ['<']
    that is followed, somewhere, by a ['>']. *)
Theorem next_nil_token_iff (data : string) :
  snd (fst (next data)) = nil
  <-> forall pre mid rest,
        data <> pre ++ String "<" (mid ++ String ">" rest).
Proof.
  split.
  - intros H pre mid rest ->.
    destruct (shape_of (pre ++ String "<" (mid ++ String ">" rest)))
      as [[Hno | p q E Hp Hq | p m r E Hp Hm]].
    + rewrite occurs_here in Hno. discriminate.
    + symmetry in E. exact (unclosed_is_no_token _ _ _ _ _ Hp Hq E).
    + rewrite E, (next_token _ _ _ Hp Hm) in H. discriminate.
  - intros H.
    destruct (next_cases data) as [E | (pre & mid & r & E & _)];
      [now rewrite E | now elim (H pre mid r)].
Qed.

(** Text without ['<'] before a span only adds to the text before the
    token. *)
Lemma next_lead (pad data : string) :
  occurs "<" pad = false ->
  next (pad ++ data)
  = (let '(skip, tag, rest) := next data in
     if String.eqb tag nil then (pad ++ data, nil, nil)
     else (pad ++ skip, tag, rest)).
Proof.
  intros Hpad.
  destruct (shape_of data) as [[Hno | p q -> Hp Hq | p m r -> Hp Hm]].
  - rewrite (next_no_open data Hno). simpl. apply next_no_open.
    now rewrite occurs_append, Hpad, Hno.
  - rewrite (next_unclosed _ _ Hp Hq). simpl.
    rewrite <- append_assoc. apply next_unclosed; [|exact Hq].
    now rewrite occurs_append, Hpad, Hp.
  - rewrite (next_token _ _ _ Hp Hm). simpl.
    rewrite <- append_assoc. apply next_token; [|exact Hm].
    now rewrite occurs_append, Hpad, Hp.
Qed.

(** The token and the rest do not depend on text before the span. *)
Lemma next_lead_tag (pad data : string) :
  occurs "<" pad = false ->
  snd (fst (next (pad ++ data))) = snd (fst (next data))
  /\ (String.eqb (snd (fst (next data))) nil = false ->
      snd (next (pad ++ data)) = snd (next data)).
Proof.
  intros Hpad. rewrite (next_lead _ _ Hpad).
  destruct (next data) as [[skip tag] rest]. simpl.
  destruct (String.eqb tag nil) eqn:E; simpl.
  - apply String.eqb_eq in E. now subst.
  - now split.
Qed.

(** ** Text and declarations the decoder passes over *)

Lemma unmarshalValue_lead (lib : Library) (fuel : nat) (pad data : string)
    (v : Value) :
  occurs "<" pad = false ->
  unmarshalValue lib fuel (pad ++ data) v = unmarshalValue lib fuel data v.
Proof.
  intros Hpad. destruct fuel as [|fuel]; [reflexivity|].
  cbn [unmarshalValue]. rewrite (next_lead _ _ Hpad).
  destruct (next data) as [[skip tag] rest].
  destruct (String.eqb tag nil) eqn:E; [reflexivity | now rewrite E].
Qed.

Lemma skipLoop_lead (fuel n : nat) (pad data : string) :
  occurs "<" pad = false ->
  skipLoop fuel n (pad ++ data) = skipLoop fuel n data.
Proof.
  intros Hpad. destruct fuel as [|fuel]; [reflexivity|].
  cbn [skipLoop]. rewrite (next_lead _ _ Hpad).
  destruct (next data) as [[skip tag] rest].
  destruct (String.eqb tag nil) eqn:E; [|reflexivity].
  apply String.eqb_eq in E. now subst tag.
Qed.

Lemma rootLoop_lead (fuel : nat) (pad data : string) :
  occurs "<" pad = false ->
  rootLoop fuel (pad ++ data) = rootLoop fuel data.
Proof.
  intros Hpad. destruct fuel as [|fuel]; [reflexivity|].
  cbn [rootLoop]. rewrite (next_lead _ _ Hpad).
  destruct (next data) as [[skip tag] rest].
  destruct (String.eqb tag nil) eqn:E; [|reflexivity].
  apply String.eqb_eq in E. now subst tag.
Qed.

Lemma skipLoop_enough (fuel : nat) (data : string) :
  (String.length data < fuel)%nat ->
  skipLoop fuel 0 data = skipValue data.
Proof.
  intros H. apply skipLoop_mono; [lia | apply skipValue_terminates].
Qed.

Lemma rootLoop_enough (fuel : nat) (data : string) :
  (String.length data < fuel)%nat ->
  rootLoop fuel data = rootLoop (S (String.length data)) data.
Proof.
  intros H. apply rootLoop_mono; [lia | apply rootLoop_terminates; lia].
Qed.

(** Text without ['<'] before a value, before the value that is skipped,
    or before the document changes nothing: white space and any other text
    between tokens is passed over. *)
Theorem leading_text_is_ignored (lib : Library) (fuel : nat)
    (pad data : string) (v : Value) (i : option (rtype * value)) :
  occurs "<" pad = false ->
  unmarshalValue lib fuel (pad ++ data) v = unmarshalValue lib fuel data v
  /\ skipValue (pad ++ data) = skipValue data
  /\ Unmarshal lib (pad ++ data) i = Unmarshal lib data i.
Proof.
  intros Hpad. split; [now apply unmarshalValue_lead|]. split.
  - unfold skipValue at 1. rewrite (skipLoop_lead _ _ _ _ Hpad).
    apply skipLoop_enough. rewrite length_append. lia.
  - unfold Unmarshal. rewrite (rootLoop_lead _ _ _ Hpad).
    rewrite (rootLoop_enough (S (String.length (pad ++ data))))
      by (rewrite length_append; lia).
    reflexivity.
Qed.

Lemma leading_text_is_ignored_witness :
  unmarshalValue example_lib 2 (" junk " ++ "<true/>") (New_Elem t_bool)
  = unmarshalValue example_lib 2 "<true/>" (New_Elem t_bool)
  /\ skipValue (" junk " ++ "<true/>") = skipValue "<true/>"
  /\ Unmarshal example_lib (" junk " ++ "<true/>") (New t_bool)
     = Unmarshal example_lib "<true/>" (New t_bool).
Proof.
  apply (leading_text_is_ignored example_lib 2 " junk " "<true/>"
           (New_Elem t_bool) (New t_bool)).
  reflexivity.
Defined.

Lemma prefix_empty (b : string) : String.prefix EmptyString b = true.
Proof. now destruct b. Qed.

(** A token that begins with [<?xml] or with [<!DOCTYPE], and the text
    before it, are dropped by [Unmarshal] wherever they stand before the
    root tag. *)
Theorem declarations_are_skipped (lib : Library)
    (pad attrs data : string) (i : option (rtype * value)) :
  occurs "<" pad = false -> occurs ">" attrs = false ->
  Unmarshal lib (pad ++ "<?xml" ++ attrs ++ ">" ++ data) i
  = Unmarshal lib data i
  /\ Unmarshal lib (pad ++ "<!DOCTYPE" ++ attrs ++ ">" ++ data) i
     = Unmarshal lib data i.
Proof.
  intros Hpad Hattrs. split; unfold Unmarshal.
  - assert (Hn : next (pad ++ "<?xml" ++ attrs ++ ">" ++ data)
                 = (pad, "<?xml" ++ attrs ++ ">", data)).
    { pose proof (next_token pad ("?xml" ++ attrs) data Hpad Hattrs) as H.
      simpl in H |- *. exact H. }
    assert (Hx : HasPrefix ("<?xml" ++ attrs ++ ">") "<?xml" = true)
      by (unfold HasPrefix; simpl; apply prefix_empty).
    cbn [rootLoop]. rewrite Hn. cbv iota beta. rewrite Hx.
    cbn [orb]. rewrite rootLoop_enough; [reflexivity|].
    repeat (rewrite length_append; simpl). lia.
  - assert (Hn : next (pad ++ "<!DOCTYPE" ++ attrs ++ ">" ++ data)
                 = (pad, "<!DOCTYPE" ++ attrs ++ ">", data)).
    { pose proof (next_token pad ("!DOCTYPE" ++ attrs) data Hpad Hattrs) as H.
      simpl in H |- *. exact H. }
    assert (Hx : HasPrefix ("<!DOCTYPE" ++ attrs ++ ">") "<?xml" = false)
      by reflexivity.
    assert (Hd : HasPrefix ("<!DOCTYPE" ++ attrs ++ ">") "<!DOCTYPE" = true)
      by (unfold HasPrefix; simpl; apply prefix_empty).
    cbn [rootLoop]. rewrite Hn. cbv iota beta. rewrite Hx, Hd.
    cbn [orb]. rewrite rootLoop_enough; [reflexivity|].
    repeat (rewrite length_append; simpl). lia.
Qed.

Lemma declarations_are_skipped_witness :
  Unmarshal example_lib
    (" " ++ "<?xml" ++ " version=1.0?" ++ ">" ++ "<plist><true/></plist>")
    (New t_bool)
  = Unmarshal example_lib "<plist><true/></plist>" (New t_bool)
  /\ Unmarshal example_lib
       (" " ++ "<!DOCTYPE" ++ " version=1.0?" ++ ">"
        ++ "<plist><true/></plist>")
       (New t_bool)
     = Unmarshal example_lib "<plist><true/></plist>" (New t_bool).
Proof.
  apply (declarations_are_skipped example_lib " " " version=1.0?"
           "<plist><true/></plist>" (New t_bool)); reflexivity.
Defined.

(** ** What a successful call consumes *)

Lemma suffix_refl (data : string) : suffix data data.
Proof. now exists EmptyString. Qed.

Lemma suffix_trans (a b c : string) : suffix a b -> suffix b c -> suffix a c.
Proof.
  intros [x ->] [y ->]. exists (y ++ x). now rewrite append_assoc.
Qed.

Lemma next_suffix (data skip tag rest : string) :
  next data = (skip, tag, rest) -> String.eqb tag nil = false ->
  suffix rest data.
Proof.
  intros H Ht.
  rewrite (next_concat _ _ _ _ H Ht).
  exists (skip ++ tag). now rewrite append_assoc.
Qed.

Lemma skipLoop_suffix (fuel n : nat) (data rest : string) :
  skipLoop fuel n data = Ok rest -> suffix rest data.
Proof.
  revert n data. induction fuel as [|fuel IH]; intros n data H;
    [discriminate|].
  cbn [skipLoop] in H. destruct (next data) as [[skip tag] r] eqn:Hn.
  destruct (len tag =? 0) eqn:Hl; [discriminate|].
  rewrite len_eqb_0 in Hl. pose proof (next_suffix _ _ _ _ Hn Hl) as Hs.
  destruct (Ascii.eqb (byte_at tag 1) "/").
  - destruct n as [|[|n]]; [discriminate | now inversion H; subst |].
    exact (suffix_trans _ _ _ (IH _ _ H) Hs).
  - exact (suffix_trans _ _ _ (IH _ _ H) Hs).
Qed.

Lemma scalar_suffix (name what : string) (xt : rtype)
    (conv : string -> option value) (data rest : string) (v v' : Value) :
  scalar name what xt conv data v = (Ok rest, v') -> suffix rest data.
Proof.
  unfold scalar. destruct (next data) as [[body etag] r] eqn:Hn.
  destruct (len etag =? 0) eqn:Hl; [discriminate|].
  rewrite len_eqb_0 in Hl. pose proof (next_suffix _ _ _ _ Hn Hl) as Hs.
  destruct (negb _); [discriminate|].
  destruct (conv body); [|discriminate].
  destruct (Value_Set v xt v0); [discriminate|]. now intros [= <- <-].
Qed.

Lemma dispatch_suffix (lib : Library) (dict array : string -> Value -> result)
    (tag data rest : string) (v v' : Value) :
  (forall d w r w', dict d w = (Ok r, w') -> suffix r d) ->
  (forall d w r w', array d w = (Ok r, w') -> suffix r d) ->
  dispatch lib dict array tag data v = (Ok rest, v') -> suffix rest data.
Proof.
  intros Hd Ha. unfold dispatch.
  destruct (String.eqb tag "<dict>").
  { destruct v; [discriminate|]. destruct (negb _); [discriminate | apply Hd]. }
  destruct (String.eqb tag "<array>").
  { destruct v; [discriminate|]. destruct (negb _); [discriminate | apply Ha]. }
  repeat match goal with
         | |- context [if ?c then _ else _] =>
             destruct c; [solve [apply scalar_suffix] |]
         end;
    unfold boolean;
    repeat match goal with
           | |- context [if ?c then _ else _] => destruct c
           | |- context [Value_Set ?a ?b ?c] => destruct (Value_Set a b c)
           end;
    try discriminate; intros [= <- <-]; apply suffix_refl.
Qed.

(** The rest a call returns is what is left of its input. *)
Lemma decoder_suffix (lib : Library) (fuel : nat) :
  (forall data v rest v', unmarshalValue lib fuel data v = (Ok rest, v') ->
     suffix rest data)
  /\ (forall data v rest v', dictLoop lib fuel data v = (Ok rest, v') ->
        suffix rest data)
  /\ (forall data v rest v', arrayLoop lib fuel data v = (Ok rest, v') ->
        suffix rest data).
Proof.
  induction fuel as [|fuel (IHu & IHd & IHa)];
    [repeat split; discriminate|].
  repeat split; intros data v rest v' H.
  - cbn [unmarshalValue] in H. destruct (next data) as [[skip tag] r] eqn:Hn.
    destruct (String.eqb tag nil) eqn:Ht; [discriminate|].
    pose proof (next_suffix _ _ _ _ Hn Ht) as Hs.
    destruct (indirect v) as [p | [[v1 e1]|]]; [discriminate | |].
    + destruct (dispatch lib (dictLoop lib fuel) (arrayLoop lib fuel)
                  tag r e1) as [o e2] eqn:E.
      injection H as -> <-.
      exact (suffix_trans _ _ _
               (dispatch_suffix lib _ _ _ _ _ _ _ IHd IHa E) Hs).
    + exact (suffix_trans _ _ _
               (dispatch_suffix lib _ _ _ _ _ _ _ IHd IHa H) Hs).
  - cbn [dictLoop] in H. destruct (next data) as [[skip tag] r] eqn:Hn.
    destruct (len tag =? 0) eqn:Hl; [discriminate|].
    rewrite len_eqb_0 in Hl. pose proof (next_suffix _ _ _ _ Hn Hl) as Hs.
    destruct (String.eqb tag "</dict>"); [now inversion H; subst|].
    destruct (negb (String.eqb tag "<key>")); [discriminate|].
    destruct (next r) as [[body tag'] r'] eqn:Hn'.
    destruct (len tag' =? 0) eqn:Hl'; [discriminate|].
    rewrite len_eqb_0 in Hl'. pose proof (next_suffix _ _ _ _ Hn' Hl') as Hs'.
    destruct (negb (String.eqb tag' "</key>")); [discriminate|].
    destruct v as [|t fl x]; [discriminate|].
    pose proof (suffix_trans _ _ _ Hs' Hs) as Hs2.
    destruct (fieldIndex (Type_Fields t) body 0) as [i|].
    + destruct (Value_Field (MkValue t fl x) i) as [p|f]; [discriminate|].
      destruct (unmarshalValue lib fuel r' f) as [o f'] eqn:E.
      destruct o; try discriminate.
      exact (suffix_trans _ _ _ (IHd _ _ _ _ H)
               (suffix_trans _ _ _ (IHu _ _ _ _ E) Hs2)).
    + destruct (skipValue r') eqn:E; try discriminate.
      exact (suffix_trans _ _ _ (IHd _ _ _ _ H)
               (suffix_trans _ _ _ (skipLoop_suffix _ _ _ _ E) Hs2)).
  - cbn [arrayLoop] in H. destruct (next data) as [[skip tag] r] eqn:Hn.
    destruct (len tag =? 0) eqn:Hl; [discriminate|].
    rewrite len_eqb_0 in Hl. pose proof (next_suffix _ _ _ _ Hn Hl) as Hs.
    destruct (String.eqb tag "</array>"); [now inversion H; subst|].
    destruct v as [|t fl x]; [discriminate|].
    destruct (unmarshalValue lib fuel data (New_Elem (Type_Elem t)))
      as [o e] eqn:E.
    destruct o; try discriminate.
    destruct (Set_Append (MkValue t fl x) e); [discriminate|].
    exact (suffix_trans _ _ _ (IHa _ _ _ _ H) (IHu _ _ _ _ E)).
Qed.

(** A successful [unmarshalValue] consumes a front part of its input, at
    least one token long, and hands back the bytes after it. *)
Theorem decode_consumes_a_prefix (lib : Library) (fuel : nat)
    (data rest : string) (v v' : Value) :
  unmarshalValue lib fuel data v = (Ok rest, v') ->
  exists consumed,
    data = consumed ++ rest /\ (2 <= String.length consumed)%nat.
Proof.
  intros H. destruct (decoder_suffix lib fuel) as (Hs & _).
  destruct (decoder_shorter lib fuel) as (Hl & _).
  destruct (Hs _ _ _ _ H) as [consumed ->]. exists consumed.
  split; [reflexivity|]. apply Hl in H. rewrite length_append in H. lia.
Qed.

Lemma decode_consumes_a_prefix_witness :
  exists consumed,
    " <string>x</string> <key>" = consumed ++ " <key>"
    /\ (2 <= String.length consumed)%nat.
Proof.
  apply (decode_consumes_a_prefix example_lib 2 " <string>x</string> <key>"
           " <key>" (New_Elem t_string)
           (MkValue t_string (mkFlag true false false) (VString "x"))).
  reflexivity.
Defined.

(** ** Skipping a value and decoding it *)

Lemma has_self_closing_append (a b : string) :
  has_self_closing (a ++ b) = false ->
  has_self_closing a = false /\ has_self_closing b = false.
Proof.
  induction a as [|x a IH]; simpl; [now split|].
  intros H. apply orb_false_elim in H. destruct H as [H1 H2].
  destruct (IH H2) as [Ha Hb]. split; [|exact Hb].
  rewrite Ha, orb_false_r.
  destruct (Ascii.eqb x "/"); [|reflexivity]. simpl in *.
  destruct a as [|c a]; [reflexivity | exact H1].
Qed.

Lemma has_self_closing_suffix (rest data : string) :
  suffix rest data -> has_self_closing data = false ->
  has_self_closing rest = false.
Proof. intros [c ->] H. now apply has_self_closing_append in H. Qed.

Lemma reaches_trans (a b c : string) (i j k : nat) :
  reaches a b i j -> reaches b c j k -> reaches a c i k.
Proof.
  intros [m Hm] [n Hn]. exists (m + n)%nat. intros fuel.
  now rewrite <- Nat.add_assoc, Hm, Hn.
Qed.

Lemma reaches_ends (a b c : string) (i j : nat) :
  reaches a b i j -> ends b c j -> ends a c i.
Proof.
  intros [m Hm] [n Hn]. exists (m + n)%nat. intros fuel.
  now rewrite <- Nat.add_assoc, Hm, Hn.
Qed.

(** An opening token raises the counter. *)
Lemma reaches_open (data skip tag rest : string) (c : nat) :
  next data = (skip, tag, rest) -> String.eqb tag nil = false ->
  Ascii.eqb (byte_at tag 1) "/" = false ->
  reaches data rest c (S c).
Proof.
  intros Hn Ht Hb. exists 1%nat. intros fuel. cbn [Nat.add skipLoop].
  rewrite Hn. cbv iota beta. now rewrite len_eqb_0, Ht, Hb.
Qed.

(** A closing token lowers a counter above 1, and ends the skip at 1. *)
Lemma reaches_close (data skip tag rest : string) (n : nat) :
  next data = (skip, tag, rest) -> String.eqb tag nil = false ->
  Ascii.eqb (byte_at tag 1) "/" = true ->
  reaches data rest (S (S n)) (S n).
Proof.
  intros Hn Ht Hb. exists 1%nat. intros fuel. cbn [Nat.add skipLoop].
  rewrite Hn. cbv iota beta. now rewrite len_eqb_0, Ht, Hb.
Qed.

Lemma ends_close (data skip tag rest : string) :
  next data = (skip, tag, rest) -> String.eqb tag nil = false ->
  Ascii.eqb (byte_at tag 1) "/" = true ->
  ends data rest 1.
Proof.
  intros Hn Ht Hb. exists 1%nat. intros fuel. cbn [Nat.add skipLoop].
  rewrite Hn. cbv iota beta. now rewrite len_eqb_0, Ht, Hb.
Qed.

(** What [skipValue] consumed leaves a counter above 0 as it is. *)
Lemma skipLoop_reaches (fuel c : nat) (data rest : string) :
  skipLoop fuel c data = Ok rest ->
  forall j, reaches data rest (c + S j) (S j).
Proof.
  revert c data. induction fuel as [|fuel IH]; intros c data H j;
    [discriminate|].
  cbn [skipLoop] in H. destruct (next data) as [[skip tag] r] eqn:Hn.
  destruct (len tag =? 0) eqn:Hl; [discriminate|].
  rewrite len_eqb_0 in Hl.
  destruct (Ascii.eqb (byte_at tag 1) "/") eqn:Hb.
  - destruct c as [|[|c]]; [discriminate | |].
    + injection H as <-. exact (reaches_close _ _ _ _ j Hn Hl Hb).
    + apply (reaches_trans _ r _ _ (S c + S j)).
      * exact (reaches_close _ _ _ _ _ Hn Hl Hb).
      * exact (IH _ _ H j).
  - apply (reaches_trans _ r _ _ (S c + S j)).
    + exact (reaches_open _ _ _ _ _ Hn Hl Hb).
    + exact (IH _ _ H j).
Qed.

Lemma skipValue_ends (data rest : string) :
  skipValue data = Ok rest -> ends data rest 0.
Proof.
  intros H. exists (S (String.length data)). intros fuel.
  unfold skipValue in H. rewrite <- H.
  apply skipLoop_mono; [lia | now rewrite H].
Qed.

(** A scalar element after its opening token: a body and one closing
    token. *)
Lemma scalar_closes (name what : string) (xt : rtype)
    (conv : string -> option value) (data rest : string) (v v' : Value) :
  scalar name what xt conv data v = (Ok rest, v') ->
  ends data rest 1 /\ forall n, reaches data rest (S (S n)) (S n).
Proof.
  unfold scalar. destruct (next data) as [[body etag] r] eqn:Hn.
  destruct (len etag =? 0) eqn:Hl; [discriminate|].
  rewrite len_eqb_0 in Hl.
  destruct (String.eqb etag ("</" ++ name ++ ">")) eqn:He; [|discriminate].
  apply String.eqb_eq in He. simpl negb. cbv iota.
  destruct (conv body); [|discriminate].
  destruct (Value_Set v xt v0); [discriminate|]. intros [= <- <-].
  assert (Hb : Ascii.eqb (byte_at etag 1) "/" = true) by now subst etag.
  split; [exact (ends_close _ _ _ _ Hn Hl Hb)|].
  intros n. exact (reaches_close _ _ _ _ n Hn Hl Hb).
Qed.

Lemma dispatch_closes (lib : Library) (dict array : string -> Value -> result)
    (tag data rest : string) (v v' : Value) :
  (forall d w r w', dict d w = (Ok r, w') -> has_self_closing d = false ->
     ends d r 1 /\ forall n, reaches d r (S (S n)) (S n)) ->
  (forall d w r w', array d w = (Ok r, w') -> has_self_closing d = false ->
     ends d r 1 /\ forall n, reaches d r (S (S n)) (S n)) ->
  dispatch lib dict array tag data v = (Ok rest, v') ->
  has_self_closing tag = false -> has_self_closing data = false ->
  Ascii.eqb (byte_at tag 1) "/" = false
  /\ ends data rest 1 /\ forall n, reaches data rest (S (S n)) (S n).
Proof.
  intros Hd Ha. unfold dispatch.
  destruct (String.eqb tag "<dict>") eqn:E1.
  { apply String.eqb_eq in E1. subst tag.
    destruct v; [discriminate|]. destruct (negb _); [discriminate|].
    intros H _ Hs. split; [reflexivity | exact (Hd _ _ _ _ H Hs)]. }
  destruct (String.eqb tag "<array>") eqn:E2.
  { apply String.eqb_eq in E2. subst tag.
    destruct v; [discriminate|]. destruct (negb _); [discriminate|].
    intros H _ Hs. split; [reflexivity | exact (Ha _ _ _ _ H Hs)]. }
  destruct (String.eqb tag "<string>") eqn:E3.
  { apply String.eqb_eq in E3. subst tag. intros H _ _.
    split; [reflexivity | exact (scalar_closes _ _ _ _ _ _ _ _ H)]. }
  destruct (String.eqb tag "<integer>") eqn:E4.
  { apply String.eqb_eq in E4. subst tag. intros H _ _.
    split; [reflexivity | exact (scalar_closes _ _ _ _ _ _ _ _ H)]. }
  destruct (String.eqb tag "<real>") eqn:E5.
  { apply String.eqb_eq in E5. subst tag. intros H _ _.
    split; [reflexivity | exact (scalar_closes _ _ _ _ _ _ _ _ H)]. }
  destruct (String.eqb tag "<date>") eqn:E6.
  { apply String.eqb_eq in E6. subst tag. intros H _ _.
    split; [reflexivity | exact (scalar_closes _ _ _ _ _ _ _ _ H)]. }
  destruct (String.eqb tag "<data>") eqn:E7.
  { apply String.eqb_eq in E7. subst tag. intros H _ _.
    split; [reflexivity | exact (scalar_closes _ _ _ _ _ _ _ _ H)]. }
  destruct (String.eqb tag "<true/>") eqn:E8.
  { apply String.eqb_eq in E8. subst tag. discriminate. }
  destruct (String.eqb tag "<false/>") eqn:E9.
  { apply String.eqb_eq in E9. subst tag. discriminate. }
  discriminate.
Qed.

(** On input without [/>], what a successful call of the decoder consumed
    is one value for [skipValue] too (a call of a loop: the rest of a
    value, up to its closing token). *)
Lemma decoder_regions (lib : Library) (fuel : nat) :
  (forall data v rest v', unmarshalValue lib fuel data v = (Ok rest, v') ->
     has_self_closing data = false ->
     ends data rest 0 /\ forall n, reaches data rest (S n) (S n))
  /\ (forall data v rest v', dictLoop lib fuel data v = (Ok rest, v') ->
        has_self_closing data = false ->
        ends data rest 1 /\ forall n, reaches data rest (S (S n)) (S n))
  /\ (forall data v rest v', arrayLoop lib fuel data v = (Ok rest, v') ->
        has_self_closing data = false ->
        ends data rest 1 /\ forall n, reaches data rest (S (S n)) (S n)).
Proof.
  induction fuel as [|fuel (IHu & IHd & IHa)];
    [repeat split; discriminate|].
  destruct (decoder_suffix lib fuel) as (Su & _ & _).
  split; [|split]; intros data v rest v' H Hsc.
  - cbn [unmarshalValue] in H. destruct (next data) as [[skip tag] r] eqn:Hn.
    destruct (String.eqb tag nil) eqn:Ht; [discriminate|].
    pose proof Hsc as Hsc'. rewrite (next_concat _ _ _ _ Hn Ht) in Hsc'.
    apply has_self_closing_append in Hsc'. destruct Hsc' as [_ Hsc'].
    apply has_self_closing_append in Hsc'. destruct Hsc' as [Htag Hr].
    assert (K : forall w o w',
               dispatch lib (dictLoop lib fuel) (arrayLoop lib fuel) tag r w
               = (o, w') -> o = Ok rest ->
               ends data rest 0 /\ forall n, reaches data rest (S n) (S n)).
    { intros w o w' E ->.
      destruct (dispatch_closes lib _ _ _ _ _ _ _ IHd IHa E Htag Hr)
        as (Hb & He & Hre).
      split.
      - exact (reaches_ends _ _ _ _ _ (reaches_open _ _ _ _ 0 Hn Ht Hb) He).
      - intros n.
        exact (reaches_trans _ _ _ _ _ _
                 (reaches_open _ _ _ _ (S n) Hn Ht Hb) (Hre n)). }
    destruct (indirect v) as [p | [[v1 e1]|]]; [discriminate | |].
    + destruct (dispatch lib (dictLoop lib fuel) (arrayLoop lib fuel)
                  tag r e1) as [o e2] eqn:E.
      injection H as -> <-. exact (K _ _ _ E eq_refl).
    + exact (K _ _ _ H eq_refl).
  - cbn [dictLoop] in H. destruct (next data) as [[skip tag] r] eqn:Hn.
    destruct (len tag =? 0) eqn:Hl; [discriminate|].
    rewrite len_eqb_0 in Hl.
    pose proof Hsc as Hr. rewrite (next_concat _ _ _ _ Hn Hl) in Hr.
    apply has_self_closing_append in Hr. destruct Hr as [_ Hr].
    apply has_self_closing_append in Hr. destruct Hr as [_ Hr].
    destruct (String.eqb tag "</dict>") eqn:E1.
    { apply String.eqb_eq in E1. subst tag. injection H as <- <-.
      split; [exact (ends_close _ _ _ _ Hn Hl eq_refl)|].
      intros n. exact (reaches_close _ _ _ _ n Hn Hl eq_refl). }
    destruct (String.eqb tag "<key>") eqn:E2; [|discriminate].
    apply String.eqb_eq in E2. subst tag. simpl negb in H. cbv iota in H.
    destruct (next r) as [[body tag'] r'] eqn:Hn'.
    destruct (len tag' =? 0) eqn:Hl'; [discriminate|].
    rewrite len_eqb_0 in Hl'.
    pose proof Hr as Hr'. rewrite (next_concat _ _ _ _ Hn' Hl') in Hr'.
    apply has_self_closing_append in Hr'. destruct Hr' as [_ Hr'].
    apply has_self_closing_append in Hr'. destruct Hr' as [_ Hr'].
    destruct (String.eqb tag' "</key>") eqn:E3; [|discriminate].
    apply String.eqb_eq in E3. subst tag'. simpl negb in H. cbv iota in H.
    destruct v as [|t fl x]; [discriminate|].
    assert (K : forall d3 w,
               (forall j, reaches r' d3 (S j) (S j)) -> suffix d3 r' ->
               dictLoop lib fuel d3 w = (Ok rest, v') ->
               ends data rest 1
               /\ forall n, reaches data rest (S (S n)) (S n)).
    { intros d3 w Hv Hs3 Hd.
      destruct (IHd _ _ _ _ Hd (has_self_closing_suffix _ _ Hs3 Hr'))
        as [He Hre].
      assert (Hk : forall c, reaches data d3 (S c) (S c)).
      { intros c.
        apply (reaches_trans _ r _ _ (S (S c)));
          [exact (reaches_open _ _ _ _ _ Hn Hl eq_refl)|].
        apply (reaches_trans _ r' _ _ (S c));
          [exact (reaches_close _ _ _ _ _ Hn' Hl' eq_refl) | exact (Hv c)]. }
      split.
      - exact (reaches_ends _ _ _ _ _ (Hk 0%nat) He).
      - intros n. exact (reaches_trans _ _ _ _ _ _ (Hk (S n)) (Hre n)). }
    destruct (fieldIndex (Type_Fields t) body 0) as [i|].
    + destruct (Value_Field (MkValue t fl x) i) as [p|f]; [discriminate|].
      destruct (unmarshalValue lib fuel r' f) as [o f'] eqn:E.
      destruct o as [d3| | |]; try discriminate.
      destruct (IHu _ _ _ _ E Hr') as [_ Hv].
      exact (K _ _ Hv (Su _ _ _ _ E) H).
    + destruct (skipValue r') as [d3| | |] eqn:E; try discriminate.
      apply (K d3 (MkValue t fl x));
        [|exact (skipLoop_suffix _ _ _ _ E) | exact H].
      intros j. exact (skipLoop_reaches _ 0 _ _ E j).
  - cbn [arrayLoop] in H. destruct (next data) as [[skip tag] r] eqn:Hn.
    destruct (len tag =? 0) eqn:Hl; [discriminate|].
    rewrite len_eqb_0 in Hl.
    destruct (String.eqb tag "</array>") eqn:E1.
    { apply String.eqb_eq in E1. subst tag. injection H as <- <-.
      split; [exact (ends_close _ _ _ _ Hn Hl eq_refl)|].
      intros n. exact (reaches_close _ _ _ _ n Hn Hl eq_refl). }
    destruct v as [|t fl x]; [discriminate|].
    destruct (unmarshalValue lib fuel data (New_Elem (Type_Elem t)))
      as [o e] eqn:E.
    destruct o as [d'| | |]; try discriminate.
    destruct (Set_Append (MkValue t fl x) e); [discriminate|].
    destruct (IHu _ _ _ _ E Hsc) as [_ Hv].
    destruct (IHa _ _ _ _ H (has_self_closing_suffix _ _ (Su _ _ _ _ E) Hsc))
      as [He Hre].
    split.
    + exact (reaches_ends _ _ _ _ _ (Hv 0%nat) He).
    + intros n. exact (reaches_trans _ _ _ _ _ _ (Hv (S n)) (Hre n)).
Qed.

(** On input that nowhere holds [/>] (so no [<true/>] and no [<false/>]),
    skipping a value consumes exactly what decoding it consumes: whenever
    [unmarshalValue] succeeds, [skipValue] returns the same rest. *)
Theorem skip_agrees_with_decode (lib : Library) (fuel : nat)
    (data rest : string) (v v' : Value) :
  has_self_closing data = false ->
  unmarshalValue lib fuel data v = (Ok rest, v') ->
  skipValue data = Ok rest.
Proof.
  intros Hsc H. destruct (decoder_regions lib fuel) as (Hu & _).
  destruct (Hu _ _ _ _ H Hsc) as [[k Hk] _].
  rewrite <- (Hk (S (String.length data))). symmetry.
  apply skipLoop_mono; [lia | apply skipValue_terminates].
Qed.

Lemma skip_agrees_with_decode_witness :
  skipValue "<array><string>a</string> <string>b</string></array><key>k</key>"
  = Ok "<key>k</key>".
Proof.
  apply (skip_agrees_with_decode example_lib 9
           "<array><string>a</string> <string>b</string></array><key>k</key>"
           "<key>k</key>" (New_Elem (TSlice t_string))
           (MkValue (TSlice t_string) (mkFlag true false false)
              (VSlice [VString "a"; VString "b"])));
    reflexivity.
Defined.

(** ** Scalar elements *)

(** A well-formed scalar element decoded into a destination that is no
    pointer: the body is converted, at the bit size of the destination for
    a real, and the destination is set. *)
Lemma entry_decode (lib : Library) (fuel : nat) (pad : string) (e : entry)
    (rest : string) (v : Value) :
  occurs "<" pad = false -> occurs "<" (entry_body e) = false ->
  indirect v = inr None ->
  unmarshalValue lib (S fuel) (pad ++ entry_text e ++ rest) v
  = match entry_value_at lib (bitSize v) e with
    | None => (Err (entry_error e), v)
    | Some (xt, y) =>
        match Value_Set v xt y with
        | inl p => (Panics p, v)
        | inr v' => (Ok rest, v')
        end
    end.
Proof.
  intros Hpad Hbody Hi.
  destruct e as [b | b | b | b | b | |]; simpl entry_text; cbn [append];
    rewrite ?append_assoc; simpl entry_body in Hbody.
  - assert (Hn : next (pad ++ "<string>" ++ b ++ "</string>" ++ rest)
                 = (pad, "<string>", b ++ "</string>" ++ rest))
      by exact (next_token pad "string" _ Hpad eq_refl).
    enough (Hdec : unmarshalValue lib (S fuel)
                     (pad ++ "<string>" ++ b ++ "</string>" ++ rest) v
                   = match Value_Set v t_string (VString b) with
                     | inl p => (Panics p, v)
                     | inr v' => (Ok rest, v')
                     end) by exact Hdec.
    rewrite (unmarshalValue_step lib fuel _ _ _ _ v None Hn eq_refl Hi).
    unfold finish, target, dispatch, scalar. simpl String.eqb. cbv iota.
    scan (next_body b "string" rest Hbody eq_refl). reflexivity.
  - assert (Hn : next (pad ++ "<integer>" ++ b ++ "</integer>" ++ rest)
                 = (pad, "<integer>", b ++ "</integer>" ++ rest))
      by exact (next_token pad "integer" _ Hpad eq_refl).
    enough (Hdec : unmarshalValue lib (S fuel)
                     (pad ++ "<integer>" ++ b ++ "</integer>" ++ rest) v
                   = match entry_value_at lib (bitSize v) (EInteger b) with
                     | None => (Err (entry_error (EInteger b)), v)
                     | Some (xt, y) =>
                         match Value_Set v xt y with
                         | inl p => (Panics p, v)
                         | inr v' => (Ok rest, v')
                         end
                     end) by exact Hdec.
    rewrite (unmarshalValue_step lib fuel _ _ _ _ v None Hn eq_refl Hi).
    unfold finish, target, dispatch, scalar. simpl String.eqb. cbv iota.
    scan (next_body b "integer" rest Hbody eq_refl).
    simpl. now destruct (strconv_Atoi lib b).
  - assert (Hn : next (pad ++ "<real>" ++ b ++ "</real>" ++ rest)
                 = (pad, "<real>", b ++ "</real>" ++ rest))
      by exact (next_token pad "real" _ Hpad eq_refl).
    enough (Hdec : unmarshalValue lib (S fuel)
                     (pad ++ "<real>" ++ b ++ "</real>" ++ rest) v
                   = match entry_value_at lib (bitSize v) (EReal b) with
                     | None => (Err (entry_error (EReal b)), v)
                     | Some (xt, y) =>
                         match Value_Set v xt y with
                         | inl p => (Panics p, v)
                         | inr v' => (Ok rest, v')
                         end
                     end) by exact Hdec.
    rewrite (unmarshalValue_step lib fuel _ _ _ _ v None Hn eq_refl Hi).
    unfold finish, target, dispatch, scalar. simpl String.eqb. cbv iota.
    scan (next_body b "real" rest Hbody eq_refl).
    unfold bitSize. simpl.
    now destruct (strconv_ParseFloat lib b
                    (if Kind_eqb (Value_Kind v) (Basic Float32)
                     then 32 else 64)).
  - assert (Hn : next (pad ++ "<date>" ++ b ++ "</date>" ++ rest)
                 = (pad, "<date>", b ++ "</date>" ++ rest))
      by exact (next_token pad "date" _ Hpad eq_refl).
    enough (Hdec : unmarshalValue lib (S fuel)
                     (pad ++ "<date>" ++ b ++ "</date>" ++ rest) v
                   = match entry_value_at lib (bitSize v) (EDate b) with
                     | None => (Err (entry_error (EDate b)), v)
                     | Some (xt, y) =>
                         match Value_Set v xt y with
                         | inl p => (Panics p, v)
                         | inr v' => (Ok rest, v')
                         end
                     end) by exact Hdec.
    rewrite (unmarshalValue_step lib fuel _ _ _ _ v None Hn eq_refl Hi).
    unfold finish, target, dispatch, scalar. simpl String.eqb. cbv iota.
    scan (next_body b "date" rest Hbody eq_refl).
    simpl. now destruct (time_Parse lib b).
  - assert (Hn : next (pad ++ "<data>" ++ b ++ "</data>" ++ rest)
                 = (pad, "<data>", b ++ "</data>" ++ rest))
      by exact (next_token pad "data" _ Hpad eq_refl).
    enough (Hdec : unmarshalValue lib (S fuel)
                     (pad ++ "<data>" ++ b ++ "</data>" ++ rest) v
                   = match entry_value_at lib (bitSize v) (EData b) with
                     | None => (Err (entry_error (EData b)), v)
                     | Some (xt, y) =>
                         match Value_Set v xt y with
                         | inl p => (Panics p, v)
                         | inr v' => (Ok rest, v')
                         end
                     end) by exact Hdec.
    rewrite (unmarshalValue_step lib fuel _ _ _ _ v None Hn eq_refl Hi).
    unfold finish, target, dispatch, scalar. simpl String.eqb. cbv iota.
    scan (next_body b "data" rest Hbody eq_refl).
    simpl. now destruct (base64_DecodeString lib b).
  - assert (Hn : next (pad ++ "<true/>" ++ rest) = (pad, "<true/>", rest))
      by exact (next_token pad "true/" _ Hpad eq_refl).
    enough (Hdec : unmarshalValue lib (S fuel) (pad ++ "<true/>" ++ rest) v
                   = match Value_Set v t_bool (VBool true) with
                     | inl p => (Panics p, v)
                     | inr v' => (Ok rest, v')
                     end) by exact Hdec.
    now rewrite (unmarshalValue_step lib fuel _ _ _ _ v None Hn eq_refl Hi).
  - assert (Hn : next (pad ++ "<false/>" ++ rest) = (pad, "<false/>", rest))
      by exact (next_token pad "false/" _ Hpad eq_refl).
    enough (Hdec : unmarshalValue lib (S fuel) (pad ++ "<false/>" ++ rest) v
                   = match Value_Set v t_bool (VBool false) with
                     | inl p => (Panics p, v)
                     | inr v' => (Ok rest, v')
                     end) by exact Hdec.
    now rewrite (unmarshalValue_step lib fuel _ _ _ _ v None Hn eq_refl Hi).
Qed.

Lemma indirect_no_pointer (t : rtype) (fl : flag) (x : value) :
  Type_Kind t <> Ptr -> indirect (MkValue t fl x) = inr None.
Proof. intros H. destruct t; try reflexivity. now elim H. Qed.

Lemma entry_value_at_same_type (lib : Library) (e : entry) (t xt : rtype)
    (fl : flag) (x y : value) :
  entry_value lib e = Some (xt, y) -> rtype_eqb xt t = true ->
  entry_value_at lib (bitSize (MkValue t fl x)) e = Some (xt, y).
Proof.
  destruct e; try (intros H _; exact H).
  simpl. intros H Ht.
  destruct (strconv_ParseFloat lib body 64) eqn:E; [|discriminate].
  injection H as <- <-. unfold bitSize.
  destruct t as [[] ?| | | |]; try discriminate Ht; simpl; now rewrite E.
Qed.

(** A well-formed scalar element decoded into a settable destination of
    the type of its value (a string into a [string], an integer into an
    [int], a real into a [float64], a date into a [time.Time], data into
    a [[]byte], a boolean into a [bool]) stores the value, whatever the
    destination held, and returns the bytes after the element. *)
Theorem scalar_into_its_type (lib : Library) (fuel : nat) (pad : string)
    (e : entry) (rest : string) (t xt : rtype) (fl : flag) (x y : value) :
  occurs "<" pad = false -> occurs "<" (entry_body e) = false ->
  entry_value lib e = Some (xt, y) ->
  rtype_eqb xt t = true -> Type_Kind t <> Ptr ->
  flagAddr fl = true -> flagRO fl = false ->
  unmarshalValue lib (S fuel) (pad ++ entry_text e ++ rest) (MkValue t fl x)
  = (Ok rest, MkValue t fl y).
Proof.
  intros Hpad Hbody Hv Ht Hk Ha Hro.
  rewrite (entry_decode lib fuel pad e rest _ Hpad Hbody
             (indirect_no_pointer _ _ _ Hk)).
  rewrite (entry_value_at_same_type lib e t xt fl x y Hv Ht).
  unfold Value_Set, assignTo. now rewrite Hro, Ha, Ht.
Qed.

Lemma scalar_into_its_type_witness :
  unmarshalValue example_lib 2 (" " ++ entry_text (EInteger "-42") ++ "</dict>")
    (MkValue t_int (mkFlag true false false) (VInt 7))
  = (Ok "</dict>", MkValue t_int (mkFlag true false false) (VInt (-42))).
Proof.
  apply (scalar_into_its_type example_lib 1 " " (EInteger "-42") "</dict>"
           t_int t_int (mkFlag true false false) (VInt 7) (VInt (-42)));
    try reflexivity.
  discriminate.
Defined.











(** ** Destinations that cannot receive a value *)

Lemma rootLoop_outcomes (fuel : nat) (data : string) :
  (exists d1, rootLoop fuel data = Ok d1)
  \/ rootLoop fuel data = Err "not a plist"
  \/ rootLoop fuel data = OutOfFuel.
Proof.
  revert data. induction fuel as [|fuel IH]; intros data; [now right; right|].
  cbn [rootLoop]. destruct (next data) as [[skip tag] r].
  destruct (HasPrefix tag "<?xml" || HasPrefix tag "<!DOCTYPE"); [apply IH|].
  destruct (negb (HasPrefix tag "<plist")); [now right; left|].
  left. now eexists.
Qed.

Lemma dispatch_ZeroValue (lib : Library)
    (dict array : string -> Value -> result) (tag data : string) :
  ((exists msg, fst (dispatch lib dict array tag data ZeroValue) = Err msg)
   \/ fst (dispatch lib dict array tag data ZeroValue) = Panics PanicZeroValue)
  /\ snd (dispatch lib dict array tag data ZeroValue) = ZeroValue.
Proof.
  unfold dispatch, scalar, boolean.
  repeat match goal with
         | |- context [if ?c then _ else _] => destruct c
         | |- context [let '(_, _) := ?c in _] => destruct c as [[? ?] ?]
         | |- context [match ?c with Some _ => _ | None => _ end] => destruct c
         end; simpl; split; try reflexivity;
    first [now right | left; now eexists].
Qed.

(** [Unmarshal] into a nil interface value never succeeds and never
    returns a value: the input is rejected with an error, or the first
    value of the document makes package [reflect] panic on the zero
    [Value]. *)
Theorem Unmarshal_into_nil_never_succeeds (lib : Library) (data : string) :
  ((exists msg, fst (Unmarshal lib data None) = Err msg)
   \/ fst (Unmarshal lib data None) = Panics PanicZeroValue)
  /\ snd (Unmarshal lib data None) = ZeroValue.
Proof.
  unfold Unmarshal.
  pose proof (rootLoop_terminates (S (String.length data)) data ltac:(lia))
    as Hr.
  destruct (rootLoop_outcomes (S (String.length data)) data)
    as [[d1 E] | [E | E]]; rewrite E in Hr |- *;
    [| split; [left; now eexists | reflexivity] | now elim Hr].
  unfold enough. simpl ValueOf.
  replace (2 * String.length d1 + 2)%nat
    with (S (2 * String.length d1 + 1)) by lia.
  cbn [unmarshalValue]. destruct (next d1) as [[skip tag] d2].
  destruct (String.eqb tag nil);
    [split; [left; now eexists | reflexivity]|].
  cbn [indirect].
  destruct (dispatch_ZeroValue lib
              (dictLoop lib (2 * String.length d1 + 1))
              (arrayLoop lib (2 * String.length d1 + 1)) tag d2) as [Ho Hv].
  destruct (dispatch lib _ _ tag d2 ZeroValue) as [o w].
  simpl in Ho, Hv. subst w.
  destruct Ho as [[msg ->] | ->]; split; try reflexivity;
    [left; now eexists | now right].
Qed.

(** [Unmarshal] into a nil pointer never decodes anything: a pointer
    passed by value cannot be set, so the first token of the document
    makes package [reflect] panic, and the only other outcomes are the two
    errors of an input without a root tag or without a token after it.
    The pointer stays nil. *)
Theorem Unmarshal_into_nil_pointer (lib : Library) (data : string)
    (e : rtype) :
  (fst (Unmarshal lib data (Some (TPtr e, VPtr None))) = Err "not a plist"
   \/ fst (Unmarshal lib data (Some (TPtr e, VPtr None)))
      = Err "unexpected end of data"
   \/ fst (Unmarshal lib data (Some (TPtr e, VPtr None)))
      = Panics PanicUnaddressable)
  /\ snd (Unmarshal lib data (Some (TPtr e, VPtr None)))
     = ValueOf (Some (TPtr e, VPtr None)).
Proof.
  unfold Unmarshal.
  pose proof (rootLoop_terminates (S (String.length data)) data ltac:(lia))
    as Hr.
  destruct (rootLoop_outcomes (S (String.length data)) data)
    as [[d1 E] | [E | E]]; rewrite E in Hr |- *;
    [| split; [now left | reflexivity] | now elim Hr].
  unfold enough. simpl ValueOf.
  replace (2 * String.length d1 + 2)%nat
    with (S (2 * String.length d1 + 1)) by lia.
  cbn [unmarshalValue]. destruct (next d1) as [[skip tag] d2].
  destruct (String.eqb tag nil);
    [split; [right; now left | reflexivity]|].
  simpl. split; [right; now right | reflexivity].
Qed.

(** ** Pointers *)

Lemma rtype_eqb_refl (t : rtype) : rtype_eqb t t = true.
Proof.
  induction t as [b n | | t IH | t IH | n fs]; simpl; try assumption;
    try reflexivity.
  - rewrite String.eqb_refl. now destruct b.
  - apply String.eqb_refl.
Qed.

(** Decoding through a pointer that is not nil is decoding into the
    variable it points to, which can be set unless the pointer came from
    an unexported field: the outcome is the same, and the pointer ends up
    pointing to what that variable became. *)
Theorem pointer_is_followed (lib : Library) (fuel : nat) (data : string)
    (e : rtype) (fl : flag) (x : value) :
  Type_Kind e <> Ptr ->
  unmarshalValue lib fuel data (MkValue (TPtr e) fl (VPtr (Some x)))
  = (fst (unmarshalValue lib fuel data
            (MkValue e (mkFlag true (flagStickyRO fl) (flagEmbedRO fl)) x)),
     store_elem (MkValue (TPtr e) fl (VPtr (Some x)))
       (snd (unmarshalValue lib fuel data
               (MkValue e (mkFlag true (flagStickyRO fl) (flagEmbedRO fl))
                  x)))).
Proof.
  intros Hk. destruct fuel as [|fuel]; [reflexivity|].
  cbn [unmarshalValue]. destruct (next data) as [[skip tag] rest].
  destruct (String.eqb tag nil); [reflexivity|].
  rewrite (indirect_no_pointer e _ x Hk).
  cbn [indirect IsNil Value_Elem].
  now destruct (dispatch lib _ _ tag rest _) as [o w].
Qed.

Lemma pointer_is_followed_witness :
  unmarshalValue example_lib 1 "<integer>5</integer>"
    (MkValue (TPtr t_int) (mkFlag false false false) (VPtr (Some (VInt 0))))
  = (fst (unmarshalValue example_lib 1 "<integer>5</integer>"
            (MkValue t_int (mkFlag true false false) (VInt 0))),
     store_elem
       (MkValue (TPtr t_int) (mkFlag false false false) (VPtr (Some (VInt 0))))
       (snd (unmarshalValue example_lib 1 "<integer>5</integer>"
               (MkValue t_int (mkFlag true false false) (VInt 0))))).
Proof.
  apply (pointer_is_followed example_lib 1 "<integer>5</integer>" t_int
           (mkFlag false false false) (VInt 0)).
  discriminate.
Defined.

(** When the input has a token, decoding into a settable nil pointer is
    decoding into a pointer to a new zero variable: the pointer is set
    before the token is looked at, so it stays allocated when the value
    is then rejected. *)
Theorem nil_pointer_is_allocated (lib : Library) (fuel : nat)
    (data skip tag rest : string) (e : rtype) (fl : flag) :
  next data = (skip, tag, rest) -> String.eqb tag nil = false ->
  flagAddr fl = true -> flagRO fl = false ->
  unmarshalValue lib (S fuel) data (MkValue (TPtr e) fl (VPtr None))
  = unmarshalValue lib (S fuel) data
      (MkValue (TPtr e) fl (VPtr (Some (Zero e)))).
Proof.
  intros Hn Ht Ha Hro. cbn [unmarshalValue]. rewrite Hn, Ht.
  cbn [indirect IsNil]. unfold Value_Set, assignTo.
  rewrite Hro, Ha. cbn [negb rtype_eqb]. now rewrite rtype_eqb_refl.
Qed.

Lemma nil_pointer_is_allocated_witness :
  unmarshalValue example_lib 1 "<oops>"
    (MkValue (TPtr t_int) (mkFlag true false false) (VPtr None))
  = unmarshalValue example_lib 1 "<oops>"
      (MkValue (TPtr t_int) (mkFlag true false false)
         (VPtr (Some (Zero t_int)))).
Proof.
  apply (nil_pointer_is_allocated example_lib 0 "<oops>" "" "<oops>" ""
           t_int (mkFlag true false false)); reflexivity.
Defined.

Lemma dispatch_into_pointer (lib : Library)
    (dict array : string -> Value -> result) (tag data : string)
    (e : rtype) (fl : flag) (x : value) :
  Type_Kind (time_Time lib) <> Ptr ->
  (exists msg,
     fst (dispatch lib dict array tag data (MkValue (TPtr e) fl x)) = Err msg)
  \/ (exists p,
        fst (dispatch lib dict array tag data (MkValue (TPtr e) fl x))
        = Panics p).
Proof.
  intros Hk.
  assert (Hd : rtype_eqb (time_Time lib) (TPtr e) = false)
    by (destruct (time_Time lib); try reflexivity; now elim Hk).
  unfold dispatch, scalar, boolean, Value_Set, assignTo.
  unfold t_string, t_int, t_float64, t_bytes, t_bool.
  cbn [Value_Kind Type_Kind Kind_eqb negb rtype_eqb]. rewrite Hd.
  repeat match goal with
         | |- context [if ?c then _ else _] => destruct c
         | |- context [let '(_, _) := ?c in _] => destruct c as [[? ?] ?]
         | |- context [match ?c with Some _ => _ | None => _ end] => destruct c
         end; simpl; first [left; now eexists | right; now eexists].
Qed.

(** Only one pointer is followed.  Into a pointer to a pointer nothing
    decodes: with [time.Time] a struct type, every input gives an error or
    a panic, because the value is decoded into the inner pointer as it
    is. *)
Theorem pointer_to_pointer_never_decodes (lib : Library) (fuel : nat)
    (data : string) (e : rtype) (fl : flag) (x : value) :
  Type_Kind (time_Time lib) <> Ptr ->
  (exists msg,
     fst (unmarshalValue lib (S fuel) data (MkValue (TPtr (TPtr e)) fl x))
     = Err msg)
  \/ (exists p,
        fst (unmarshalValue lib (S fuel) data (MkValue (TPtr (TPtr e)) fl x))
        = Panics p).
Proof.
  intros Hk. cbn [unmarshalValue]. destruct (next data) as [[skip tag] rest].
  destruct (String.eqb tag nil); [left; now eexists|].
  cbn [indirect].
  destruct (if IsNil (MkValue (TPtr (TPtr e)) fl x)
            then Value_Set (MkValue (TPtr (TPtr e)) fl x) (TPtr (TPtr e))
                   (VPtr (Some (Zero (TPtr e))))
            else inr (MkValue (TPtr (TPtr e)) fl x)) as [p | w] eqn:Hw;
    [right; now eexists|].
  assert (Hty : exists fl' x', w = MkValue (TPtr (TPtr e)) fl' x').
  { destruct (IsNil _).
    - unfold Value_Set in Hw.
      destruct (flagRO fl); [discriminate|].
      destruct (negb (flagAddr fl)); [discriminate|].
      destruct (assignTo _ _ _); [|discriminate].
      injection Hw as <-. now eexists _, _.
    - injection Hw as <-. now eexists _, _. }
  destruct Hty as (fl' & x' & ->). unfold Value_Elem.
  destruct x' as [| | | | | | |[y|] |]; try (right; now eexists).
  destruct (dispatch_into_pointer lib (dictLoop lib fuel) (arrayLoop lib fuel)
              tag rest e (mkFlag true (flagStickyRO fl') (flagEmbedRO fl')) y
              Hk) as [[msg H] | [p H]];
    destruct (dispatch lib _ _ tag rest _) as [o w]; simpl in H; subst o;
    simpl; [left | right]; now eexists.
Qed.

Lemma pointer_to_pointer_never_decodes_witness :
  (exists msg,
     fst (unmarshalValue example_lib 2 "<string>a</string>"
            (MkValue (TPtr (TPtr t_string)) (mkFlag true false false)
               (VPtr None)))
     = Err msg)
  \/ (exists p,
        fst (unmarshalValue example_lib 2 "<string>a</string>"
               (MkValue (TPtr (TPtr t_string)) (mkFlag true false false)
                  (VPtr None)))
        = Panics p).
Proof.
  apply (pointer_to_pointer_never_decodes example_lib 1 "<string>a</string>"
           t_string (mkFlag true false false) (VPtr None)).
  discriminate.
Defined.

(** ** Arrays and mappings of scalars *)

Lemma entry_value_at_stored (lib : Library) (e : entry) (t : rtype)
    (fl : flag) (x y : value) :
  entry_stored lib t e = Some y ->
  entry_value_at lib (bitSize (MkValue t fl x)) e = entry_value lib e.
Proof.
  destruct e; try reflexivity.
  unfold entry_stored, bitSize. simpl.
  destruct (strconv_ParseFloat lib body 64) eqn:E; [|discriminate].
  simpl. unfold assignTo.
  destruct t as [[] ?| | | |]; simpl; try discriminate; now rewrite ?E.
Qed.

(** A well-formed scalar element is stored in a settable destination that
    is of its type or an empty interface. *)
Lemma entry_store (lib : Library) (fuel : nat) (pad : string) (e : entry)
    (rest : string) (t : rtype) (fl : flag) (x y : value) :
  entry_wf (pad, e) = true ->
  entry_stored lib t e = Some y -> Type_Kind t <> Ptr ->
  flagAddr fl = true -> flagRO fl = false ->
  unmarshalValue lib (S fuel) (pad ++ entry_text e ++ rest) (MkValue t fl x)
  = (Ok rest, MkValue t fl y).
Proof.
  intros Hwf Hs Hk Ha Hro. unfold entry_wf in Hwf. simpl in Hwf.
  apply andb_prop in Hwf. destruct Hwf as [Hpad Hbody].
  apply negb_true_iff in Hpad, Hbody.
  rewrite (entry_decode lib fuel pad e rest _ Hpad Hbody
             (indirect_no_pointer _ _ _ Hk)).
  rewrite (entry_value_at_stored lib e t fl x y Hs).
  unfold entry_stored in Hs.
  destruct (entry_value lib e) as [[xt z]|]; [|discriminate].
  unfold Value_Set. now rewrite Hro, Ha, Hs.
Qed.

(** The token that begins an entry is neither the end of the input nor a
    closing tag of an array. *)
Lemma entry_token (pad : string) (e : entry) (rest : string) :
  occurs "<" pad = false ->
  exists tag after,
    next (pad ++ entry_text e ++ rest) = (pad, tag, after)
    /\ (len tag =? 0) = false
    /\ String.eqb tag "</array>" = false.
Proof.
  intros Hpad.
  destruct e as [b | b | b | b | b | |].
  - exists "<string>", (b ++ "</string>" ++ rest). split; [|now split].
    simpl entry_text. cbn [append]. rewrite ?append_assoc.
    exact (next_token pad "string" _ Hpad eq_refl).
  - exists "<integer>", (b ++ "</integer>" ++ rest). split; [|now split].
    simpl entry_text. cbn [append]. rewrite ?append_assoc.
    exact (next_token pad "integer" _ Hpad eq_refl).
  - exists "<real>", (b ++ "</real>" ++ rest). split; [|now split].
    simpl entry_text. cbn [append]. rewrite ?append_assoc.
    exact (next_token pad "real" _ Hpad eq_refl).
  - exists "<date>", (b ++ "</date>" ++ rest). split; [|now split].
    simpl entry_text. cbn [append]. rewrite ?append_assoc.
    exact (next_token pad "date" _ Hpad eq_refl).
  - exists "<data>", (b ++ "</data>" ++ rest). split; [|now split].
    simpl entry_text. cbn [append]. rewrite ?append_assoc.
    exact (next_token pad "data" _ Hpad eq_refl).
  - exists "<true/>", rest. split; [|now split].
    exact (next_token pad "true/" _ Hpad eq_refl).
  - exists "<false/>", rest. split; [|now split].
    exact (next_token pad "false/" _ Hpad eq_refl).
Qed.

Lemma arrayLoop_stored (lib : Library) (pad rest : string) (t : rtype)
    (fl : flag) (es : list (string * entry)) (ys : list value) :
  Type_Kind t <> Ptr ->
  occurs "<" pad = false -> flagAddr fl = true -> flagRO fl = false ->
  forallb entry_wf es = true ->
  Forall2 (fun pe y => entry_stored lib t (snd pe) = Some y) es ys ->
  forall (fuel : nat) (xs : list value),
  (List.length es + 1 < fuel)%nat ->
  arrayLoop lib fuel (entries_text es ++ pad ++ "</array>" ++ rest)
    (MkValue (TSlice t) fl (VSlice xs))
  = (Ok rest, MkValue (TSlice t) fl (VSlice (xs ++ ys)%list)).
Proof.
  intros Hk Hpad Ha Hro Hwf Hst. revert Hwf.
  induction Hst as [|[p e] y es ys Hy Hst IH]; intros Hwf [|fuel] xs Hfuel;
    simpl List.length in Hfuel; try lia.
  - assert (Hn : next (entries_text [] ++ pad ++ "</array>" ++ rest)
                 = (pad, "</array>", rest))
      by exact (next_token pad "/array" _ Hpad eq_refl).
    rewrite (arrayLoop_step lib fuel _ _ _ _ _ _ _ Hn eq_refl).
    simpl. now rewrite app_nil_r.
  - simpl in Hwf. apply andb_prop in Hwf. destruct Hwf as [Hpe Hes].
    cbn [entries_text]. rewrite !append_assoc.
    destruct fuel as [|fuel]; [lia|].
    assert (Hp : occurs "<" p = false).
    { unfold entry_wf in Hpe. simpl in Hpe. apply andb_prop in Hpe.
      now apply negb_true_iff. }
    destruct (entry_token p e (entries_text es ++ pad ++ "</array>" ++ rest)
                Hp) as (tag & after & Hn & Hlen & Hclose).
    rewrite (arrayLoop_step lib (S fuel) _ _ _ _ _ _ _ Hn Hlen), Hclose.
    cbn [Type_Elem]. unfold New_Elem.
    rewrite (entry_store lib fuel p e _ t (mkFlag true false false) (Zero t)
               y Hpe Hy Hk eq_refl eq_refl).
    cbn [Set_Append]. rewrite Hro, Ha. cbn [negb].
    rewrite IH by (trivial; lia). now rewrite <- app_assoc.
Qed.

(** An array of well-formed scalar entries decoded into a settable slice
    whose element type is the type of every entry (strings into a
    [[]string], integers into a [[]int], ...) appends the values of the
    entries, in order, to what the slice held, and returns the bytes
    after the closing tag. *)
Theorem array_into_typed_slice (lib : Library) (fuel : nat)
    (lead pad rest : string) (t : rtype) (fl : flag)
    (es : list (string * entry)) (xs ys : list value) :
  Type_Kind t <> Ptr ->
  occurs "<" lead = false -> occurs "<" pad = false ->
  flagAddr fl = true -> flagRO fl = false ->
  forallb entry_wf es = true ->
  Forall2 (fun pe y => entry_stored lib t (snd pe) = Some y) es ys ->
  (List.length es + 2 < fuel)%nat ->
  unmarshalValue lib fuel
    (lead ++ "<array>" ++ entries_text es ++ pad ++ "</array>" ++ rest)
    (MkValue (TSlice t) fl (VSlice xs))
  = (Ok rest, MkValue (TSlice t) fl (VSlice (xs ++ ys)%list)).
Proof.
  intros Hk Hlead Hpad Ha Hro Hwf Hst Hfuel.
  destruct fuel as [|fuel]; [lia|].
  assert (Hn : next (lead ++ "<array>" ++ entries_text es ++ pad
                     ++ "</array>" ++ rest)
               = (lead, "<array>",
                  entries_text es ++ pad ++ "</array>" ++ rest))
    by exact (next_token lead "array" _ Hlead eq_refl).
  rewrite (unmarshalValue_step lib fuel _ _ _ _
             (MkValue (TSlice t) fl (VSlice xs)) None Hn eq_refl eq_refl).
  unfold finish, target, dispatch. simpl String.eqb. cbv iota.
  cbn [Value_Kind Type_Kind Kind_eqb negb].
  apply arrayLoop_stored; trivial. lia.
Qed.

Lemma array_into_typed_slice_witness :
  unmarshalValue example_lib 5
    (" " ++ "<array>"
     ++ entries_text [(" ", EString "a"); (" ", EString "b")]
     ++ " " ++ "</array>" ++ "</dict>")
    (MkValue (TSlice t_string) (mkFlag true false false)
       (VSlice [VString "z"]))
  = (Ok "</dict>",
     MkValue (TSlice t_string) (mkFlag true false false)
       (VSlice ([VString "z"] ++ [VString "a"; VString "b"])%list)).
Proof.
  apply (array_into_typed_slice example_lib 5 " " " " "</dict>" t_string
           (mkFlag true false false)
           [(" ", EString "a"); (" ", EString "b")]
           [VString "z"] [VString "a"; VString "b"]);
    try reflexivity.
  - discriminate.
  - repeat constructor.
  - simpl. lia.
Defined.

(** An array decoded into a slice that cannot be set (a slice passed to
    [Unmarshal] by value, or an unexported field): the empty array is
    accepted, and any other panics in [reflect.Set] once its first entry
    is decoded.  The slice is left as it is either way. *)
Theorem array_into_unsettable_slice (lib : Library) (fuel : nat)
    (lead pad rest : string) (t : rtype) (fl : flag)
    (es : list (string * entry)) (xs ys : list value) :
  Type_Kind t <> Ptr ->
  occurs "<" lead = false -> occurs "<" pad = false ->
  CanSet (MkValue (TSlice t) fl (VSlice xs)) = false ->
  forallb entry_wf es = true ->
  Forall2 (fun pe y => entry_stored lib t (snd pe) = Some y) es ys ->
  (2 < fuel)%nat ->
  unmarshalValue lib fuel
    (lead ++ "<array>" ++ entries_text es ++ pad ++ "</array>" ++ rest)
    (MkValue (TSlice t) fl (VSlice xs))
  = (match es with
     | [] => Ok rest
     | _ :: _ =>
         Panics (if flagRO fl then PanicUnexported else PanicUnaddressable)
     end,
     MkValue (TSlice t) fl (VSlice xs)).
Proof.
  intros Hk Hlead Hpad Hc Hwf Hst Hfuel.
  destruct fuel as [|[|fuel]]; try lia.
  assert (Hn : next (lead ++ "<array>" ++ entries_text es ++ pad
                     ++ "</array>" ++ rest)
               = (lead, "<array>",
                  entries_text es ++ pad ++ "</array>" ++ rest))
    by exact (next_token lead "array" _ Hlead eq_refl).
  rewrite (unmarshalValue_step lib (S fuel) _ _ _ _
             (MkValue (TSlice t) fl (VSlice xs)) None Hn eq_refl eq_refl).
  unfold finish, target, dispatch. simpl String.eqb. cbv iota.
  cbn [Value_Kind Type_Kind Kind_eqb negb].
  destruct Hst as [|[p e] y es ys Hy Hst].
  - assert (Hn' : next (entries_text [] ++ pad ++ "</array>" ++ rest)
                  = (pad, "</array>", rest))
      by exact (next_token pad "/array" _ Hpad eq_refl).
    now rewrite (arrayLoop_step lib fuel _ _ _ _ _ _ _ Hn' eq_refl).
  - simpl in Hwf. apply andb_prop in Hwf. destruct Hwf as [Hpe Hes].
    cbn [entries_text]. rewrite !append_assoc.
    destruct fuel as [|fuel]; [lia|].
    assert (Hp : occurs "<" p = false).
    { unfold entry_wf in Hpe. simpl in Hpe. apply andb_prop in Hpe.
      now apply negb_true_iff. }
    destruct (entry_token p e (entries_text es ++ pad ++ "</array>" ++ rest)
                Hp) as (tag & after & Hn' & Hlen & Hclose).
    rewrite (arrayLoop_step lib (S fuel) _ _ _ _ _ _ _ Hn' Hlen), Hclose.
    cbn [Type_Elem]. unfold New_Elem.
    rewrite (entry_store lib fuel p e _ t (mkFlag true false false) (Zero t)
               y Hpe Hy Hk eq_refl eq_refl).
    cbn [Set_Append]. simpl in Hc.
    destruct (flagRO fl); [reflexivity|].
    destruct (flagAddr fl); [discriminate | reflexivity].
Qed.

Lemma array_into_unsettable_slice_witness :
  unmarshalValue example_lib 4
    ("<array>" ++ entries_text [(" ", EInteger "1")] ++ " " ++ "</array>"
     ++ "</plist>")
    (ValueOf (Some (TSlice t_int, VSlice [])))
  = (match [(" ", EInteger "1")] with
     | [] => Ok "</plist>"
     | _ :: _ =>
         Panics (if flagRO (mkFlag false false false)
                 then PanicUnexported else PanicUnaddressable)
     end,
     ValueOf (Some (TSlice t_int, VSlice []))).
Proof.
  apply (array_into_unsettable_slice example_lib 4 "" " " "</plist>" t_int
           (mkFlag false false false) [(" ", EInteger "1")] [] [VInt 1]);
    try reflexivity.
  - discriminate.
  - repeat constructor.
  - lia.
Defined.

Lemma append_nil_r (b : string) : b ++ EmptyString = b.
Proof. induction b as [|c b IH]; simpl; [reflexivity | now rewrite IH]. Qed.

Lemma length_list_set {A : Type} (l : list A) (i : nat) (a : A) :
  List.length (list_set l i a) = List.length l.
Proof.
  revert i. induction l as [|b l IH]; intros [|i]; simpl; trivial.
  now rewrite IH.
Qed.

(** A well-formed scalar element with a body is skipped as a whole. *)
Lemma skipValue_entry (q : string) (e : entry) (rest : string) :
  entry_wf (q, e) = true -> e <> ETrue -> e <> EFalse ->
  skipValue (q ++ entry_text e ++ rest) = Ok rest.
Proof.
  intros Hwf Ht Hf. unfold entry_wf in Hwf. simpl in Hwf.
  apply andb_prop in Hwf. destruct Hwf as [Hq Hb].
  assert (K : forall n b,
             tok_ok (q, Open n) = true -> tok_ok (b, Close n) = true ->
             skipValue (q ++ ("<" ++ n ++ ">" ++ b ++ "</" ++ n ++ ">") ++ rest)
             = Ok rest).
  { intros n b Ho Hc.
    pose proof (skipValue_nested q n [] b n rest nested_nil) as H.
    cbn [app forallb] in H. rewrite Ho, Hc in H. specialize (H eq_refl).
    cbn [toks_text] in H. unfold tok_text in H. cbn [fst snd] in H.
    rewrite append_nil_r in H.
    repeat (rewrite ?append_assoc in H; cbn [append] in H).
    repeat (rewrite ?append_assoc; cbn [append]). exact H. }
  assert (Ho : forall n, occurs ">" n = false ->
                 Ascii.eqb (byte_at ("<" ++ n ++ ">") 1) "/" = false ->
                 tok_ok (q, Open n) = true).
  { intros n H1 H2. unfold tok_ok. cbn [fst snd]. now rewrite Hq, H1, H2. }
  assert (Hc : forall n b, negb (occurs "<" b) = true ->
                 occurs ">" n = false -> tok_ok (b, Close n) = true).
  { intros n b H1 H2. unfold tok_ok. cbn [fst snd]. now rewrite H1, H2. }
  destruct e as [b | b | b | b | b | |];
    [ exact (K "string" b (Ho "string" eq_refl eq_refl) (Hc "string" b Hb eq_refl))
    | exact (K "integer" b (Ho "integer" eq_refl eq_refl) (Hc "integer" b Hb eq_refl))
    | exact (K "real" b (Ho "real" eq_refl eq_refl) (Hc "real" b Hb eq_refl))
    | exact (K "date" b (Ho "date" eq_refl eq_refl) (Hc "date" b Hb eq_refl))
    | exact (K "data" b (Ho "data" eq_refl eq_refl) (Hc "data" b Hb eq_refl))
    | now elim Ht | now elim Hf ].
Qed.

(** The loop of the [<dict>] case over well-formed scalar entries binds
    them one after the other, and goes on with what follows them. *)
Lemma dictLoop_binds (lib : Library) (tail sname : string)
    (fs : list StructField) (fl : flag) :
  flagAddr fl = true -> flagRO fl = false ->
  forall (kes : list (string * string * (string * entry)))
         (xs ys : list value) (fuel : nat),
  List.length xs = List.length fs ->
  binds lib fs xs kes = Some ys ->
  (0 < fuel)%nat ->
  dictLoop lib (List.length kes + fuel) (pairs_text kes ++ tail)
    (MkValue (TStruct sname fs) fl (VStruct xs))
  = dictLoop lib fuel tail (MkValue (TStruct sname fs) fl (VStruct ys)).
Proof.
  intros Ha Hro.
  induction kes as [|[[p key] [q e]] kes IH]; intros xs ys fuel Hlen Hb Hfuel.
  - injection Hb as <-. reflexivity.
  - cbn [binds] in Hb.
    destruct (bind lib fs xs (p, key, (q, e))) as [xs'|] eqn:Hbind;
      [|discriminate].
    unfold bind in Hbind.
    destruct (negb (occurs "<" p) && negb (occurs "<" key) && entry_wf (q, e))
      eqn:Hwf; [|discriminate]. cbn [negb] in Hbind.
    apply andb_prop in Hwf. destruct Hwf as [Hwf Hqe].
    apply andb_prop in Hwf. destruct Hwf as [Hp Hkey].
    apply negb_true_iff in Hp, Hkey.
    cbn [pairs_text List.length plus]. rewrite !append_assoc.
    assert (H1 : next (p ++ "<key>" ++ key ++ "</key>" ++ q ++ entry_text e
                       ++ pairs_text kes ++ tail)
                 = (p, "<key>",
                    key ++ "</key>" ++ q ++ entry_text e
                    ++ pairs_text kes ++ tail))
      by exact (next_token p "key" _ Hp eq_refl).
    rewrite (dictLoop_key lib _ _ _ _ _ _ _ H1
               (next_body key "key" _ Hkey eq_refl)).
    cbn [Type_Fields].
    destruct (fieldIndex fs key 0) as [i|].
    + destruct (nth_error fs i) as [f|] eqn:Hf; [|discriminate].
      destruct (String.eqb (PkgPath f) EmptyString
                && negb (Kind_eqb (Type_Kind (Type_ f)) Ptr)) eqn:Hfield;
        [|discriminate].
      apply andb_prop in Hfield. destruct Hfield as [Hpkg Hkind].
      destruct (entry_stored lib (Type_ f) e) as [y|] eqn:Hy; [|discriminate].
      injection Hbind as <-.
      assert (Hx : exists x, nth_error xs i = Some x).
      { destruct (nth_error xs i) as [x|] eqn:E; [now exists x|].
        apply nth_error_None in E.
        assert (i < List.length fs)%nat by (apply nth_error_Some; congruence).
        lia. }
      destruct Hx as [x Hx].
      cbn [Value_Field]. rewrite Hf, Hx, Hpkg. cbn [negb andb].
      pose proof Hro as Hro'.
      apply orb_false_elim in Hro'. destruct Hro' as [Hs He].
      rewrite Ha, Hs, ?orb_false_r. cbn [orb].
      assert (Hk : Type_Kind (Type_ f) <> Ptr).
      { intros E. rewrite E in Hkind. discriminate Hkind. }
      replace (List.length kes + fuel)%nat
        with (S (List.length kes + (fuel - 1))) at 1 by lia.
      rewrite (entry_store lib _ q e _ (Type_ f) (mkFlag true false false)
                 x y Hqe Hy Hk eq_refl eq_refl).
      cbn [store_field].
      apply IH; [now rewrite length_list_set | exact Hb | lia].
    + assert (Hbody : e <> ETrue /\ e <> EFalse)
        by (destruct e; try discriminate Hbind; split; discriminate).
      assert (E : xs' = xs) by (destruct e; congruence). subst xs'.
      rewrite (skipValue_entry q e _ Hqe (proj1 Hbody) (proj2 Hbody)).
      apply IH; [exact Hlen | exact Hb | lia].
Qed.

(** A mapping of well-formed scalar entries decoded into a settable
    struct: each value is stored in the first field its key selects (an
    exported field of the type of the value, or an empty interface), a
    later entry for the same field replaces an earlier one, an entry with
    a body whose key selects no field is passed over, every other field
    keeps what it held, and the bytes after the closing tag are
    returned. *)
Theorem mapping_of_scalars_into_struct (lib : Library) (fuel : nat)
    (lead pad rest sname : string) (fs : list StructField) (fl : flag)
    (kes : list (string * string * (string * entry))) (xs ys : list value) :
  occurs "<" lead = false -> occurs "<" pad = false ->
  flagAddr fl = true -> flagRO fl = false ->
  List.length xs = List.length fs ->
  binds lib fs xs kes = Some ys ->
  (List.length kes + 2 < fuel)%nat ->
  unmarshalValue lib fuel
    (lead ++ "<dict>" ++ pairs_text kes ++ pad ++ "</dict>" ++ rest)
    (MkValue (TStruct sname fs) fl (VStruct xs))
  = (Ok rest, MkValue (TStruct sname fs) fl (VStruct ys)).
Proof.
  intros Hlead Hpad Ha Hro Hlen Hb Hfuel.
  destruct fuel as [|fuel]; [lia|].
  assert (Hn : next (lead ++ "<dict>" ++ pairs_text kes ++ pad
                     ++ "</dict>" ++ rest)
               = (lead, "<dict>", pairs_text kes ++ pad ++ "</dict>" ++ rest))
    by exact (next_token lead "dict" _ Hlead eq_refl).
  rewrite (unmarshalValue_step lib fuel _ _ _ _
             (MkValue (TStruct sname fs) fl (VStruct xs)) None Hn eq_refl
             eq_refl).
  unfold finish, target, dispatch. simpl String.eqb. cbv iota.
  cbn [Value_Kind Type_Kind Kind_eqb negb].
  replace fuel with (List.length kes + S (fuel - List.length kes - 1))%nat
    by lia.
  rewrite (dictLoop_binds lib _ sname fs fl Ha Hro kes xs ys _ Hlen Hb)
    by lia.
  assert (Hn' : next (pad ++ "</dict>" ++ rest) = (pad, "</dict>", rest))
    by exact (next_token pad "/dict" _ Hpad eq_refl).
  cbn [dictLoop]. now rewrite Hn'.
Qed.

Lemma mapping_of_scalars_into_struct_witness :
  unmarshalValue example_lib 7
    (" " ++ "<dict>"
     ++ pairs_text [(" ", "N", (" ", EInteger "1"));
                    (" ", "other", ("", EString "x"));
                    (" ", "S", (" ", EString "a"));
                    (" ", "N", (" ", EInteger "2"))]
     ++ " " ++ "</dict>" ++ "</plist>")
    (MkValue (TStruct "T" [field "N" t_int; field "S" t_string])
       (mkFlag true false false) (VStruct [VInt 0; VString ""]))
  = (Ok "</plist>",
     MkValue (TStruct "T" [field "N" t_int; field "S" t_string])
       (mkFlag true false false) (VStruct [VInt 2; VString "a"])).
Proof.
  apply (mapping_of_scalars_into_struct example_lib 7 " " " " "</plist>" "T"
           [field "N" t_int; field "S" t_string] (mkFlag true false false)
           [(" ", "N", (" ", EInteger "1"));
            (" ", "other", ("", EString "x"));
            (" ", "S", (" ", EString "a"));
            (" ", "N", (" ", EInteger "2"))]
           [VInt 0; VString ""] [VInt 2; VString "a"]);
    try reflexivity.
  simpl. lia.
Defined.

(** An error in a mapping does not undo what was decoded before it.  When
    the entries of a mapping are followed by a token that is neither a
    key nor the closing tag (or by the end of the input), the decoder
    returns the error of the [<dict>] case, and the struct holds the
    values of the entries before it. *)
Theorem mapping_error_keeps_earlier_fields (lib : Library) (fuel : nat)
    (lead tail skip tag after sname : string) (fs : list StructField)
    (fl : flag) (kes : list (string * string * (string * entry)))
    (xs ys : list value) :
  occurs "<" lead = false ->
  flagAddr fl = true -> flagRO fl = false ->
  List.length xs = List.length fs ->
  binds lib fs xs kes = Some ys ->
  next tail = (skip, tag, after) ->
  String.eqb tag "</dict>" = false -> String.eqb tag "<key>" = false ->
  (List.length kes + 1 < fuel)%nat ->
  unmarshalValue lib fuel (lead ++ "<dict>" ++ pairs_text kes ++ tail)
    (MkValue (TStruct sname fs) fl (VStruct xs))
  = (Err (if String.eqb tag nil then "eof inside <dict>"
          else "unexpected tag " ++ tag ++ " inside <dict>"),
     MkValue (TStruct sname fs) fl (VStruct ys)).
Proof.
  intros Hlead Ha Hro Hlen Hb Hn' Hclose Hkey Hfuel.
  destruct fuel as [|fuel]; [lia|].
  assert (Hn : next (lead ++ "<dict>" ++ pairs_text kes ++ tail)
               = (lead, "<dict>", pairs_text kes ++ tail))
    by exact (next_token lead "dict" _ Hlead eq_refl).
  rewrite (unmarshalValue_step lib fuel _ _ _ _
             (MkValue (TStruct sname fs) fl (VStruct xs)) None Hn eq_refl
             eq_refl).
  unfold finish, target, dispatch. simpl String.eqb. cbv iota.
  cbn [Value_Kind Type_Kind Kind_eqb negb].
  replace fuel with (List.length kes + S (fuel - List.length kes - 1))%nat
    by lia.
  rewrite (dictLoop_binds lib _ sname fs fl Ha Hro kes xs ys _ Hlen Hb)
    by lia.
  cbn [dictLoop]. rewrite Hn', len_eqb_0.
  destruct (String.eqb tag nil); [reflexivity|].
  now rewrite Hclose, Hkey.
Qed.

Lemma mapping_error_keeps_earlier_fields_witness :
  unmarshalValue example_lib 3
    ("" ++ "<dict>"
     ++ pairs_text [("", "N", ("", EInteger "1"))] ++ "<string>a</string>")
    (MkValue (TStruct "T" [field "N" t_int; field "S" t_string])
       (mkFlag true false false) (VStruct [VInt 0; VString ""]))
  = (Err (if String.eqb "<string>" nil then "eof inside <dict>"
          else "unexpected tag " ++ "<string>" ++ " inside <dict>"),
     MkValue (TStruct "T" [field "N" t_int; field "S" t_string])
       (mkFlag true false false) (VStruct [VInt 1; VString ""])).
Proof.
  apply (mapping_error_keeps_earlier_fields example_lib 3 ""
           "<string>a</string>" "" "<string>" "a</string>" "T"
           [field "N" t_int; field "S" t_string] (mkFlag true false false)
           [("", "N", ("", EInteger "1"))]
           [VInt 0; VString ""] [VInt 1; VString ""]);
    try reflexivity.
  simpl. lia.
Defined.

(** ** The errors of skipValue *)

(** Once the nesting counter is positive, [skipValue] no longer reports a
    closing tag. *)
Lemma skipLoop_positive (fuel n : nat) (data : string) :
  skipLoop fuel (S n) data <> Err "unexpected closing tag".
Proof.
  revert n data. induction fuel as [|fuel IH]; intros n data; [discriminate|].
  cbn [skipLoop]. destruct (next data) as [[skip tag] rest].
  destruct (len tag =? 0); [discriminate|].
  destruct (Ascii.eqb (byte_at tag 1) "/"); [|apply IH].
  destruct n as [|n]; [discriminate | apply IH].
Qed.

Lemma skipLoop_outcomes (fuel n : nat) (data : string) :
  (exists rest, skipLoop fuel n data = Ok rest)
  \/ skipLoop fuel n data = Err "unexpected eof"
  \/ skipLoop fuel n data = Err "unexpected closing tag"
  \/ skipLoop fuel n data = OutOfFuel.
Proof.
  revert n data. induction fuel as [|fuel IH]; intros n data; [tauto|].
  cbn [skipLoop]. destruct (next data) as [[skip tag] rest].
  destruct (len tag =? 0); [tauto|].
  destruct (Ascii.eqb (byte_at tag 1) "/"); [|apply IH].
  destruct n as [|[|n]]; [tauto | left; now eexists | apply IH].
Qed.

(** [skipValue] returns the rest of the input or one of two errors, and it
    reports a closing tag exactly when the first token of the input is a
    closing token: a value that begins with any other token and is not
    closed ends in the end-of-file error. *)
Theorem skipValue_errors (data : string) :
  ((exists rest, skipValue data = Ok rest)
   \/ skipValue data = Err "unexpected eof"
   \/ skipValue data = Err "unexpected closing tag")
  /\ (skipValue data = Err "unexpected closing tag"
      <-> String.eqb (snd (fst (next data))) nil = false
          /\ byte_at (snd (fst (next data))) 1 = "/"%char).
Proof.
  split.
  - pose proof (skipValue_terminates data) as Ht. unfold skipValue in *.
    destruct (skipLoop_outcomes (S (String.length data)) 0 data)
      as [H | [H | [H | H]]]; tauto.
  - unfold skipValue. cbn [skipLoop].
    destruct (next data) as [[skip tag] rest]. cbn [fst snd].
    rewrite len_eqb_0. destruct (String.eqb tag nil).
    { split; [discriminate | intros [H _]; discriminate H]. }
    destruct (Ascii.eqb_spec (byte_at tag 1) "/") as [E | E].
    + split; [now split | reflexivity].
    + split.
      * intros H. now elim (skipLoop_positive _ _ _ H).
      * intros [_ H]. now elim E.
Qed.

(** ** Unexported fields *)

Lemma list_set_same {A : Type} (l : list A) (i : nat) (a : A) :
  nth_error l i = Some a -> list_set l i a = l.
Proof.
  revert i. induction l as [|b l IH]; intros [|i]; simpl; trivial.
  - now intros [= ->].
  - intros H. now rewrite IH.
Qed.

(** A key that selects an unexported field makes the decoder panic.  The
    field is not passed over: its value is decoded, and for a well-formed
    scalar element whose body converts, [reflect.Set] refuses the field,
    whatever its type (no pointer) and even when the struct itself can be
    set.  The struct is left as it is. *)
Theorem unexported_field_panics (lib : Library) (fuel : nat)
    (lead p key q tail sname : string) (e : entry) (fs : list StructField)
    (fl : flag) (xs : list value) (i : nat) (f : StructField)
    (xt : rtype) (y : value) :
  occurs "<" lead = false -> occurs "<" p = false ->
  occurs "<" key = false -> entry_wf (q, e) = true ->
  List.length xs = List.length fs ->
  fieldIndex fs key 0 = Some i -> nth_error fs i = Some f ->
  String.eqb (PkgPath f) EmptyString = false ->
  Type_Kind (Type_ f) <> Ptr ->
  entry_value_at lib (bitSize (New_Elem (Type_ f))) e = Some (xt, y) ->
  unmarshalValue lib (S (S (S fuel)))
    (lead ++ "<dict>" ++ pairs_text [(p, key, (q, e))] ++ tail)
    (MkValue (TStruct sname fs) fl (VStruct xs))
  = (Panics PanicUnexported, MkValue (TStruct sname fs) fl (VStruct xs)).
Proof.
  intros Hlead Hp Hkey Hqe Hlen Hi Hf Hpkg Hk Hv.
  assert (Hn : next (lead ++ "<dict>" ++ pairs_text [(p, key, (q, e))] ++ tail)
               = (lead, "<dict>", pairs_text [(p, key, (q, e))] ++ tail))
    by exact (next_token lead "dict" _ Hlead eq_refl).
  rewrite (unmarshalValue_step lib _ _ _ _ _
             (MkValue (TStruct sname fs) fl (VStruct xs)) None Hn eq_refl
             eq_refl).
  unfold finish, target, dispatch. simpl String.eqb. cbv iota.
  cbn [Value_Kind Type_Kind Kind_eqb negb].
  cbn [pairs_text]. rewrite !append_assoc.
  assert (H1 : next (p ++ "<key>" ++ key ++ "</key>" ++ q ++ entry_text e
                     ++ EmptyString ++ tail)
               = (p, "<key>",
                  key ++ "</key>" ++ q ++ entry_text e ++ EmptyString ++ tail))
    by exact (next_token p "key" _ Hp eq_refl).
  rewrite (dictLoop_key lib _ _ _ _ _ _ _ H1
             (next_body key "key" _ Hkey eq_refl)).
  cbn [Type_Fields]. rewrite Hi.
  assert (Hx : exists x, nth_error xs i = Some x).
  { destruct (nth_error xs i) as [x|] eqn:E; [now exists x|].
    apply nth_error_None in E.
    assert (i < List.length fs)%nat by (apply nth_error_Some; congruence).
    lia. }
  destruct Hx as [x Hx].
  cbn [Value_Field]. rewrite Hf, Hx, Hpkg. cbn [negb andb].
  unfold entry_wf in Hqe. simpl in Hqe.
  apply andb_prop in Hqe. destruct Hqe as [Hq Hbody].
  apply negb_true_iff in Hq, Hbody.
  rewrite (entry_decode lib fuel q e _ _ Hq Hbody
             (indirect_no_pointer _ _ _ Hk)).
  change (bitSize (MkValue (Type_ f)
                     (mkFlag (flagAddr fl)
                        (flagStickyRO fl || negb (Anonymous f))
                        (Anonymous f)) x))
    with (bitSize (New_Elem (Type_ f))).
  rewrite Hv. unfold Value_Set, flagRO.
  cbn [flagStickyRO flagEmbedRO].
  assert (Hro : (flagStickyRO fl || negb (Anonymous f)) || Anonymous f = true)
    by (destruct (flagStickyRO fl), (Anonymous f); reflexivity).
  rewrite Hro. cbn [store_field]. now rewrite (list_set_same _ _ _ Hx).
Qed.

Lemma unexported_field_panics_witness :
  unmarshalValue example_lib 3
    ("" ++ "<dict>" ++ pairs_text [("", "name", ("", EString "a"))]
     ++ "</dict>")
    (MkValue
       (TStruct "T" [mkStructField "name" "main" t_string [] false])
       (mkFlag true false false) (VStruct [VString ""]))
  = (Panics PanicUnexported,
     MkValue
       (TStruct "T" [mkStructField "name" "main" t_string [] false])
       (mkFlag true false false) (VStruct [VString ""])).
Proof.
  apply (unexported_field_panics example_lib 0 "" "" "name" "" "</dict>" "T"
           (EString "a")
           [mkStructField "name" "main" t_string [] false]
           (mkFlag true false false) [VString ""] 0
           (mkStructField "name" "main" t_string [] false)
           t_string (VString "a"));
    try reflexivity.
  discriminate.
Defined.
